(* ===== verification/_CoqProject ===== *)
-Q . S2P
Prelude.v
Bytes.v
Crc32.v
Utf8.v
ChunkType.v
Chunk.v
Message.v
Container.v
Tests.v
Png.v
Decoder.v
Cli.v
Session.v
Store.v
Process.v
