(* ===== verification/Prelude.v ===== *)
(** * PngMe: a verification development for the PNG chunk codec and its
      command line

    ** The program

    PngMe hides text messages in PNG files.  Its sources are four Rust
    files under [src/src/]:

    - [chunk_type.rs]: [ChunkType], the four-byte type tag of a chunk, its
      four property bits, its construction from bytes ([TryFrom]) and from
      text ([FromStr]), and its rendering ([Display]);
    - [chunk.rs]: [Chunk], one record of the PNG wire format (big-endian
      length, type, data, CRC-32 of type and data), its constructor [new],
      its encoder [as_bytes], its decoder [TryFrom<&[u8]>] and its
      rendering;
    - [args.rs]: the command-line structures [PngMe] and [Commands];
    - [main.rs]: [main], which reads a file, decodes it as a [Png]
      container, applies one of the commands encode, decode, remove and
      print, and writes the file or prints.

    [main.rs] also declares the modules [png] and [commands]; their files
    are not among the sources.  The container [Png] is described by the
    specification (section 4.3) and is modelled from it.

    ** The files, and what each models

    - [Prelude] (this file): the outcome of a Rust call as a value, [Ok],
      [Err] with the error, or [Panic] with the check that failed; the
      errors the sources build ([Error]); the monad of outcomes, which is
      the operator [?]; range slicing [&v[a..b]] with its panics; the
      development's tactics and hint databases.
    - [Bytes]: the machine data of the sources.  [U8] (a [u8] is a
      [byte]), [Arr4] (a [[u8; 4]] is a record of four bytes; indexing
      panics out of range), [U32] (a [u32] is a [Z] in [[0, 2^32)], with
      the wrap-around of [as u32] written out, [to_be_bytes] and
      [from_be_bytes]), [Usize] (a [usize] is a natural number below
      [2^64]; its addition checks for overflow as a build with debug
      assertions does), [Reader] ([BufReader::read_exact] as a function
      from the unread bytes to the bytes read and the rest).
    - [Crc32]: the [crc] crate's [Crc::<u32>::checksum] for
      [CRC_32_ISO_HDLC], table-driven and reflected as in the crate, and
      the bit-by-bit shift register it is proved equal to.  The class
      [Checksum] states what the codec needs of a checksum.
    - [Utf8]: [std::str::from_utf8], with the validator of the standard
      library, proved equivalent to the well-formedness grammar of the
      Unicode standard.  A Rust [String] is a Rocq [string] holding its
      UTF-8 bytes.
    - [ChunkType]: module [ChunkType], one definition per method of
      [chunk_type.rs]; [from_str] is the loop [from_str_loop] over the
      bytes of the string, with its early return and the panic of the
      indexed write.
    - [Chunk]: module [Chunk], one definition per method of [chunk.rs];
      [try_from] is the sequence of reads, slices and checks of the source,
      in their order.  A field that shares its name with an accessor
      method carries an underscore ([length_] is the field, [length] the
      method); the theorems are stated on the fields.  The relation
      [decodes] and the table [spec_decode] specify the wire format for
      any checksum of the class.
    - [Message]: the text of the three errors the sources build with
      [bail!], with [{}] on an integer as its decimal digits.
    - [Container]: the contract of the container, the class
      [Container.t]: the six operations [main.rs] calls on a [Png] and the
      laws that relate them to the chunk sequence, from the
      specification; the rendering is some function of the chunk
      sequence ([render]), which the specification leaves open.
    - [Tests]: the unit tests of the two files as programs, with the
      assertion macros.
    - [Png]: an implementation of the contract: signature, decode loop
      (on fuel, and by well-founded recursion), append, search by type,
      removal, encoding; the instance [png_container] proves the laws.
    - [Decoder]: the decode loop once more, as a transition system
      ([Decoder.step], with the function [Decoder.next] and its bounded
      iteration [Decoder.run]) over the rest of the buffer and the chunks
      decoded so far.
    - [Cli]: [Args.Commands] and [Main.main] over a world of files,
      locked paths and printed lines, in a state-and-error monad [io].
      [main] and its theorems are stated for every implementation of the
      contract.
    - [Session]: sequences of runs of [main] as a transition relation
      [step] on worlds, and the invariants of the worlds they reach; a
      run as one [action] on the world (nothing, one write, one line),
      chosen from the file the command reads, and the runs that can be
      made in either order.
    - [Store]: the four commands as the specification describes them,
      on chunk sequences by path ([Store.run]); [view] takes a world of
      files to the chunk sequences they decode to.
    - [Process]: the program from its arguments to its exit status.
      [Process.parse] is the parser clap derives from [args.rs], on
      arguments without options: [Process.subcommand] takes the variant
      from the subcommand name and its fields from the values, a
      [PathBuf] field through [Process.path_buf] (any value but the empty
      one) and a [String] field through [Process.text] (a value that is
      UTF-8).  [Process.status] is the status [fn main() -> Result<()>]
      exits with; [Process.run] parses, runs [Main.main] and reports the
      status.

    ** What the theorems show

    - Chunk codec ([Chunk]): the decoder refines [decodes]
      ([try_from_refines]); decoding an encoding gives the chunk back
      whatever follows it ([try_from_as_bytes], [try_from_new]); what
      decodes is valid and is a prefix of the input ([try_from_Ok_inv]);
      any change of the type or data within a window of four bytes, a
      single flipped bit included, is rejected ([try_from_corrupt]); a
      truncated input gives an error or, when the cut is in the data, a
      panic ([try_from_truncated], [try_from_Panic_iff]); [new] derives a
      valid length and checksum exactly below 2^32 bytes ([new_valid]);
      the checksum is the bitwise CRC-32 ([new_crc_bitwise]); the valid
      chunks are exactly those the decoder returns, and exactly those
      that decode from their own encoding ([valid_decodable]); the
      capacity [as_bytes] allocates is computed without overflow and is
      exact on valid chunks, and the decoder never overflows
      ([as_bytes_capacity_exact]); the rendering of a chunk determines
      it ([fmt_inj]).
    - Text ([Utf8]): [from_utf8] accepts exactly the well-formed UTF-8 of
      the Unicode standard ([from_utf8_well_formed]).
    - Errors ([Message]): the message of an error determines the error,
      with the byte, the string and the checksums it reports
      ([message_inj]); which message each failing function of the
      sources gives.
    - Machine arithmetic ([Bytes]): a [u32] plus a small constant
      cannot overflow a 64-bit [usize], and would overflow a 32-bit one
      (lemma [usize_add_u32]).
    - Type tag ([ChunkType]): [from_str] succeeds exactly on at most four
      letters, and what it does on every other string
      ([from_str_Ok], [from_str_Err], [from_str_Panic]);
      parsing and printing are inverse on four letters
      ([from_str_to_string]); the property bits are the cases of the
      letters ([property_bits_letters]).
    - Container ([Png]): decoding accepts exactly the encodings of
      containers of valid chunks ([png_try_from_Ok_iff]); a failing chunk
      fails the container ([png_try_from_propagates]); the decode loop
      terminates within fuel of a twelfth of the buffer
      ([decode_chunks_terminates]); removal, search and append on the
      sequence.
    - Decode loop as a machine ([Decoder]): a state that has not halted
      makes a step, every step shortens the buffer and keeps the answer
      of the loop, so every run halts, with the result of
      [Png.decode_chunks] ([decoder_halts]).
    - Commands ([Cli]), for every container that meets the contract: a
      message hidden by encode is printed by decode
      ([main_encode_decode]); remove undoes encode byte for byte, in
      place or on the output file ([main_encode_remove]); a message
      encoded under a type the file already has is shadowed by the old
      one ([main_encode_shadowed]); a failed command changes nothing
      (lemma [main_atomic]).
    - Sessions ([Session]): in every world a sequence of runs reaches,
      each file is as it was or is a container that decodes, locked
      paths keep their content and the output has only grown
      ([session_invariant]); two runs of which neither writes the file
      the other reads or writes give the same results and the same world
      in either order ([main_commute]).
    - Refinement ([Store]): a run of [main] on bytes returns what the
      command on chunk sequences returns and leaves the world whose view
      is the state that command leaves ([main_refines]); so a session on
      files is a session on chunk sequences ([session_refines]).
    - Process ([Process]): the parser returns a command exactly on the
      command line of that command, when no path of it is empty and its
      texts are UTF-8, and reports a usage error on every other command
      line of the fragment ([parse_command_line]); the process exits
      with 0 exactly when its arguments denote a command on which [main]
      returns [Ok], with 1 exactly on an error, with 101 exactly on a
      panic and with 2 exactly on a usage error, and with any status but
      0 it has changed nothing ([run_status]); a message hidden and read
      back from the command
      line ([run_encode_decode]); the program started any number of
      times keeps the invariant of sessions ([launch_invariant]).
    - Tests ([Tests]): the model is run on the unit tests of the sources,
      which all pass (example [unit_tests_pass]); this validates the
      definitions and is not counted among the properties.

    ** Bounds, fuel and assumptions

    - [usize] is 64 bits ([Usize.BITS]).  The decoder's [len as usize + 8]
      is computed with the overflow check of a debug build; the check
      never fires at 64 bits, so release builds, which wrap, agree.
      [data.len() as u32] does wrap, and is modelled with [U32.wrap].
    - The decode loop of the container runs on fuel.  [Png.try_from] gives
      it the length of the buffer; every decoded chunk takes at least
      twelve bytes, and [decode_chunks_loop] shows that with fuel of a
      twelfth of the length or more it computes the loop [decode_loop],
      which is defined by well-founded recursion (Equations) and has no
      fuel; the out-of-fuel case is never reached.
    - [fs::read] fails exactly on a path that holds no file, [fs::write]
      exactly on a locked path, and a failed write writes nothing.
    - The invariants of a session and the refinement are stated for
      commands whose message has fewer than 2^32 bytes ([small]);
      [new_valid] shows that a longer message gives a chunk that does not
      decode.
    - The machine of [Decoder] needs no fuel: its runs are shown finite
      from the length of the buffer, which every step shortens;
      [Decoder.run] takes a number of iterations, and one more than the
      length of the buffer is enough to halt ([run_size]).
    - An [anyhow::Error] is modelled by the place that built it and the
      values its message formats; [Display.error] gives the text for
      the errors built in the sources.  The texts of the errors of the
      standard library and of the container are not in the sources, and
      [Display.error] has none for them.

    - The parser is modelled on the arguments after the program name,
      and only where none of them begins with a hyphen and the first is
      not [help]: there clap's derived parser is a match on the
      subcommand name and the number of values.  On the other command
      lines [Process.parse] returns [None], and the theorems of the
      process say nothing.  An argument is a [string] of bytes, as a
      Unix process receives it: a path may be any bytes but must not be
      empty, a text must be UTF-8.

    ** Not modelled

    - Options of the command line ([--help], [--version], [--], an
      argument that begins with a hyphen) and the [help] subcommand:
      their handling is inside clap, with texts taken from the package
      metadata, which is not among the sources.
    - Standard error: the usage message of clap, the report of an error
      returned by [main], the message of a panic.  Only the exit status
      is kept.
    - The module [commands]: declared, absent from the sources, unused.
    - The operating system behind [fs::read] and [fs::write] beyond
      absent files and locked paths: partial writes, other processes,
      path resolution.
    - Liveness of [main] itself: the program is sequential and every
      operation is a total function, so beyond the decode loop, whose
      runs are shown to halt, there is nothing to state.
    - Memory: capacity hints ([Vec::with_capacity]), clones and borrows
      have no effect on the values computed. *)

From Stdlib Require Import ZArith List Lia.
From Stdlib Require Import Strings.Byte Strings.String Strings.Ascii.
From stdpp Require Import base tactics option list numbers strings.
From coqutil Require Import Byte.

#[global] Open Scope Z_scope.

(** Equality on bytes is decidable; stdpp's [decide] and [simplify_eq]
    use the instance. *)
#[export] Instance byte_eq_dec : EqDecision byte := Byte.byte_eq_dec.

(** ** Errors and panics *)

(** [crate::Error] is [anyhow::Error]: an opaque error built from a message
    or from an [std::io::Error].  The model has one constructor per place of
    the sources that builds one, carrying the values the message formats. *)
Inductive Error : Type :=
| InvalidByte (ch : byte) (s : string)
| UnexpectedEof
| InvalidCrc (crc valid_crc : Z)
| DataNotUtf8
| BadSignature
| ChunkNotFound (chunk_type : string)
| Io (path : string).

(** A Rust panic is not an [Err]: it unwinds through every caller.  The
    model keeps the two apart and records which check failed. *)
Inductive PanicInfo : Type :=
| IndexOutOfBounds (index len : nat)
| SliceIndexOrder (start end_ : nat)
| SliceEndOutOfRange (end_ len : nat)
| DisplayError
| UnwrapOnErr (e : Error)
| AssertFailed
| AddOverflow.

(** [crate::Result<T>], extended with the panicking outcome. *)
Inductive outcome (A : Type) : Type :=
| Ok (a : A)
| Err (e : Error)
| Panic (p : PanicInfo).

Arguments Ok {A} a.
Arguments Err {A} e.
Arguments Panic {A} p.

#[export] Instance Error_eq_dec : EqDecision Error.
Proof. solve_decision. Defined.

#[export] Instance PanicInfo_eq_dec : EqDecision PanicInfo.
Proof. solve_decision. Defined.

#[export] Instance outcome_eq_dec {A} `{EqDecision A} : EqDecision (outcome A).
Proof. solve_decision. Defined.

(** The [?] operator: continue on [Ok], return the error (or keep
    unwinding) otherwise. *)
#[export] Instance outcome_ret : MRet outcome := @Ok.

#[export] Instance outcome_bind : MBind outcome := fun A B f m =>
  match m with
  | Ok a => f a
  | Err e => Err e
  | Panic p => Panic p
  end.

#[export] Instance outcome_fmap : FMap outcome := fun A B f m =>
  match m with
  | Ok a => Ok (f a)
  | Err e => Err e
  | Panic p => Panic p
  end.

(** [Result::unwrap]: an [Err] becomes a panic. *)
Definition unwrap {A} (m : outcome A) : outcome A :=
  match m with
  | Err e => Panic (UnwrapOnErr e)
  | _ => m
  end.

Definition is_Ok {A} (m : outcome A) : bool :=
  match m with Ok _ => true | _ => false end.

Definition is_Err {A} (m : outcome A) : bool :=
  match m with Err _ => true | _ => false end.

Definition is_Panic {A} (m : outcome A) : bool :=
  match m with Panic _ => true | _ => false end.

(** ** Slices *)

(** [&v[start..end_]] with Rust's two bound checks in their order:
    first [start <= end_], then [end_ <= v.len()]. *)
Definition slice {A} (v : list A) (start end_ : nat) : outcome (list A) :=
  if decide (start ≤ end_)%nat then
    if decide (end_ ≤ length v)%nat
    then Ok (take (end_ - start) (drop start v))
    else Panic (SliceEndOutOfRange end_ (length v))
  else Panic (SliceIndexOrder start end_).

(** ** Automation *)

Create HintDb pngme discriminated.
Create Rewrite HintDb len.
Create Rewrite HintDb outcome.

#[export] Hint Rewrite @length_app @length_take @length_drop @length_cons
  @length_nil @length_fmap @length_replicate : len.

(** [len_simpl] normalises list lengths and leaves linear arithmetic. *)
Ltac len_simpl := autorewrite with len in *; simpl length in *.

(** [solve_len] closes goals about lengths of appended, taken and dropped
    lists. *)
Ltac solve_len := len_simpl; lia.

(** [by_decide] proves a decidable closed proposition by evaluating its
    decision procedure. *)
Ltac by_decide := apply (bool_decide_unpack _); vm_compute; exact I.

(** [inv_outcome] splits an [Ok]/[Err]/[Panic] equation between binds. *)
Ltac case_outcome m :=
  let E := fresh "E" in destruct m eqn:E; simpl in *; simplify_eq; try done.

(** ** Lists *)

(** Unfolding a fold by rewriting keeps the step function folded; with
    a step as large as a checksum update, [simpl] would not. *)
Lemma fold_left_cons {A B} (f : A → B → A) b l a :
  fold_left f (b :: l) a = fold_left f l (f a b).
Proof. done. Qed.

Lemma fold_left_ext {A B} (f g : A → B → A) l a :
  (∀ a b, f a b = g a b) → fold_left f l a = fold_left g l a.
Proof.
  intros Hfg. revert a. induction l as [|b l IH]; intros a; [done|].
  by rewrite !fold_left_cons, Hfg, IH.
Qed.

(** ** Strings *)

Lemma string_length_app (s1 s2 : string) :
  String.length (s1 ++ s2) = (String.length s1 + String.length s2)%nat.
Proof. induction s1 as [|a s1 IH]; [done|]. simpl. by rewrite IH. Qed.

Lemma string_of_list_byte_length (bs : list byte) :
  String.length (string_of_list_byte bs) = length bs.
Proof. induction bs as [|b bs IH]; [done|]. cbn. by f_equal. Qed.

Lemma string_app_inj (s1 s2 t1 t2 : string) :
  String.length s1 = String.length s2 →
  (s1 ++ t1)%string = (s2 ++ t2)%string → s1 = s2 ∧ t1 = t2.
Proof.
  revert s2. induction s1 as [|a s1 IH]; intros [|b s2] Hlen Heq;
    simplify_eq/=; [done|].
  by destruct (IH s2) as [-> ->].
Qed.

Lemma string_of_list_byte_inj (bs bs' : list byte) :
  string_of_list_byte bs = string_of_list_byte bs' → bs = bs'.
Proof.
  intros Heq%(f_equal list_byte_of_string).
  by rewrite !list_byte_of_string_of_list_byte in Heq.
Qed.

(** ** Laws of the outcome monad *)

Section outcome_laws.
Context {A B C : Type}.
Implicit Types (m : outcome A) (f : A → outcome B) (g : B → outcome C).

Lemma bind_Ok a f : Ok a ≫= f = f a.
Proof. done. Qed.

Lemma bind_Err e f : Err e ≫= f = Err e.
Proof. done. Qed.

Lemma bind_Panic p f : Panic p ≫= f = Panic p.
Proof. done. Qed.

Lemma bind_ret_r m : m ≫= mret = m.
Proof. by destruct m. Qed.

Lemma bind_assoc m f g : (m ≫= f) ≫= g = m ≫= (λ a, f a ≫= g).
Proof. by destruct m. Qed.

Lemma bind_Ok_inv m f b :
  m ≫= f = Ok b ↔ ∃ a, m = Ok a ∧ f a = Ok b.
Proof. split; [destruct m; naive_solver | by intros (a & -> & ?)]. Qed.

Lemma bind_Err_inv m f e :
  m ≫= f = Err e ↔ m = Err e ∨ ∃ a, m = Ok a ∧ f a = Err e.
Proof. split; [destruct m; naive_solver | by intros [-> | (a & -> & ?)]]. Qed.

Lemma bind_Panic_inv m f p :
  m ≫= f = Panic p ↔ m = Panic p ∨ ∃ a, m = Ok a ∧ f a = Panic p.
Proof. split; [destruct m; naive_solver | by intros [-> | (a & -> & ?)]]. Qed.

Lemma fmap_Ok_inv (h : A → B) m b :
  h <$> m = Ok b ↔ ∃ a, m = Ok a ∧ b = h a.
Proof. split; [destruct m; naive_solver | by intros (a & -> & ->)]. Qed.

End outcome_laws.

#[export] Hint Rewrite @bind_Ok @bind_Err @bind_Panic : outcome.

(** ** Slices: functional behaviour *)

Section slice_lemmas.
Context {A : Type}.
Implicit Types (v w : list A).

Lemma slice_Ok v start end_ :
  (start ≤ end_ ≤ length v)%nat →
  slice v start end_ = Ok (take (end_ - start) (drop start v)).
Proof. intros [??]. unfold slice. by rewrite !decide_True. Qed.

Lemma slice_end_panic v start end_ :
  (start ≤ end_)%nat → (length v < end_)%nat →
  slice v start end_ = Panic (SliceEndOutOfRange end_ (length v)).
Proof.
  intros ??. unfold slice.
  rewrite decide_True, decide_False by lia. done.
Qed.

Lemma slice_Ok_inv v start end_ w :
  slice v start end_ = Ok w →
  (start ≤ end_ ≤ length v)%nat ∧ w = take (end_ - start) (drop start v).
Proof. unfold slice. repeat case_decide; naive_solver. Qed.

Lemma slice_length v start end_ w :
  slice v start end_ = Ok w → length w = (end_ - start)%nat.
Proof. intros [? ->]%slice_Ok_inv. solve_len. Qed.

Lemma slice_never_Err v start end_ e : slice v start end_ ≠ Err e.
Proof. unfold slice. by repeat case_decide. Qed.

(** Slicing the middle of [pre ++ mid ++ post]. *)
Lemma slice_app_middle (pre mid post : list A) :
  slice (pre ++ mid ++ post) (length pre) (length pre + length mid) = Ok mid.
Proof.
  rewrite slice_Ok by solve_len.
  rewrite drop_app_length.
  replace (length pre + length mid - length pre)%nat with (length mid) by lia.
  by rewrite take_app_length.
Qed.

End slice_lemmas.
