(* ===== verification/Bytes.v ===== *)
(** * Bytes: machine integers, fixed arrays and the buffered reader

    The Rust primitives the codec is written with, as executable
    definitions: [u8] tests and formatting ([U8]), the array type [[u8; 4]]
    with its checked indexing ([Arr4]), [u32] with its wrap-around and its
    big-endian byte order ([U32]), and [BufReader::read_exact] over a byte
    slice as explicit state passing ([Reader]).  Each is proved against an
    arithmetic description, and the byte order against coqutil's
    little-endian lists. *)

From Stdlib Require Import ZArith List Lia.
From Stdlib Require Import Strings.Byte Strings.String Strings.Ascii.
From stdpp Require Import base tactics option list numbers strings.
From coqutil Require Import Byte Word.LittleEndianList Z.bitblast Z.prove_Zeq_bitwise.
From S2P Require Import Prelude.

(** ** [u8] *)

Module U8.

(** [u8::is_ascii_alphabetic]: ['A'..='Z' | 'a'..='z']. *)
Definition is_ascii_alphabetic (b : byte) : bool :=
  let n := byte.unsigned b in
  (65 <=? n) && (n <=? 90) || (97 <=? n) && (n <=? 122).

(** [b & mask], the bitwise and of two [u8] values, as an integer. *)
Definition and (b : byte) (mask : Z) : Z := Z.land (byte.unsigned b) mask.

(** One upper-case hexadecimal digit, for [0 <= n < 16]. *)
Definition hex_digit (n : Z) : ascii :=
  if n <? 10 then ascii_of_N (Z.to_N (48 + n)) else ascii_of_N (Z.to_N (55 + n)).

(** [format!("{:02X}", b)]: two upper-case hexadecimal digits. *)
Definition fmt_02X (b : byte) : string :=
  let n := byte.unsigned b in
  String (hex_digit (Z.shiftr n 4)) (String (hex_digit (Z.land n 15)) EmptyString).

(** The value of a hexadecimal digit, the inverse of [hex_digit]. *)
Definition hex_value (c : ascii) : Z :=
  let n := Z.of_N (N_of_ascii c) in
  if n <? 58 then n - 48 else n - 55.

End U8.

(** ** [[u8; 4]] *)

Module Arr4.

Record t : Type := mk { b0 : byte; b1 : byte; b2 : byte; b3 : byte }.

#[global] Instance eq_dec : EqDecision t.
Proof. solve_decision. Defined.

(** [[0; 4]] *)
Definition zero : t := mk x00 x00 x00 x00.

(** [a.to_vec()], also the view of the array as a slice. *)
Definition to_vec (a : t) : list byte := [b0 a; b1 a; b2 a; b3 a].

(** The array a four-byte slice converts to: the first four bytes of
    [l], zero where [l] is shorter (used in specifications only). *)
Definition of_slice (l : list byte) : t :=
  mk (nth 0 l x00) (nth 1 l x00) (nth 2 l x00) (nth 3 l x00).

(** [a[i]]: panics when [i >= 4]. *)
Definition get (a : t) (i : nat) : outcome byte :=
  match i with
  | 0%nat => Ok (b0 a)
  | 1%nat => Ok (b1 a)
  | 2%nat => Ok (b2 a)
  | 3%nat => Ok (b3 a)
  | _ => Panic (IndexOutOfBounds i 4)
  end.

(** [a[i] = v]: panics when [i >= 4]. *)
Definition set (a : t) (i : nat) (v : byte) : outcome t :=
  match i with
  | 0%nat => Ok (mk v (b1 a) (b2 a) (b3 a))
  | 1%nat => Ok (mk (b0 a) v (b2 a) (b3 a))
  | 2%nat => Ok (mk (b0 a) (b1 a) v (b3 a))
  | 3%nat => Ok (mk (b0 a) (b1 a) (b2 a) v)
  | _ => Panic (IndexOutOfBounds i 4)
  end.

End Arr4.

(** ** [u32] *)

Module U32.

Definition modulus : Z := 2 ^ 32.

(** The values of the type. *)
Definition in_range (z : Z) : Prop := 0 ≤ z < modulus.

(** [n as u32]: truncation to the low 32 bits. *)
Definition wrap (z : Z) : Z := z mod modulus.

(** [u32::to_be_bytes]: most significant byte first. *)
Definition to_be_bytes (z : Z) : Arr4.t :=
  Arr4.mk (byte.of_Z (Z.shiftr z 24)) (byte.of_Z (Z.shiftr z 16))
          (byte.of_Z (Z.shiftr z 8)) (byte.of_Z z).

(** [u32::from_be_bytes] *)
Definition from_be_bytes (a : Arr4.t) : Z :=
  Z.lor (Z.lor (Z.lor (Z.shiftl (byte.unsigned (Arr4.b0 a)) 24)
                      (Z.shiftl (byte.unsigned (Arr4.b1 a)) 16))
               (Z.shiftl (byte.unsigned (Arr4.b2 a)) 8))
        (byte.unsigned (Arr4.b3 a)).

End U32.

(** ** [usize] *)

Module Usize.

(** [usize::BITS] on the targets the development fixes. *)
Definition BITS : Z := 64.

(** [n as usize] for a [u32]: every [u32] fits. *)
Definition from_u32 (z : Z) : nat := Z.to_nat z.

(** [a + b] on a [usize] of [bits] bits, with the overflow check of a
    build with debug assertions: "attempt to add with overflow". *)
Definition add_at (bits : Z) (a b : nat) : outcome nat :=
  if decide (Z.of_nat a + Z.of_nat b < 2 ^ bits) then Ok (a + b)%nat
  else Panic AddOverflow.

Definition add (a b : nat) : outcome nat := add_at BITS a b.

(** [a + b] in a build without the check: the sum wraps around. *)
Definition wrapping_add (a b : nat) : nat :=
  Z.to_nat ((Z.of_nat a + Z.of_nat b) mod 2 ^ BITS).

End Usize.

(** ** [BufReader<&[u8]>] *)

Module Reader.

(** The reader's state is the input it has not consumed yet. *)
Definition t : Type := list byte.

(** [BufReader::new(value)] *)
Definition new (value : list byte) : t := value.

(** [reader.read_exact(&mut buf)] for a buffer of [n] bytes: the next [n]
    bytes and the advanced reader, or the [UnexpectedEof] I/O error when
    fewer are left. *)
Definition read_exact (n : nat) (r : t) : outcome (list byte * t) :=
  if decide (n ≤ length r)%nat then Ok (take n r, drop n r)
  else Err UnexpectedEof.

(** [read_exact] into a [[u8; 4]] buffer. *)
Definition read_exact_4 (r : t) : outcome (Arr4.t * t) :=
  match r with
  | a :: b :: c :: d :: rest => Ok (Arr4.mk a b c d, rest)
  | _ => Err UnexpectedEof
  end.

End Reader.

(** [u32_range] proves that a literal, or a value bounded by hypotheses,
    is a [u32]. *)
Ltac u32_range := unfold U32.in_range, U32.modulus in *; lia.

(** ** Properties of [u8] *)

Section u8_lemmas.
Implicit Types (b : byte).

Lemma is_ascii_alphabetic_spec b :
  U8.is_ascii_alphabetic b = true ↔
  65 ≤ byte.unsigned b ≤ 90 ∨ 97 ≤ byte.unsigned b ≤ 122.
Proof.
  unfold U8.is_ascii_alphabetic.
  rewrite orb_true_iff, !andb_true_iff, !Z.leb_le. tauto.
Qed.

(** Alphabetic bytes are ASCII: below [0x80]. *)
Lemma is_ascii_alphabetic_ascii b :
  U8.is_ascii_alphabetic b = true → byte.unsigned b < 128.
Proof. rewrite is_ascii_alphabetic_spec. lia. Qed.

Lemma hex_value_digit n : 0 ≤ n < 16 → U8.hex_value (U8.hex_digit n) = n.
Proof.
  intros Hn. unfold U8.hex_value, U8.hex_digit.
  destruct (Z.ltb_spec n 10); rewrite N_ascii_embedding by lia;
    rewrite Z2N.id by lia; case_match; lia.
Qed.

Lemma hex_digit_inj n m :
  0 ≤ n < 16 → 0 ≤ m < 16 → U8.hex_digit n = U8.hex_digit m → n = m.
Proof.
  intros Hn Hm Heq%(f_equal U8.hex_value). by rewrite !hex_value_digit in Heq.
Qed.

Lemma fmt_02X_length b : String.length (U8.fmt_02X b) = 2%nat.
Proof. done. Qed.

Lemma byte_nibbles b :
  0 ≤ Z.shiftr (byte.unsigned b) 4 < 16 ∧ 0 ≤ Z.land (byte.unsigned b) 15 < 16 ∧
  byte.unsigned b = 16 * Z.shiftr (byte.unsigned b) 4 + Z.land (byte.unsigned b) 15.
Proof.
  pose proof (byte.unsigned_range b) as Hb.
  rewrite Z.shiftr_div_pow2 by lia.
  change 15 with (Z.ones 4). rewrite (Z.land_ones _ 4) by lia.
  change (2 ^ 4) with 16. change (2 ^ 8) with 256 in Hb.
  Z.div_mod_to_equations. lia.
Qed.

(** The two digits determine the byte. *)
Lemma fmt_02X_inj b b' : U8.fmt_02X b = U8.fmt_02X b' → b = b'.
Proof.
  destruct (byte_nibbles b) as (Hhi & Hlo & Hb).
  destruct (byte_nibbles b') as (Hhi' & Hlo' & Hb').
  unfold U8.fmt_02X. intros [= Hh Hl].
  apply hex_digit_inj in Hh, Hl; [|done..].
  apply byte.unsigned_inj. lia.
Qed.

End u8_lemmas.

(** ** Properties of [[u8; 4]] *)

Section arr4_lemmas.
Implicit Types (a : Arr4.t) (i : nat) (v : byte).

Lemma to_vec_length a : length (Arr4.to_vec a) = 4%nat.
Proof. done. Qed.

Lemma to_vec_inj a a' : Arr4.to_vec a = Arr4.to_vec a' → a = a'.
Proof. destruct a, a'. unfold Arr4.to_vec. naive_solver. Qed.

Lemma of_slice_to_vec a l : Arr4.of_slice (Arr4.to_vec a ++ l) = a.
Proof. by destruct a. Qed.

(** A buffer of four bytes or more starts with an array. *)
Lemma to_vec_of_slice (l : list byte) :
  (4 ≤ length l)%nat → l = Arr4.to_vec (Arr4.of_slice l) ++ drop 4 l.
Proof.
  intros Hl. by do 4 (destruct l as [|? l]; [simpl in Hl; lia|]).
Qed.

Lemma of_slice_take (l : list byte) k :
  (4 ≤ k)%nat → Arr4.of_slice (take k l) = Arr4.of_slice l.
Proof.
  intros Hk. do 4 (destruct k as [|k]; [lia|]).
  by do 4 (destruct l as [|? l]; [done|]).
Qed.

(** Taking and dropping across an array at the head of a buffer. *)
Lemma drop_to_vec a (l : list byte) : drop 4 (Arr4.to_vec a ++ l) = l.
Proof. done. Qed.

Lemma drop_to_vec_add a (l : list byte) n :
  drop (4 + n) (Arr4.to_vec a ++ l) = drop n l.
Proof. done. Qed.

Lemma take_to_vec_add a (l : list byte) n :
  take (4 + n) (Arr4.to_vec a ++ l) = Arr4.to_vec a ++ take n l.
Proof. done. Qed.

Lemma get_lookup a i v : Arr4.get a i = Ok v ↔ Arr4.to_vec a !! i = Some v.
Proof. destruct a; do 4 (destruct i as [|i]; [naive_solver|]); naive_solver. Qed.

Lemma get_panic a i :
  (4 ≤ i)%nat → Arr4.get a i = Panic (IndexOutOfBounds i 4).
Proof. intros. do 4 (destruct i as [|i]; [lia|]). done. Qed.

Lemma set_panic a i v :
  (4 ≤ i)%nat → Arr4.set a i v = Panic (IndexOutOfBounds i 4).
Proof. intros. do 4 (destruct i as [|i]; [lia|]). done. Qed.

(** Writing in range is the list update of the array's bytes. *)
Lemma set_insert a i v :
  (i < 4)%nat →
  ∃ a', Arr4.set a i v = Ok a' ∧ Arr4.to_vec a' = <[i:=v]> (Arr4.to_vec a).
Proof.
  intros. destruct a.
  do 4 (destruct i as [|i]; [eexists; split; [done|done]|]). lia.
Qed.

Lemma get_set a i v a' : Arr4.set a i v = Ok a' → Arr4.get a' i = Ok v.
Proof. do 4 (destruct i as [|i]; [naive_solver|]). done. Qed.

Lemma get_set_ne a i j v a' :
  i ≠ j → Arr4.set a i v = Ok a' → Arr4.get a' j = Arr4.get a j.
Proof.
  intros Hij Hset. do 4 (destruct i as [|i]; [simplify_eq/=;
    do 4 (destruct j as [|j]; [done|]); done|]). done.
Qed.

End arr4_lemmas.

(** ** Properties of [u32] *)

Section u32_lemmas.
Implicit Types (z : Z) (a : Arr4.t).

Lemma in_range_land z : U32.in_range z ↔ Z.land z (Z.ones 32) = z.
Proof.
  unfold U32.in_range, U32.modulus. rewrite Z.land_ones by lia.
  split; [apply Z.mod_small|]. intros <-. apply Z.mod_pos_bound. lia.
Qed.

Lemma testbit_in_range_high z i :
  U32.in_range z → 32 ≤ i → Z.testbit z i = false.
Proof. intros Hz Hi. by apply (testbit_above Hz). Qed.

Lemma byte_in_range (b : byte) : U32.in_range (byte.unsigned b).
Proof. pose proof (byte.unsigned_range b). u32_range. Qed.

(** [u32] is closed under the bit operations the checksum uses. *)
Lemma lxor_in_range z z' :
  U32.in_range z → U32.in_range z' → U32.in_range (Z.lxor z z').
Proof.
  rewrite !in_range_land. intros Hz Hz'.
  rewrite <- Hz, <- Hz' at 2. Z.bitblast.
Qed.

Lemma shiftr_in_range z n :
  0 ≤ n → U32.in_range z → U32.in_range (Z.shiftr z n).
Proof.
  unfold U32.in_range, U32.modulus. intros Hn [??].
  rewrite Z.shiftr_div_pow2 by done. split; [apply Z.div_pos; lia|].
  apply Z.div_lt_upper_bound; [lia|].
  pose proof (Z.pow_pos_nonneg 2 n). nia.
Qed.

Lemma lxor_cancel_r z z' k : Z.lxor z k = Z.lxor z' k → z = z'.
Proof.
  intros H%(f_equal (λ x, Z.lxor x k)).
  by rewrite !Z.lxor_assoc, !Z.lxor_nilpotent, !Z.lxor_0_r in H.
Qed.

Lemma lxor_cancel_l z z' k : Z.lxor k z = Z.lxor k z' → z = z'.
Proof. rewrite !(Z.lxor_comm k). apply lxor_cancel_r. Qed.

Lemma wrap_in_range z : U32.in_range (U32.wrap z).
Proof. apply Z.mod_pos_bound. done. Qed.

Lemma wrap_small z : U32.in_range z → U32.wrap z = z.
Proof. apply Z.mod_small. Qed.

(** The big-endian bytes are coqutil's little-endian split, reversed. *)
Lemma to_be_bytes_le_split z :
  Arr4.to_vec (U32.to_be_bytes z) = rev (le_split 4 z).
Proof.
  unfold Arr4.to_vec, U32.to_be_bytes, le_split. simpl.
  by rewrite !Z.shiftr_shiftr by lia.
Qed.


Lemma from_be_bytes_le_combine a :
  U32.from_be_bytes a = le_combine (rev (Arr4.to_vec a)).
Proof.
  destruct a as [a b c d].
  unfold U32.from_be_bytes, Arr4.to_vec, le_combine. simpl.
  rewrite Z.shiftl_0_l, Z.lor_0_r.
  rewrite !Z.shiftl_lor, !Z.shiftl_shiftl by lia. simpl.
  Z.bitblast.
Qed.


Lemma from_be_bytes_in_range a : U32.in_range (U32.from_be_bytes a).
Proof.
  rewrite from_be_bytes_le_combine.
  pose proof (le_combine_bound (rev (Arr4.to_vec a))) as Hb.
  by rewrite length_rev in Hb.
Qed.

Lemma testbit_byte_true (b : byte) i :
  Z.testbit (byte.unsigned b) i = true → 0 ≤ i < 8.
Proof.
  intros Hb. pose proof (byte.unsigned_range b).
  destruct (Z.lt_ge_cases i 0); [by rewrite Z.testbit_neg_r in Hb|].
  destruct (Z.lt_ge_cases i 8); [done|].
  by rewrite (testbit_above (p:=8)) in Hb.
Qed.

Ltac byte_bits :=
  repeat match goal with
  | |- context [Z.testbit (byte.unsigned ?b) ?i] =>
      let E := fresh "E" in
      destruct (Z.testbit (byte.unsigned b) i) eqn:E;
      [apply testbit_byte_true in E | clear E]
  end; simpl; first [done | exfalso; lia].

Lemma from_be_bytes_arith a :
  U32.from_be_bytes a =
  byte.unsigned (Arr4.b0 a) * 2 ^ 24 + byte.unsigned (Arr4.b1 a) * 2 ^ 16 +
  byte.unsigned (Arr4.b2 a) * 2 ^ 8 + byte.unsigned (Arr4.b3 a).
Proof.
  destruct a as [a b c d]. unfold U32.from_be_bytes. simpl.
  rewrite !Z.or_to_plus; [by rewrite !Z.shiftl_mul_pow2|..];
    Z.bitblast; subst; byte_bits.
Qed.

Lemma from_to_be_bytes z : U32.from_be_bytes (U32.to_be_bytes z) = U32.wrap z.
Proof.
  rewrite from_be_bytes_le_combine, to_be_bytes_le_split, rev_involutive.
  apply le_combine_split.
Qed.

Lemma to_from_be_bytes a : U32.to_be_bytes (U32.from_be_bytes a) = a.
Proof.
  apply to_vec_inj.
  rewrite to_be_bytes_le_split, from_be_bytes_le_combine.
  rewrite (split_le_combine' (rev (Arr4.to_vec a))) by done.
  apply rev_involutive.
Qed.

Lemma to_be_bytes_wrap z : U32.to_be_bytes (U32.wrap z) = U32.to_be_bytes z.
Proof. by rewrite <- from_to_be_bytes, to_from_be_bytes. Qed.

Lemma to_be_bytes_inj z z' :
  U32.in_range z → U32.in_range z' →
  U32.to_be_bytes z = U32.to_be_bytes z' → z = z'.
Proof.
  intros Hz Hz' Heq%(f_equal U32.from_be_bytes).
  by rewrite !from_to_be_bytes, !wrap_small in Heq.
Qed.

End u32_lemmas.

(** ** Properties of [usize] arithmetic *)

Section usize_lemmas.
Implicit Types (len : Z) (a b k : nat).

Lemma add_at_Ok bits a b :
  Z.of_nat a + Z.of_nat b < 2 ^ bits → Usize.add_at bits a b = Ok (a + b)%nat.
Proof. intros. unfold Usize.add_at. by rewrite decide_True. Qed.

Lemma add_at_Panic bits a b :
  2 ^ bits ≤ Z.of_nat a + Z.of_nat b →
  Usize.add_at bits a b = Panic AddOverflow.
Proof. intros. unfold Usize.add_at. by rewrite decide_False by lia. Qed.

Lemma add_at_never_Err bits a b : is_Err (Usize.add_at bits a b) = false.
Proof. unfold Usize.add_at. by case_decide. Qed.

(** The sums the codec computes, a [u32] plus a small constant, are far
    below [2^64]. *)
Lemma add_from_u32 len k :
  U32.in_range len → Z.of_nat k < 2 ^ 32 →
  Usize.add (Usize.from_u32 len) k = Ok (Z.to_nat len + k)%nat.
Proof.
  intros Hlen Hk. apply add_at_Ok. unfold Usize.from_u32, Usize.BITS.
  assert (2 ^ 32 + 2 ^ 32 < 2 ^ 64) by done. u32_range.
Qed.

(** Where the check does not fire the sum is the same without it. *)
Lemma add_wrapping_add a b s :
  Usize.add a b = Ok s → Usize.wrapping_add a b = s.
Proof.
  unfold Usize.add, Usize.add_at, Usize.wrapping_add.
  case_decide; intros [= <-]. rewrite Z.mod_small by lia. lia.
Qed.

(** The additions [len as usize + 8] of the decoder and [length as usize
    + 12] of the encoder never overflow on a 64-bit target, whatever the
    [u32]; on a 32-bit target the first one overflows exactly for the
    eight largest lengths, so the development's results are those of
    64-bit targets. *)
Lemma usize_add_u32 len :
  U32.in_range len →
  Usize.add (Usize.from_u32 len) 8 = Ok (Z.to_nat len + 8)%nat
  ∧ Usize.add (Usize.from_u32 len) 12 = Ok (Z.to_nat len + 12)%nat
  ∧ (Usize.add_at 32 (Usize.from_u32 len) 8 = Panic AddOverflow
     ↔ 2 ^ 32 - 8 ≤ len).
Proof.
  intros Hlen. rewrite !add_from_u32 by done. repeat split.
  - unfold Usize.add_at, Usize.from_u32. case_decide; [done|]. u32_range.
  - intros. apply add_at_Panic. unfold Usize.from_u32. u32_range.
Qed.

End usize_lemmas.

(** ** Properties of the reader *)

Section reader_lemmas.
Implicit Types (r rest bs : list byte) (n : nat).

Lemma read_exact_app bs rest :
  Reader.read_exact (length bs) (bs ++ rest) = Ok (bs, rest).
Proof.
  unfold Reader.read_exact. rewrite decide_True by solve_len.
  by rewrite take_app_length, drop_app_length.
Qed.

Lemma read_exact_eof n r :
  (length r < n)%nat → Reader.read_exact n r = Err UnexpectedEof.
Proof. intros. unfold Reader.read_exact. by rewrite decide_False by lia. Qed.

(** A successful read splits the input; nothing is lost or reordered. *)
Lemma read_exact_Ok_inv n r bs rest :
  Reader.read_exact n r = Ok (bs, rest) ↔ r = bs ++ rest ∧ length bs = n.
Proof.
  unfold Reader.read_exact. split.
  - case_decide; [|done]. intros [= <- <-].
    by rewrite take_drop, length_take_le.
  - intros [-> <-]. rewrite decide_True by solve_len.
    by rewrite take_app_length, drop_app_length.
Qed.

Lemma read_exact_never_panics n r p : Reader.read_exact n r ≠ Panic p.
Proof. unfold Reader.read_exact. by case_decide. Qed.

Lemma read_exact_4_app a rest :
  Reader.read_exact_4 (Arr4.to_vec a ++ rest) = Ok (a, rest).
Proof. by destruct a. Qed.

Lemma read_exact_4_eof r :
  (length r < 4)%nat → Reader.read_exact_4 r = Err UnexpectedEof.
Proof. intros. do 4 (destruct r as [|? r]; [done|]). simpl in *. lia. Qed.

(** The array read is the general read of four bytes. *)
Lemma read_exact_4_read_exact r :
  Reader.read_exact_4 r =
  Reader.read_exact 4 r ≫= λ '(bs, rest),
    match bs with
    | [a; b; c; d] => Ok (Arr4.mk a b c d, rest)
    | _ => Err UnexpectedEof
    end.
Proof.
  do 4 (destruct r as [|? r]; [done|]).
  unfold Reader.read_exact. by rewrite decide_True by (simpl; lia).
Qed.

Lemma read_exact_4_Ok_inv r a rest :
  Reader.read_exact_4 r = Ok (a, rest) ↔ r = Arr4.to_vec a ++ rest.
Proof.
  split; [|intros ->; apply read_exact_4_app].
  do 4 (destruct r as [|? r]; [done|]). by intros [= <- <-].
Qed.

End reader_lemmas.
