(* ===== verification/Crc32.v ===== *)
(** * Crc32: the checksum of the [crc] crate, CRC-32/ISO-HDLC

    [Chunk] computes its checksum with
    [crc::Crc::<u32>::new(&crc::CRC_32_ISO_HDLC).checksum(..)].  The crate is
    not part of the repository; this file models the path that call takes
    (the reflected, table-driven algorithm of width 32) from the crate's
    documented algorithm and the catalogue parameters of CRC-32/ISO-HDLC,
    and proves it against a bit-by-bit shift register.  [Checksum] is the
    interface the chunk codec relies on. *)

From Stdlib Require Import ZArith List Lia Strings.String.
From stdpp Require Import base tactics option list numbers.
From coqutil Require Import Byte Z.bitblast Z.prove_Zeq_bitwise.
From coqutil Require Import Word.LittleEndianList.
From S2P Require Import Prelude Bytes.

Module Crc.

(** [crc::Algorithm<u32>]: the parameters of the Rocksoft model. *)
Record Algorithm : Type := {
  width : Z;
  poly : Z;
  init : Z;
  refin : bool;
  refout : bool;
  xorout : Z;
  check : Z;
  residue : Z;
}.

(** [crc::CRC_32_ISO_HDLC] *)
Definition CRC_32_ISO_HDLC : Algorithm := {|
  width := 32;
  poly := 0x04c11db7;
  init := 0xffffffff;
  refin := true;
  refout := true;
  xorout := 0xffffffff;
  check := 0xcbf43926;
  residue := 0xdebb20e3;
|}.

(** [u32::reverse_bits] *)
Definition reverse_bits (v : Z) : Z :=
  fold_right
    (λ i acc, if Z.testbit v (Z.of_nat i)
              then Z.lor acc (Z.shiftl 1 (31 - Z.of_nat i)) else acc)
    0 (seq 0 32).

(** One shift of the reflected register:
    [(value >> 1) ^ ((value & 1) * poly)]. *)
Definition step (poly value : Z) : Z :=
  Z.lxor (Z.shiftr value 1) (Z.land value 1 * poly).

(** The table generator's inner loop: eight shifts. *)
Definition crc32_reflected (poly value : Z) : Z :=
  Nat.iter 8 (step poly) value.

(** The 256-entry lookup table of a reflected algorithm. *)
Definition crc32_table (width poly : Z) : list Z :=
  let poly := Z.shiftr (reverse_bits poly) (32 - width) in
  (λ i, crc32_reflected poly (Z.of_nat i)) <$> seq 0 256.

(** [crc::Crc<u32>] *)
Record t : Type := mk { algorithm : Algorithm; table : list Z }.

(** [Crc::<u32>::new] *)
Definition new (alg : Algorithm) : t :=
  mk alg (crc32_table (width alg) (poly alg)).

(** The initial register of a reflected algorithm. *)
Definition init_register (crc : t) (initial : Z) : Z :=
  Z.shiftr (reverse_bits initial) (32 - width (algorithm crc)).

(** [table[(index & 0xFF) as usize]] *)
Definition table_entry (crc : t) (index : Z) : Z :=
  nth (Z.to_nat (Z.land index 0xFF)) (table crc) 0.

(** The update loop over the input, one table lookup per byte. *)
Definition update (crc : t) (c : Z) (bytes : list byte) : Z :=
  fold_left
    (λ c b, Z.lxor (table_entry crc (Z.lxor c (byte.unsigned b))) (Z.shiftr c 8))
    bytes c.

Definition finalize (crc : t) (c : Z) : Z :=
  let alg := algorithm crc in
  let c := if xorb (refin alg) (refout alg) then reverse_bits c else c in
  let c := if negb (refout alg) then Z.shiftr c (32 - width alg) else c in
  Z.lxor c (xorout alg).

(** [Crc::<u32>::checksum] *)
Definition checksum (crc : t) (bytes : list byte) : Z :=
  finalize crc (update crc (init_register crc (init (algorithm crc))) bytes).

(** The reference: the same register shifted one bit at a time, with the
    reflected polynomial [0xEDB88320] written out. *)
Definition update_bitwise (c : Z) (b : byte) : Z :=
  crc32_reflected 0xEDB88320 (Z.lxor c (byte.unsigned b)).

Definition checksum_bitwise (bytes : list byte) : Z :=
  Z.lxor (fold_left update_bitwise bytes 0xFFFFFFFF) 0xFFFFFFFF.

End Crc.

#[global] Arguments Crc.step : simpl never.
#[global] Arguments Crc.crc32_reflected : simpl never.
#[global] Arguments Crc.crc32_table : simpl never.
#[global] Arguments Crc.update_bitwise : simpl never.
#[global] Arguments Crc.checksum : simpl never.

(** The checksum the codec uses. *)
Abbreviation crc32 := (Crc.checksum (Crc.new Crc.CRC_32_ISO_HDLC)).

(** What the chunk codec needs of a checksum: a [u32] result, and that no
    two inputs of the same length that differ only inside a window of at
    most four bytes (a burst of at most 32 bits) collide. *)
Class Checksum (h : list byte → Z) : Prop := {
  checksum_in_range bs : U32.in_range (h bs);
  checksum_detects_burst pre w w' post :
    length w = length w' → (length w ≤ 4)%nat → w ≠ w' →
    h (pre ++ w ++ post) ≠ h (pre ++ w' ++ post);
}.

(** A single corrupted byte is a burst. *)
Lemma checksum_detects_byte h `{!Checksum h} pre b b' post :
  b ≠ b' → h (pre ++ b :: post) ≠ h (pre ++ b' :: post).
Proof.
  intros Hne. apply (checksum_detects_burst pre [b] [b'] post);
    [done|simpl; lia|congruence].
Qed.

(** ** The shift register is linear over xor *)

Section step.
Implicit Types (p v x y h c : Z) (n : nat) (b : byte).

Lemma land_1 v : Z.land v 1 = Z.b2z (Z.testbit v 0).
Proof.
  change 1 with (Z.ones 1). rewrite Z.land_ones, Z.bit0_mod by lia.
  change (2 ^ 1) with 2. pose proof (Z.mod_pos_bound v 2).
  destruct (Z.eqb_spec (v mod 2) 1) as [->|]; simpl; lia.
Qed.

Lemma step_alt p v :
  Crc.step p v = Z.lxor (Z.shiftr v 1) (if Z.testbit v 0 then p else 0).
Proof.
  unfold Crc.step. rewrite land_1.
  by destruct (Z.testbit v 0); [rewrite Z.mul_1_l|].
Qed.

Lemma step_lxor p x y :
  Crc.step p (Z.lxor x y) = Z.lxor (Crc.step p x) (Crc.step p y).
Proof.
  rewrite !step_alt, Z.lxor_spec.
  destruct (Z.testbit x 0), (Z.testbit y 0); simpl; Z.bitblast.
Qed.

Lemma step_shiftl p h j :
  0 ≤ j → Crc.step p (Z.shiftl h (j + 1)) = Z.shiftl h j.
Proof.
  intros. rewrite step_alt, Z.shiftl_spec_low, Z.lxor_0_r by lia. Z.bitblast.
Qed.

Lemma iter_step_lxor p n x y :
  Nat.iter n (Crc.step p) (Z.lxor x y) =
  Z.lxor (Nat.iter n (Crc.step p) x) (Nat.iter n (Crc.step p) y).
Proof.
  induction n as [|n IH]; [done|].
  by rewrite !Nat.iter_succ, IH, step_lxor.
Qed.

(** Shifting [h] left by [n] and stepping [n] times gives [h] back: the
    low bits the steps test are all zero. *)
Lemma iter_step_shiftl p n h :
  Nat.iter n (Crc.step p) (Z.shiftl h (Z.of_nat n)) = h.
Proof.
  induction n as [|n IH]; [apply Z.shiftl_0_r|].
  rewrite Nat.iter_succ_r, Nat2Z.inj_succ, <- Z.add_1_r.
  by rewrite step_shiftl by lia.
Qed.

Lemma iter_step_shiftl_8 p h :
  Nat.iter 8 (Crc.step p) (Z.shiftl h 8) = h.
Proof. exact (iter_step_shiftl p 8 h). Qed.

Lemma split_low_byte v :
  v = Z.lxor (Z.land v 0xFF) (Z.shiftl (Z.shiftr v 8) 8).
Proof. change 0xFF with (Z.ones 8). Z.bitblast. Qed.

(** The identity behind the table: eight steps of [v] are the table
    entry of its low byte, xor its high part. *)
Lemma crc32_reflected_split p v :
  Crc.crc32_reflected p v =
  Z.lxor (Crc.crc32_reflected p (Z.land v 0xFF)) (Z.shiftr v 8).
Proof.
  unfold Crc.crc32_reflected. rewrite (split_low_byte v) at 1.
  by rewrite iter_step_lxor, iter_step_shiftl_8.
Qed.

Lemma land_byte_range v : 0 ≤ Z.land v 0xFF < 256.
Proof.
  change 0xFF with (Z.ones 8). rewrite Z.land_ones by lia.
  apply Z.mod_pos_bound. lia.
Qed.

Lemma lxor_byte_shiftr c b :
  Z.shiftr (Z.lxor c (byte.unsigned b)) 8 = Z.shiftr c 8.
Proof.
  Z.bitblast.
  by rewrite (testbit_above (byte.unsigned_range b)), xorb_false_r by lia.
Qed.

End step.

(** ** The table-driven update is the bitwise one *)

Section table.
Implicit Types (c index : Z) (b : byte) (bs : list byte).

Lemma poly_reflected :
  Z.shiftr (Crc.reverse_bits (Crc.poly Crc.CRC_32_ISO_HDLC)) (32 - 32)
  = 0xEDB88320.
Proof. by vm_compute. Qed.

Lemma table_entry_reflected index :
  Crc.table_entry (Crc.new Crc.CRC_32_ISO_HDLC) index =
  Crc.crc32_reflected 0xEDB88320 (Z.land index 0xFF).
Proof.
  pose proof (land_byte_range index).
  unfold Crc.table_entry.
  change (Crc.table (Crc.new Crc.CRC_32_ISO_HDLC)) with
    ((λ i, Crc.crc32_reflected
             (Z.shiftr (Crc.reverse_bits (Crc.poly Crc.CRC_32_ISO_HDLC)) (32 - 32))
             (Z.of_nat i)) <$> seq 0 256).
  rewrite poly_reflected. apply nth_lookup_Some with (d:=0).
  rewrite list_lookup_fmap, lookup_seq_lt by lia.
  simpl. f_equal. f_equal. lia.
Qed.

Lemma update_step_bitwise c b :
  Z.lxor (Crc.table_entry (Crc.new Crc.CRC_32_ISO_HDLC)
            (Z.lxor c (byte.unsigned b)))
         (Z.shiftr c 8) = Crc.update_bitwise c b.
Proof.
  rewrite table_entry_reflected. unfold Crc.update_bitwise.
  by rewrite (crc32_reflected_split _ (Z.lxor c _)), lxor_byte_shiftr.
Qed.

Lemma update_bitwise_fold c bs :
  Crc.update (Crc.new Crc.CRC_32_ISO_HDLC) c bs
  = fold_left Crc.update_bitwise bs c.
Proof. apply fold_left_ext. intros. apply update_step_bitwise. Qed.

Lemma init_register_iso_hdlc :
  let crc := Crc.new Crc.CRC_32_ISO_HDLC in
  Crc.init_register crc (Crc.init (Crc.algorithm crc)) = 0xFFFFFFFF.
Proof. by vm_compute. Qed.

Lemma finalize_iso_hdlc c :
  Crc.finalize (Crc.new Crc.CRC_32_ISO_HDLC) c = Z.lxor c 0xFFFFFFFF.
Proof. reflexivity. Qed.

End table.

(** ** Range and injectivity of the register *)

Section register.
Implicit Types (p v c : Z) (n : nat) (b : byte) (bs w : list byte).

Lemma step_in_range p v :
  U32.in_range p → U32.in_range v → U32.in_range (Crc.step p v).
Proof.
  intros Hp Hv. rewrite step_alt.
  apply lxor_in_range; [by apply shiftr_in_range|].
  destruct (Z.testbit v 0); [done|u32_range].
Qed.

Lemma iter_step_in_range p n v :
  U32.in_range p → U32.in_range v → U32.in_range (Nat.iter n (Crc.step p) v).
Proof.
  intros ??. induction n; [done|]. rewrite Nat.iter_succ.
  by apply step_in_range.
Qed.

Lemma update_bitwise_unfold c b :
  Crc.update_bitwise c b =
  Nat.iter 8 (Crc.step 0xEDB88320) (Z.lxor c (byte.unsigned b)).
Proof. reflexivity. Qed.

Lemma update_bitwise_in_range c b :
  U32.in_range c → U32.in_range (Crc.update_bitwise c b).
Proof.
  intros. rewrite update_bitwise_unfold.
  apply iter_step_in_range; [u32_range|].
  apply lxor_in_range; [done|apply byte_in_range].
Qed.

Lemma fold_update_in_range bs c :
  U32.in_range c → U32.in_range (fold_left Crc.update_bitwise bs c).
Proof.
  revert c. induction bs as [|b bs IH]; intros c Hc; [done|].
  rewrite fold_left_cons. by apply IH, update_bitwise_in_range.
Qed.

(** Bit 31 of the stepped register is the bit that was shifted out: the
    reflected polynomial has bit 31 set. *)
Lemma step_low_bit p v :
  Z.testbit p 31 = true → U32.in_range v →
  Z.testbit (Crc.step p v) 31 = Z.testbit v 0.
Proof.
  intros Hp Hv. rewrite step_alt, Z.lxor_spec, Z.shiftr_spec by lia.
  rewrite (testbit_in_range_high v) by (done || lia).
  destruct (Z.testbit v 0); [by rewrite Hp|by rewrite Z.testbit_0_l].
Qed.

Lemma step_inj p v v' :
  Z.testbit p 31 = true → U32.in_range v → U32.in_range v' →
  Crc.step p v = Crc.step p v' → v = v'.
Proof.
  intros Hp Hv Hv' Heq.
  assert (Z.testbit v 0 = Z.testbit v' 0) as H0.
  { by rewrite <- !(step_low_bit p), Heq. }
  rewrite !step_alt, H0 in Heq. apply lxor_cancel_r in Heq.
  apply Z.bits_inj'. intros i Hi.
  destruct (decide (i = 0)) as [->|]; [done|].
  replace i with (i - 1 + 1) by lia.
  rewrite <- !Z.shiftr_spec by lia. by rewrite Heq.
Qed.

Lemma iter_step_inj p n v v' :
  Z.testbit p 31 = true → U32.in_range p →
  U32.in_range v → U32.in_range v' →
  Nat.iter n (Crc.step p) v = Nat.iter n (Crc.step p) v' → v = v'.
Proof.
  intros Hp Hr Hv Hv'. induction n as [|n IH]; [done|].
  rewrite !Nat.iter_succ.
  intros Heq%step_inj; [auto|done|by apply iter_step_in_range..].
Qed.

(** Feeding [bs] is stepping [8 * length bs] times from the register xor
    the bytes read as a little-endian number. *)
Lemma le_combine_cons_lxor b bs :
  le_combine (b :: bs) = Z.lxor (byte.unsigned b) (Z.shiftl (le_combine bs) 8).
Proof.
  change (le_combine (b :: bs)) with
    (Z.lor (byte.unsigned b) (Z.shiftl (le_combine bs) 8)).
  symmetry. apply Z.lxor_lor. Z.bitblast.
  destruct (Z.lt_ge_cases i 8).
  - by rewrite (Z.testbit_neg_r _ l), andb_false_r by lia.
  - by rewrite (testbit_above (byte.unsigned_range b)) by lia.
Qed.

Lemma fold_update_le_combine bs c :
  fold_left Crc.update_bitwise bs c =
  Nat.iter (8 * length bs) (Crc.step 0xEDB88320) (Z.lxor c (le_combine bs)).
Proof.
  revert c. induction bs as [|b bs IH]; intros c.
  { by rewrite le_combine_nil, Z.lxor_0_r. }
  rewrite fold_left_cons, IH, length_cons.
  replace (8 * S (length bs))%nat with (8 * length bs + 8)%nat by lia.
  rewrite Nat.iter_add. f_equal.
  rewrite le_combine_cons_lxor, <- Z.lxor_assoc.
  rewrite (iter_step_lxor _ 8 (Z.lxor c (byte.unsigned b))).
  by rewrite iter_step_shiftl_8, update_bitwise_unfold.
Qed.

Lemma le_combine_in_range w : (length w ≤ 4)%nat → U32.in_range (le_combine w).
Proof.
  intros Hw. pose proof (le_combine_bound w) as [? Hlt]. split; [done|].
  eapply Z.lt_le_trans; [done|]. apply Z.pow_le_mono_r; lia.
Qed.

(** Two windows of the same length, at most four bytes, leave different
    registers. *)
Lemma fold_update_window_inj w w' c :
  U32.in_range c → length w = length w' → (length w ≤ 4)%nat →
  fold_left Crc.update_bitwise w c = fold_left Crc.update_bitwise w' c →
  w = w'.
Proof.
  intros Hc Hlen Hw. rewrite !fold_update_le_combine, <- Hlen.
  intros Heq%iter_step_inj; [|done|u32_range|..].
  - apply lxor_cancel_l in Heq. by apply le_combine_inj.
  - apply lxor_in_range; [done|by apply le_combine_in_range].
  - apply lxor_in_range; [done|apply le_combine_in_range; lia].
Qed.

Lemma update_bitwise_inj c c' b :
  U32.in_range c → U32.in_range c' →
  Crc.update_bitwise c b = Crc.update_bitwise c' b → c = c'.
Proof.
  intros Hc Hc'. rewrite !update_bitwise_unfold.
  intros Heq%iter_step_inj; [by apply lxor_cancel_r in Heq|done|u32_range|..];
    (apply lxor_in_range; [done|apply byte_in_range]).
Qed.

(** Bytes fed after a difference never merge two registers again. *)
Lemma fold_update_inj bs c c' :
  U32.in_range c → U32.in_range c' →
  fold_left Crc.update_bitwise bs c = fold_left Crc.update_bitwise bs c' →
  c = c'.
Proof.
  revert c c'. induction bs as [|b bs IH]; intros c c' Hc Hc'; [done|].
  rewrite !fold_left_cons. intros Heq%IH; [|by apply update_bitwise_in_range..].
  by apply update_bitwise_inj in Heq.
Qed.

End register.

(** ** The checksum *)

Section checksum.
Implicit Types (bs pre post w : list byte).

(** The table-driven checksum of the crate computes the bitwise
    reference. *)
Lemma checksum_table_bitwise bs : crc32 bs = Crc.checksum_bitwise bs.
Proof.
  unfold Crc.checksum, Crc.checksum_bitwise.
  by rewrite finalize_iso_hdlc, update_bitwise_fold, init_register_iso_hdlc.
Qed.

Lemma checksum_bitwise_in_range bs : U32.in_range (Crc.checksum_bitwise bs).
Proof.
  apply lxor_in_range; [|u32_range]. apply fold_update_in_range. u32_range.
Qed.

Lemma checksum_bitwise_detects_burst pre w w' post :
  length w = length w' → (length w ≤ 4)%nat → w ≠ w' →
  Crc.checksum_bitwise (pre ++ w ++ post)
  ≠ Crc.checksum_bitwise (pre ++ w' ++ post).
Proof.
  intros Hlen Hw Hne Heq. apply Hne. unfold Crc.checksum_bitwise in Heq.
  apply lxor_cancel_r in Heq. rewrite !fold_left_app in Heq.
  assert (U32.in_range (fold_left Crc.update_bitwise pre 0xFFFFFFFF)) as Hpre.
  { apply fold_update_in_range. u32_range. }
  apply fold_update_inj in Heq; [|by apply fold_update_in_range..].
  by apply fold_update_window_inj in Heq.
Qed.

#[global] Instance crc32_checksum : Checksum crc32.
Proof.
  split.
  - intros bs. rewrite checksum_table_bitwise.
    apply checksum_bitwise_in_range.
  - intros pre w w' post ???. rewrite !checksum_table_bitwise.
    by apply checksum_bitwise_detects_burst.
Qed.

End checksum.

(** ** Known answers *)

(** The catalogue's check value: the checksum of the ASCII digits
    ["123456789"]. *)
Example crc32_check_value :
  crc32 (list_byte_of_string "123456789") = Crc.check Crc.CRC_32_ISO_HDLC.
Proof. by vm_compute. Qed.

Example crc32_empty : crc32 [] = 0.
Proof. by vm_compute. Qed.
