(* ===== verification/Utf8.v ===== *)
(** * Utf8: the UTF-8 validation behind [from_utf8]

    [ChunkType]'s [Display] calls [std::str::from_utf8] and
    [Chunk::data_as_string] calls [String::from_utf8].  Both run the
    standard library's validator, modelled here after its byte-class
    table and its range checks on the second byte, and proved equivalent
    to the grammar of well-formed UTF-8 of the Unicode standard
    (table 3-7).  A Rust [String] is modelled as a Rocq [string] holding
    the UTF-8 bytes. *)

From Stdlib Require Import ZArith List Lia.
From Stdlib Require Import Strings.Byte Strings.String Strings.Ascii.
From stdpp Require Import base tactics option list numbers.
From coqutil Require Import Byte.
From S2P Require Import Prelude Bytes.

Module Utf8.

(** [UTF8_CHAR_WIDTH]: the length of the sequence a first byte starts,
    0 for a byte that starts none. *)
Definition utf8_char_width (b : byte) : nat :=
  let n := byte.unsigned b in
  if n <? 0x80 then 1
  else if n <? 0xC2 then 0
  else if n <? 0xE0 then 2
  else if n <? 0xF0 then 3
  else if n <? 0xF5 then 4
  else 0.

(** A continuation byte: [0x80..=0xBF]. *)
Definition is_cont (b : byte) : bool :=
  let n := byte.unsigned b in (0x80 <=? n) && (n <=? 0xBF).

(** The (first, second) pairs allowed in a three-byte sequence. *)
Definition second_of_3 (first next : byte) : bool :=
  let f := byte.unsigned first in
  let n := byte.unsigned next in
  (f =? 0xE0) && (0xA0 <=? n) && (n <=? 0xBF)
  || (0xE1 <=? f) && (f <=? 0xEC) && (0x80 <=? n) && (n <=? 0xBF)
  || (f =? 0xED) && (0x80 <=? n) && (n <=? 0x9F)
  || (0xEE <=? f) && (f <=? 0xEF) && (0x80 <=? n) && (n <=? 0xBF).

(** The (first, second) pairs allowed in a four-byte sequence. *)
Definition second_of_4 (first next : byte) : bool :=
  let f := byte.unsigned first in
  let n := byte.unsigned next in
  (f =? 0xF0) && (0x90 <=? n) && (n <=? 0xBF)
  || (0xF1 <=? f) && (f <=? 0xF3) && (0x80 <=? n) && (n <=? 0xBF)
  || (f =? 0xF4) && (0x80 <=? n) && (n <=? 0x8F).

(** [run_utf8_validation]: [true] when the whole input is well formed. *)
Fixpoint run_utf8_validation (v : list byte) : bool :=
  match v with
  | [] => true
  | first :: rest =>
      match utf8_char_width first with
      | 1%nat => run_utf8_validation rest
      | 2%nat =>
          match rest with
          | b1 :: rest => is_cont b1 && run_utf8_validation rest
          | _ => false
          end
      | 3%nat =>
          match rest with
          | b1 :: b2 :: rest =>
              second_of_3 first b1 && is_cont b2 && run_utf8_validation rest
          | _ => false
          end
      | 4%nat =>
          match rest with
          | b1 :: b2 :: b3 :: rest =>
              second_of_4 first b1 && is_cont b2 && is_cont b3
              && run_utf8_validation rest
          | _ => false
          end
      | _ => false
      end
  end.

(** [std::str::from_utf8] and [String::from_utf8]: the bytes as text, or
    nothing when they are not UTF-8. *)
Definition from_utf8 (v : list byte) : option string :=
  if run_utf8_validation v then Some (string_of_list_byte v) else None.

(** [str::as_bytes] *)
Definition as_bytes (s : string) : list byte := list_byte_of_string s.

End Utf8.

(** ** The grammar of well-formed UTF-8 (Unicode, table 3-7) *)

Definition in_bytes (lo hi : Z) (b : byte) : Prop :=
  lo ≤ byte.unsigned b ≤ hi.

Inductive well_formed_seq : list byte → Prop :=
| wf_1 b : in_bytes 0x00 0x7F b → well_formed_seq [b]
| wf_2 b1 b2 :
    in_bytes 0xC2 0xDF b1 → in_bytes 0x80 0xBF b2 → well_formed_seq [b1; b2]
| wf_3_E0 b1 b2 b3 :
    in_bytes 0xE0 0xE0 b1 → in_bytes 0xA0 0xBF b2 → in_bytes 0x80 0xBF b3 →
    well_formed_seq [b1; b2; b3]
| wf_3_E1 b1 b2 b3 :
    in_bytes 0xE1 0xEC b1 → in_bytes 0x80 0xBF b2 → in_bytes 0x80 0xBF b3 →
    well_formed_seq [b1; b2; b3]
| wf_3_ED b1 b2 b3 :
    in_bytes 0xED 0xED b1 → in_bytes 0x80 0x9F b2 → in_bytes 0x80 0xBF b3 →
    well_formed_seq [b1; b2; b3]
| wf_3_EE b1 b2 b3 :
    in_bytes 0xEE 0xEF b1 → in_bytes 0x80 0xBF b2 → in_bytes 0x80 0xBF b3 →
    well_formed_seq [b1; b2; b3]
| wf_4_F0 b1 b2 b3 b4 :
    in_bytes 0xF0 0xF0 b1 → in_bytes 0x90 0xBF b2 → in_bytes 0x80 0xBF b3 →
    in_bytes 0x80 0xBF b4 → well_formed_seq [b1; b2; b3; b4]
| wf_4_F1 b1 b2 b3 b4 :
    in_bytes 0xF1 0xF3 b1 → in_bytes 0x80 0xBF b2 → in_bytes 0x80 0xBF b3 →
    in_bytes 0x80 0xBF b4 → well_formed_seq [b1; b2; b3; b4]
| wf_4_F4 b1 b2 b3 b4 :
    in_bytes 0xF4 0xF4 b1 → in_bytes 0x80 0x8F b2 → in_bytes 0x80 0xBF b3 →
    in_bytes 0x80 0xBF b4 → well_formed_seq [b1; b2; b3; b4].

(** Well-formed text is a concatenation of well-formed sequences. *)
Inductive well_formed : list byte → Prop :=
| wf_nil : well_formed []
| wf_app s v : well_formed_seq s → well_formed v → well_formed (s ++ v).

(** ** Automation for byte ranges *)

(** [utf8_unfold] exposes the comparisons of the validator's tests and of
    the grammar's ranges; [lia] then decides them, boolean or not. *)
Ltac utf8_unfold :=
  unfold in_bytes, Utf8.utf8_char_width, Utf8.is_cont, Utf8.second_of_3,
    Utf8.second_of_4 in *; cbv zeta in *.

Ltac utf8_lia := utf8_unfold; repeat case_match; lia.

Section utf8_lemmas.
Implicit Types (b : byte) (v w s : list byte).

Lemma width_1 b : Utf8.utf8_char_width b = 1%nat ↔ in_bytes 0x00 0x7F b.
Proof. pose proof (byte.unsigned_range b). utf8_lia. Qed.

Lemma width_2 b : Utf8.utf8_char_width b = 2%nat ↔ in_bytes 0xC2 0xDF b.
Proof. utf8_lia. Qed.

Lemma width_3 b : Utf8.utf8_char_width b = 3%nat ↔ in_bytes 0xE0 0xEF b.
Proof. utf8_lia. Qed.

Lemma width_4 b : Utf8.utf8_char_width b = 4%nat ↔ in_bytes 0xF0 0xF4 b.
Proof. utf8_lia. Qed.

Lemma is_cont_spec b : Utf8.is_cont b = true ↔ in_bytes 0x80 0xBF b.
Proof. utf8_lia. Qed.

(** One step of the validator, as the grammar sees it. *)
Lemma validation_cons b v :
  Utf8.run_utf8_validation (b :: v) = true ↔
  ∃ s w, b :: v = s ++ w ∧ well_formed_seq s
         ∧ Utf8.run_utf8_validation w = true.
Proof.
  split.
  - cbn [Utf8.run_utf8_validation].
    destruct (Utf8.utf8_char_width b) as [|[|[|[|[|?]]]]] eqn:Hw; [done|..|done].
    + apply width_1 in Hw. intros ?. exists [b], v. by split; [|split; [apply wf_1|]].
    + apply width_2 in Hw. destruct v as [|b1 v]; [done|].
      intros [?%is_cont_spec ?]%andb_true_iff.
      exists [b; b1], v. by split; [|split; [apply wf_2|]].
    + apply width_3 in Hw. destruct v as [|b1 [|b2 v]]; [done..|].
      intros [[H3 ?%is_cont_spec]%andb_true_iff ?]%andb_true_iff.
      exists [b; b1; b2], v. split; [done|]. split; [|done].
      assert (byte.unsigned b = 0xE0 ∨ 0xE1 ≤ byte.unsigned b ≤ 0xEC
              ∨ byte.unsigned b = 0xED ∨ 0xEE ≤ byte.unsigned b ≤ 0xEF)
        as [?|[?|[?|?]]] by utf8_lia;
        [apply wf_3_E0|apply wf_3_E1|apply wf_3_ED|apply wf_3_EE];
        try done; utf8_lia.
    + apply width_4 in Hw. destruct v as [|b1 [|b2 [|b3 v]]]; [done..|].
      intros [[[H4 ?%is_cont_spec]%andb_true_iff ?%is_cont_spec]%andb_true_iff
                ?]%andb_true_iff.
      exists [b; b1; b2; b3], v. split; [done|]. split; [|done].
      assert (byte.unsigned b = 0xF0 ∨ 0xF1 ≤ byte.unsigned b ≤ 0xF3
              ∨ byte.unsigned b = 0xF4) as [?|[?|?]] by utf8_lia;
        [apply wf_4_F0|apply wf_4_F1|apply wf_4_F4]; try done; utf8_lia.
  - intros (s & w & Heq & Hs & Hw).
    destruct Hs; simplify_eq/=.
    all: repeat match goal with
         | H : in_bytes _ _ ?x |- context [Utf8.utf8_char_width ?x] =>
             first [rewrite (proj2 (width_1 x)) by utf8_lia
                   |rewrite (proj2 (width_2 x)) by utf8_lia
                   |rewrite (proj2 (width_3 x)) by utf8_lia
                   |rewrite (proj2 (width_4 x)) by utf8_lia]
         end.
    all: rewrite ?Hw, ?andb_true_r, ?andb_true_iff, ?is_cont_spec;
      repeat split; try done; utf8_lia.
Qed.

Lemma well_formed_seq_length s : well_formed_seq s → (0 < length s)%nat.
Proof. destruct 1; simpl; lia. Qed.

(** The validator accepts exactly the well-formed byte sequences. *)
Lemma validation_sound v : Utf8.run_utf8_validation v = true → well_formed v.
Proof.
  assert (∀ n v, (length v ≤ n)%nat →
                 Utf8.run_utf8_validation v = true → well_formed v) as Hind;
    [|by apply (Hind (length v))].
  clear v. induction n as [|n IH]; intros [|b v] Hn Hv;
    [constructor|simpl in Hn; lia|constructor|].
  apply validation_cons in Hv as (s & w & Heq & Hs & Hw).
  pose proof (well_formed_seq_length s Hs).
  pose proof (f_equal length Heq) as Hlen. rewrite Heq.
  constructor; [done|]. apply IH; [|done]. solve_len.
Qed.

Lemma validation_complete v : well_formed v → Utf8.run_utf8_validation v = true.
Proof.
  induction 1 as [|s v Hs Hv IH]; [done|].
  pose proof (well_formed_seq_length s Hs).
  destruct s as [|b s]; [simpl in *; lia|].
  apply validation_cons. by exists (b :: s), v.
Qed.

Lemma well_formed_app v w : well_formed v → well_formed w → well_formed (v ++ w).
Proof.
  induction 1 as [|s v Hs Hv IH]; [done|]. intros Hw.
  rewrite <- app_assoc. constructor; auto.
Qed.

Lemma validation_app v w :
  Utf8.run_utf8_validation v = true → Utf8.run_utf8_validation w = true →
  Utf8.run_utf8_validation (v ++ w) = true.
Proof.
  intros Hv%validation_sound Hw%validation_sound.
  by apply validation_complete, well_formed_app.
Qed.

(** ASCII text is UTF-8. *)
Lemma validation_ascii v :
  Forall (in_bytes 0x00 0x7F) v → Utf8.run_utf8_validation v = true.
Proof.
  induction 1 as [|b v Hb Hv IH]; [done|].
  cbn [Utf8.run_utf8_validation]. by rewrite (proj2 (width_1 b)).
Qed.

Lemma from_utf8_Some v (txt : string) :
  Utf8.from_utf8 v = Some txt ↔
  Utf8.run_utf8_validation v = true ∧ txt = string_of_list_byte v.
Proof. unfold Utf8.from_utf8. destruct (Utf8.run_utf8_validation v); naive_solver. Qed.

(** Decoding changes no byte: the text holds the input. *)
Lemma from_utf8_as_bytes v (txt : string) :
  Utf8.from_utf8 v = Some txt → Utf8.as_bytes txt = v.
Proof.
  intros [_ ->]%from_utf8_Some. apply list_byte_of_string_of_list_byte.
Qed.

Lemma from_utf8_None v :
  Utf8.from_utf8 v = None ↔ ¬ well_formed v.
Proof.
  unfold Utf8.from_utf8. destruct (Utf8.run_utf8_validation v) eqn:Hv.
  - apply validation_sound in Hv. naive_solver.
  - split; [|done]. intros _ Hwf%validation_complete. congruence.
Qed.

(** C39: [from_utf8] accepts exactly the byte strings that are
    well-formed UTF-8 by the grammar of the Unicode standard (table 3-7:
    no overlong forms, no surrogates, nothing above U+10FFFF), and the
    text it returns holds the bytes of its input, unchanged. *)
Theorem from_utf8_well_formed v :
  (is_Some (Utf8.from_utf8 v) ↔ well_formed v)
  ∧ ∀ txt : string, Utf8.from_utf8 v = Some txt → Utf8.as_bytes txt = v.
Proof.
  split; [|apply from_utf8_as_bytes]. unfold Utf8.from_utf8.
  destruct (Utf8.run_utf8_validation v) eqn:Hv.
  - apply validation_sound in Hv. by split.
  - split; [by intros []|]. intros Hwf%validation_complete. congruence.
Qed.

End utf8_lemmas.
