(* ===== verification/ChunkType.v ===== *)
(** * ChunkType: the four-byte chunk type tag ([src/chunk_type.rs])

    [ChunkType.t] is the struct; its operations are the methods and trait
    implementations of the source under their names: [bytes], the four
    property-bit tests, [try_from] ([TryFrom<[u8; 4]>]), [from_str]
    ([FromStr], with its loop as [from_str_loop]), [fmt] ([Display]) and
    [to_string].  The theorems give [from_str] on every input (accepted,
    rejected with the offending byte, or panicking on the fifth letter),
    the meaning of the property bits on letters, and the round trip
    between [from_str] and [to_string]. *)

From Stdlib Require Import ZArith List Lia.
From Stdlib Require Import Strings.Byte Strings.String Strings.Ascii.
From stdpp Require Import base tactics option list numbers.
From coqutil Require Import Byte.
From S2P Require Import Prelude Bytes Utf8.

Module ChunkType.

(** [pub struct ChunkType { bytes: [u8; 4] }]; the field is [bytes_],
    since the method [bytes()] has the name. *)
Record t : Type := mk { bytes_ : Arr4.t }.

#[global] Instance eq_dec : EqDecision t.
Proof. solve_decision. Defined.

Definition bytes (self : t) : Arr4.t := bytes_ self.

Definition is_reserved_bit_valid (self : t) : bool :=
  U8.and (Arr4.b2 (bytes_ self)) 0x20 =? 0.

Definition is_valid (self : t) : bool := is_reserved_bit_valid self.

Definition is_critical (self : t) : bool :=
  U8.and (Arr4.b0 (bytes_ self)) 0x20 =? 0.

Definition is_public (self : t) : bool :=
  U8.and (Arr4.b1 (bytes_ self)) 0x20 =? 0.

Definition is_safe_to_copy (self : t) : bool :=
  negb (U8.and (Arr4.b3 (bytes_ self)) 0x20 =? 0).

(** [impl TryFrom<[u8; 4]>]: never fails. *)
Definition try_from (value : Arr4.t) : outcome t := Ok (mk value).

(** The loop of [from_str]: [i] is the index [enumerate] has reached and
    [rest] the bytes still to visit; [s] is kept for the error message. *)
Fixpoint from_str_loop (s : string) (chunktype : t) (i : nat)
    (rest : list byte) : outcome t :=
  match rest with
  | [] => Ok chunktype
  | ch :: rest =>
      if negb (U8.is_ascii_alphabetic ch) then Err (InvalidByte ch s)
      else
        bytes' ← Arr4.set (bytes_ chunktype) i ch;
        from_str_loop s (mk bytes') (S i) rest
  end.

(** [impl FromStr] *)
Definition from_str (s : string) : outcome t :=
  from_str_loop s (mk Arr4.zero) 0 (Utf8.as_bytes s).

(** [impl Display]: the text written to the formatter, or [None] for
    [Err(std::fmt::Error)]. *)
Definition fmt (self : t) : option string :=
  match Utf8.from_utf8 (Arr4.to_vec (bytes_ self)) with
  | Some s => Some s
  | None => None
  end.

(** [ToString::to_string], which panics when [fmt] fails. *)
Definition to_string (self : t) : outcome string :=
  match fmt self with
  | Some s => Ok s
  | None => Panic DisplayError
  end.

End ChunkType.

(** ** The property bits on letters *)

Section bits.
Implicit Types (b : byte) (ct : ChunkType.t).

(** On an ASCII letter, bit 5 is clear exactly for the upper-case
    letters. *)
Lemma alphabetic_bit5 b :
  U8.is_ascii_alphabetic b = true →
  (U8.and b 0x20 =? 0) = (byte.unsigned b <=? 90).
Proof. destruct b; vm_compute; congruence. Qed.

Lemma is_valid_reserved ct :
  ChunkType.is_valid ct = ChunkType.is_reserved_bit_valid ct.
Proof. done. Qed.

End bits.

(** ** [from_str] on every input *)

(** The bytes of [bs] are all ASCII letters. *)
Definition alphabetic (bs : list byte) : Prop :=
  Forall (λ b, U8.is_ascii_alphabetic b = true) bs.

#[global] Instance alphabetic_dec bs : Decision (alphabetic bs).
Proof. unfold alphabetic. apply _. Defined.

Section from_str.
Implicit Types (s : string) (ct : ChunkType.t) (i : nat) (ch : byte)
  (rest pre post bs : list byte).

Lemma alphabetic_cons ch bs :
  alphabetic (ch :: bs) ↔ U8.is_ascii_alphabetic ch = true ∧ alphabetic bs.
Proof. apply Forall_cons_iff. Qed.

Lemma alphabetic_app pre post :
  alphabetic (pre ++ post) ↔ alphabetic pre ∧ alphabetic post.
Proof. apply Forall_app. Qed.

(** The loop on letters that fit: they overwrite the array from [i]. *)
Lemma from_str_loop_Ok s ct i rest :
  alphabetic rest → (i + length rest ≤ 4)%nat →
  ∃ ct', ChunkType.from_str_loop s ct i rest = Ok ct' ∧
    Arr4.to_vec (ChunkType.bytes_ ct') =
      take i (Arr4.to_vec (ChunkType.bytes_ ct)) ++ rest
      ++ drop (i + length rest) (Arr4.to_vec (ChunkType.bytes_ ct)).
Proof.
  revert ct i. induction rest as [|ch rest IH]; intros ct i Hrest Hlen.
  { exists ct. split; [done|]. by rewrite Nat.add_0_r, app_nil_l, take_drop. }
  apply alphabetic_cons in Hrest as [Hch Hrest]. simpl in Hlen.
  destruct (set_insert (ChunkType.bytes_ ct) i ch) as (a' & Hset & Hvec); [lia|].
  destruct (IH (ChunkType.mk a') (S i)) as (ct' & Hloop & Hct'); [done|lia|].
  exists ct'. cbn [ChunkType.from_str_loop]. rewrite Hch, Hset. split; [done|].
  rewrite Hct'. cbn [ChunkType.bytes_]. rewrite Hvec.
  rewrite (take_S_r _ _ ch), take_insert_ge, drop_insert_lt, <- app_assoc by
    (try apply list_lookup_insert_eq; rewrite ?to_vec_length; lia).
  simpl. by rewrite Nat.add_succ_r.
Qed.

(** The loop stops at the first byte that is no letter, when it is among
    the first five. *)
Lemma from_str_loop_Err s ct i pre ch post :
  alphabetic pre → U8.is_ascii_alphabetic ch = false →
  (i + length pre ≤ 4)%nat →
  ChunkType.from_str_loop s ct i (pre ++ ch :: post) = Err (InvalidByte ch s).
Proof.
  revert ct i. induction pre as [|b pre IH]; intros ct i Hpre Hch Hlen.
  { simpl. by rewrite Hch. }
  apply alphabetic_cons in Hpre as [Hb Hpre]. simpl in Hlen.
  destruct (set_insert (ChunkType.bytes_ ct) i b) as (a' & Hset & _); [lia|].
  cbn [app ChunkType.from_str_loop]. rewrite Hb, Hset. apply IH; [done..|lia].
Qed.

(** The loop panics on the letter that would be written at index 4. *)
Lemma from_str_loop_Panic s ct i pre post :
  alphabetic pre → (i + length pre = 5)%nat → (i ≤ 4)%nat →
  ChunkType.from_str_loop s ct i (pre ++ post)
  = Panic (IndexOutOfBounds 4 4).
Proof.
  revert ct i. induction pre as [|b pre IH]; intros ct i Hpre Hlen Hi;
    [simpl in Hlen; lia|].
  apply alphabetic_cons in Hpre as [Hb Hpre]. simpl in Hlen.
  cbn [app ChunkType.from_str_loop]. rewrite Hb. simpl negb. cbv iota.
  destruct (decide (i = 4%nat)) as [->|]; [done|].
  destruct (set_insert (ChunkType.bytes_ ct) i b) as (a' & -> & _); [lia|].
  apply IH; [done|lia..].
Qed.

(** The loop from the zeroed array of [from_str]: the letters, then the
    zero bytes that were not overwritten. *)
Lemma from_str_loop_init s bs :
  alphabetic bs → (length bs ≤ 4)%nat →
  ∃ ct, ChunkType.from_str_loop s (ChunkType.mk Arr4.zero) 0 bs = Ok ct ∧
    Arr4.to_vec (ChunkType.bytes_ ct) = bs ++ replicate (4 - length bs) x00.
Proof.
  intros Hs Hlen.
  destruct (from_str_loop_Ok s (ChunkType.mk Arr4.zero) 0 _ Hs)
    as (ct & Hct & Hvec); [lia|].
  exists ct. split; [done|]. rewrite Hvec, take_0, app_nil_l, Nat.add_0_l.
  f_equal. apply (drop_replicate _ 4).
Qed.

(** Every byte string is all letters, or splits at its first byte that is
    not one. *)
Lemma alphabetic_split bs :
  alphabetic bs ∨
  ∃ pre ch post, bs = pre ++ ch :: post ∧ alphabetic pre
                 ∧ U8.is_ascii_alphabetic ch = false.
Proof.
  induction bs as [|b bs [IH|(pre & ch & post & -> & Hpre & Hch)]].
  - left. constructor.
  - destruct (U8.is_ascii_alphabetic b) eqn:Hb.
    + left. by apply alphabetic_cons.
    + right. exists [], b, bs. by repeat split; [constructor|].
  - right. destruct (U8.is_ascii_alphabetic b) eqn:Hb.
    + exists (b :: pre), ch, post. by repeat split; [apply alphabetic_cons|].
    + exists [], b, (pre ++ ch :: post). by repeat split; [constructor|].
Qed.

End from_str.

(** ** The three outcomes of [from_str] *)

Section from_str_outcomes.
Implicit Types (s : string) (ct : ChunkType.t) (ch : byte)
  (pre post : list byte).

(** C19: when the first byte that is not an ASCII letter is among the
    first five bytes of the string, [from_str] returns the error that
    names that byte and the string. *)
Theorem from_str_Err s pre ch post :
  Utf8.as_bytes s = pre ++ ch :: post → alphabetic pre →
  U8.is_ascii_alphabetic ch = false → (length pre ≤ 4)%nat →
  ChunkType.from_str s = Err (InvalidByte ch s).
Proof.
  intros Hs Hpre Hch Hlen. unfold ChunkType.from_str. rewrite Hs.
  by apply from_str_loop_Err.
Qed.

(** C18: a string that starts with five ASCII letters makes [from_str]
    panic: the fifth letter is written at index 4 of the four-byte
    array. *)
Theorem from_str_Panic s pre post :
  Utf8.as_bytes s = pre ++ post → alphabetic pre → length pre = 5%nat →
  ChunkType.from_str s = Panic (IndexOutOfBounds 4 4).
Proof.
  intros Hs Hpre Hlen. unfold ChunkType.from_str. rewrite Hs.
  apply from_str_loop_Panic; [done|lia..].
Qed.

(** The three cases cover every string. *)
Lemma from_str_cases s :
  let bs := Utf8.as_bytes s in
  (alphabetic bs ∧ (length bs ≤ 4)%nat)
  ∨ (∃ pre ch post, bs = pre ++ ch :: post ∧ alphabetic pre
       ∧ U8.is_ascii_alphabetic ch = false ∧ (length pre ≤ 4)%nat)
  ∨ (∃ pre post, bs = pre ++ post ∧ alphabetic pre ∧ length pre = 5%nat).
Proof.
  intros bs.
  assert (∀ l, alphabetic l → (4 < length l)%nat →
            ∃ pre post, l = pre ++ post ∧ alphabetic pre ∧ length pre = 5%nat)
    as Hlong.
  { intros l Hl ?. exists (take 5 l), (drop 5 l).
    rewrite take_drop, length_take_le by lia.
    split; [done|]. split; [|done]. by apply Forall_take. }
  destruct (alphabetic_split bs) as [Hbs|(pre & ch & post & Hsplit & Hpre & Hch)].
  - destruct (decide (length bs ≤ 4)%nat); [by left|].
    right; right. apply Hlong; [done|lia].
  - right. destruct (decide (length pre ≤ 4)%nat).
    { left. by exists pre, ch, post. }
    right. destruct (Hlong pre) as (p & q & -> & ? & ?); [done|lia|].
    exists p, (q ++ ch :: post). by rewrite Hsplit, <- app_assoc.
Qed.

(** A string [from_str] accepts has at most four bytes, all letters. *)
Lemma from_str_Ok_alphabetic s :
  is_Ok (ChunkType.from_str s) = true →
  alphabetic (Utf8.as_bytes s) ∧ (length (Utf8.as_bytes s) ≤ 4)%nat.
Proof.
  unfold ChunkType.from_str.
  destruct (from_str_cases s)
    as [?|[(pre & ch & post & Hs & ? & ? & ?)|(pre & post & Hs & ? & ?)]];
    [done|..]; rewrite Hs.
  - by rewrite from_str_loop_Err.
  - by rewrite from_str_loop_Panic by (done || lia).
Qed.


Lemma bytes_inj ct ct' :
  Arr4.to_vec (ChunkType.bytes_ ct) = Arr4.to_vec (ChunkType.bytes_ ct') →
  ct = ct'.
Proof. destruct ct, ct'. simpl. by intros ->%to_vec_inj. Qed.

(** C11: [from_str] succeeds exactly on the strings of at most four ASCII
    letters, and the tag it returns holds those bytes followed by the
    zero bytes the array was initialised with: the length of the string
    is never checked, and a shorter string gives a tag that is not four
    letters. *)
Theorem from_str_Ok s ct :
  ChunkType.from_str s = Ok ct ↔
  alphabetic (Utf8.as_bytes s) ∧ (length (Utf8.as_bytes s) ≤ 4)%nat
  ∧ Arr4.to_vec (ChunkType.bytes_ ct) =
      Utf8.as_bytes s ++ replicate (4 - length (Utf8.as_bytes s)) x00.
Proof.
  split.
  - intros Hct.
    destruct (from_str_Ok_alphabetic s) as [Hs Hlen]; [by rewrite Hct|].
    destruct (from_str_loop_init s _ Hs Hlen) as (ct' & Hct' & Hvec).
    unfold ChunkType.from_str in Hct. rewrite Hct' in Hct.
    by injection Hct as <-.
  - intros (Hs & Hlen & Hvec).
    destruct (from_str_loop_init s _ Hs Hlen) as (ct' & Hct' & Hvec').
    unfold ChunkType.from_str. rewrite Hct'. f_equal. apply bytes_inj.
    congruence.
Qed.

End from_str_outcomes.

(** ** [Display] and [to_string] *)

Section display.
Implicit Types (s txt : string) (ct : ChunkType.t).

Lemma alphabetic_ascii bs : alphabetic bs → Forall (in_bytes 0x00 0x7F) bs.
Proof.
  apply Forall_impl. intros b Hb%is_ascii_alphabetic_ascii.
  pose proof (byte.unsigned_range b). unfold in_bytes. lia.
Qed.


Lemma to_string_Ok ct :
  well_formed (Arr4.to_vec (ChunkType.bytes_ ct)) →
  ChunkType.to_string ct
  = Ok (string_of_list_byte (Arr4.to_vec (ChunkType.bytes_ ct))).
Proof.
  intros Hbs%validation_complete.
  unfold ChunkType.to_string, ChunkType.fmt, Utf8.from_utf8. by rewrite Hbs.
Qed.

Lemma to_string_Panic ct :
  ¬ well_formed (Arr4.to_vec (ChunkType.bytes_ ct)) →
  ChunkType.to_string ct = Panic DisplayError.
Proof.
  intros Hbs%from_utf8_None. unfold ChunkType.to_string, ChunkType.fmt.
  by rewrite Hbs.
Qed.

Lemma to_string_alphabetic ct :
  alphabetic (Arr4.to_vec (ChunkType.bytes_ ct)) →
  ChunkType.to_string ct
  = Ok (string_of_list_byte (Arr4.to_vec (ChunkType.bytes_ ct))).
Proof.
  intros Hct.
  by apply to_string_Ok, validation_sound, validation_ascii, alphabetic_ascii.
Qed.

(** C26: [to_string] returns the four bytes as text when they are
    well-formed UTF-8, and panics otherwise: [fmt] reports
    [std::fmt::Error], which [to_string] turns into a panic. *)
Theorem to_string_spec ct :
  let bs := Arr4.to_vec (ChunkType.bytes_ ct) in
  (well_formed bs → ChunkType.to_string ct = Ok (string_of_list_byte bs))
  ∧ (¬ well_formed bs → ChunkType.to_string ct = Panic DisplayError).
Proof. intros bs. split; [apply to_string_Ok|apply to_string_Panic]. Qed.

(** The bytes of a tag parsed from a four-byte string are its bytes. *)
Lemma from_str_bytes s ct :
  ChunkType.from_str s = Ok ct → length (Utf8.as_bytes s) = 4%nat →
  Arr4.to_vec (ChunkType.bytes_ ct) = Utf8.as_bytes s
  ∧ alphabetic (Utf8.as_bytes s).
Proof.
  intros Hct Hlen.
  assert (is_Ok (ChunkType.from_str s) = true) as [Hs _]%from_str_Ok_alphabetic
    by by rewrite Hct.
  destruct (from_str_loop_init s _ Hs) as (ct' & Hct' & Hvec); [lia|].
  fold (ChunkType.from_str s) in Hct'. rewrite Hct in Hct'.
  injection Hct' as <-. by rewrite Hlen, app_nil_r in Hvec.
Qed.

Lemma fmt_from_str s ct :
  ChunkType.from_str s = Ok ct → length (Utf8.as_bytes s) = 4%nat →
  ChunkType.fmt ct = Some s.
Proof.
  intros Hct Hlen. destruct (from_str_bytes s ct Hct Hlen) as [Hvec Hs].
  unfold ChunkType.fmt, Utf8.from_utf8.
  rewrite Hvec, validation_complete
    by by apply validation_sound, validation_ascii, alphabetic_ascii.
  f_equal. apply string_of_list_byte_of_string.
Qed.

(** A tag parsed from a four-byte string prints as that string. *)
Lemma to_string_of_from_str s ct :
  ChunkType.from_str s = Ok ct → length (Utf8.as_bytes s) = 4%nat →
  ChunkType.to_string ct = Ok s.
Proof.
  intros Hct Hlen. unfold ChunkType.to_string.
  by rewrite (fmt_from_str s ct).
Qed.

(** A tag of four ASCII letters is parsed back from the string it prints
    as, which has four bytes. *)
Lemma from_str_of_to_string s ct :
  alphabetic (Arr4.to_vec (ChunkType.bytes_ ct)) →
  ChunkType.to_string ct = Ok s →
  ChunkType.from_str s = Ok ct ∧ length (Utf8.as_bytes s) = 4%nat.
Proof.
  intros Hct. set (bs := Arr4.to_vec (ChunkType.bytes_ ct)) in *.
  rewrite (to_string_alphabetic ct) by done. fold bs. intros [= <-].
  assert (Utf8.as_bytes (string_of_list_byte bs) = bs) as Hbs
    by apply list_byte_of_string_of_list_byte.
  rewrite Hbs. split; [|apply to_vec_length].
  unfold ChunkType.from_str. rewrite Hbs.
  destruct (from_str_loop_init (string_of_list_byte bs) bs)
    as (ct' & -> & Hvec); [done..|].
  f_equal. apply bytes_inj. by rewrite Hvec, app_nil_r.
Qed.

(** C27: parsing and printing a tag are inverse to each other on four
    letters.  [from_str] returns a tag from a string of four bytes
    exactly when the tag has four ASCII letters and [to_string] prints it
    as that string: a tag parsed from four bytes prints as what it was
    parsed from, and a tag of four letters is parsed back from what it
    prints as. *)
Theorem from_str_to_string s ct :
  ChunkType.from_str s = Ok ct ∧ length (Utf8.as_bytes s) = 4%nat
  ↔ alphabetic (Arr4.to_vec (ChunkType.bytes_ ct))
    ∧ ChunkType.to_string ct = Ok s.
Proof.
  split.
  - intros [Hct Hlen]. split; [|by apply to_string_of_from_str].
    destruct (from_str_bytes s ct Hct Hlen) as [-> Hs]. done.
  - intros [Hct Hs]. by apply from_str_of_to_string.
Qed.

End display.

(** ** The property bits *)

Section property_bits.
Implicit Types (ct : ChunkType.t).

(** C25: on a tag of four ASCII letters each property is the case of one
    letter: critical, public and reserved-bit-valid for an upper-case
    first, second and third letter, safe-to-copy for a lower-case
    fourth. *)
Theorem property_bits_letters ct :
  let upper b := byte.unsigned b <=? 90 in
  alphabetic (Arr4.to_vec (ChunkType.bytes_ ct)) →
  ChunkType.is_critical ct = upper (Arr4.b0 (ChunkType.bytes_ ct))
  ∧ ChunkType.is_public ct = upper (Arr4.b1 (ChunkType.bytes_ ct))
  ∧ ChunkType.is_valid ct = upper (Arr4.b2 (ChunkType.bytes_ ct))
  ∧ ChunkType.is_safe_to_copy ct = negb (upper (Arr4.b3 (ChunkType.bytes_ ct))).
Proof.
  intros upper Hct. unfold alphabetic, Arr4.to_vec in Hct.
  rewrite !Forall_cons_iff in Hct. destruct Hct as (H0 & H1 & H2 & H3 & _).
  unfold ChunkType.is_critical, ChunkType.is_public, ChunkType.is_valid,
    ChunkType.is_reserved_bit_valid, ChunkType.is_safe_to_copy.
  by rewrite !alphabetic_bit5.
Qed.

End property_bits.

(** ** The unit tests of [chunk_type.rs], and witnesses *)

Section examples.
Local Open Scope string_scope.

(** The tag of the tests: ["RuSt"], as bytes [[82, 117, 83, 116]]. *)
Definition RuSt : Arr4.t := Arr4.mk "R"%byte "u"%byte "S"%byte "t"%byte.

Lemma alphabetic_RuSt : alphabetic (Utf8.as_bytes "RuSt").
Proof. by_decide. Qed.

(** Inputs the tests do not cover. *)
Example from_str_short :
  ChunkType.from_str "Ru" = Ok (ChunkType.mk (Arr4.mk "R"%byte "u"%byte x00 x00)).
Proof. done. Qed.

Example from_str_long :
  ChunkType.from_str "RuStX" = Panic (IndexOutOfBounds 4 4)
  ∧ ChunkType.from_str "RuSt1" = Err (InvalidByte "1"%byte "RuSt1").
Proof. done. Qed.

Example to_string_not_utf8 :
  ChunkType.try_from (Arr4.mk xff xff xff xff) ≫= ChunkType.to_string
  = Panic DisplayError.
Proof. done. Qed.

Lemma from_str_Err_witness :
  ChunkType.from_str "Ru1t" = Err (InvalidByte "1"%byte "Ru1t").
Proof.
  apply (from_str_Err "Ru1t" (Utf8.as_bytes "Ru") "1"%byte (Utf8.as_bytes "t"));
    [done|by_decide|done|simpl; lia].
Defined.

Lemma from_str_Panic_witness :
  ChunkType.from_str "RuStXY" = Panic (IndexOutOfBounds 4 4).
Proof.
  apply (from_str_Panic "RuStXY" (Utf8.as_bytes "RuStX") (Utf8.as_bytes "Y"));
    [done|by_decide|done].
Defined.

(** The tag of the examples, printed and parsed back. *)
Example RuSt_to_string :
  ChunkType.to_string (ChunkType.mk RuSt) = Ok "RuSt"
  ∧ ChunkType.from_str "RuSt" = Ok (ChunkType.mk RuSt).
Proof. by vm_compute. Qed.

Lemma property_bits_letters_witness :
  ChunkType.is_critical (ChunkType.mk RuSt) = true
  ∧ ChunkType.is_public (ChunkType.mk RuSt) = false
  ∧ ChunkType.is_valid (ChunkType.mk RuSt) = true
  ∧ ChunkType.is_safe_to_copy (ChunkType.mk RuSt) = true.
Proof.
  apply (property_bits_letters (ChunkType.mk RuSt)). exact alphabetic_RuSt.
Defined.

End examples.
