(* ===== verification/Chunk.v ===== *)
(** * Chunk: one length-prefixed, checksummed record ([src/chunk.rs])

    [Chunk.t] is the struct, and [new], the accessors, [data_as_string],
    [as_bytes], [try_from] ([TryFrom<&[u8]>]) and [fmt] ([Display]) are the
    functions of the source under their names.  [try_from] threads the
    [BufReader] state through its reads and keeps the two slice
    expressions with their bound checks, so a panic of the source is a
    [Panic] of the model.

    The relation [decodes] is the specification of the decoder, and
    [spec_decode] is the same as a decision table on the length of the
    input; both are parametric in the checksum.  The decoder computes the
    table and so refines the relation, and the properties of the wire
    format (round trip, soundness, detection of corruption, behaviour on
    truncated input) are proved on the table for every checksum that
    satisfies [Checksum], then carried over to the code. *)

From Stdlib Require Import ZArith List Lia.
From Stdlib Require Import Strings.Byte Strings.String Strings.Ascii.
From stdpp Require Import base tactics option list numbers.
From coqutil Require Import Byte.
From S2P Require Import Prelude Bytes Crc32 Utf8 ChunkType.

Module Chunk.

(** [pub struct Chunk]; the fields [length], [data] and [crc] carry an
    underscore, since the accessor methods have the names. *)
Record t : Type := mk {
  length_ : Z;
  chunktype : ChunkType.t;
  data_ : list byte;
  crc_ : Z;
}.

#[global] Instance eq_dec : EqDecision t.
Proof. solve_decision. Defined.

Definition new (chunk_type : ChunkType.t) (data : list byte) : t :=
  let temp := Arr4.to_vec (ChunkType.bytes chunk_type) in
  let temp := temp ++ data in
  let crc := Crc.new Crc.CRC_32_ISO_HDLC in
  let crc := Crc.checksum crc temp in
  {| length_ := U32.wrap (Z.of_nat (List.length data));
     chunktype := chunk_type;
     data_ := data;
     crc_ := crc |}.

Definition length (self : t) : Z := length_ self.

Definition crc (self : t) : Z := crc_ self.

Definition chunk_type (self : t) : ChunkType.t := chunktype self.

Definition data (self : t) : list byte := data_ self.

Definition data_as_string (self : t) : outcome string :=
  match Utf8.from_utf8 (data_ self) with
  | Some str => Ok str
  | None => Err DataNotUtf8
  end.

Definition as_bytes (self : t) : list byte :=
  let bytes := [] in
  let bytes := bytes ++ Arr4.to_vec (U32.to_be_bytes (length_ self)) in
  let bytes := bytes ++ Arr4.to_vec (ChunkType.bytes (chunktype self)) in
  let bytes := bytes ++ data_ self in
  let bytes := bytes ++ Arr4.to_vec (U32.to_be_bytes (crc_ self)) in
  bytes.

(** [self.length as usize + 12], the capacity [as_bytes] allocates
    its vector with: the one expression of [as_bytes] that can fail. *)
Definition as_bytes_capacity (self : t) : outcome nat :=
  Usize.add (Usize.from_u32 (length_ self)) 12.

(** [impl TryFrom<&[u8]> for Chunk] *)
Definition try_from (value : list byte) : outcome t :=
  let reader := Reader.new value in
  '(len, reader) ← Reader.read_exact_4 reader;
  let len := U32.from_be_bytes len in
  '(chunk_type, reader) ← Reader.read_exact_4 reader;
  chunk_type ← ChunkType.try_from chunk_type;
  end_ ← Usize.add (Usize.from_u32 len) 8;
  data ← slice value 8 end_;
  '(data, reader) ← Reader.read_exact (List.length data) reader;
  '(crc, reader) ← Reader.read_exact_4 reader;
  let crc := U32.from_be_bytes crc in
  let valid_crc := Crc.new Crc.CRC_32_ISO_HDLC in
  end_ ← Usize.add (Usize.from_u32 len) 8;
  input ← slice value 4 end_;
  let valid_crc := Crc.checksum valid_crc input in
  if decide (crc ≠ valid_crc) then Err (InvalidCrc crc valid_crc)
  else Ok {| length_ := len; chunktype := chunk_type; data_ := data; crc_ := crc |}.

(** The bytes of [bs] as upper-case hexadecimal, two digits each. *)
Definition hex (bs : list byte) : string :=
  String.concat EmptyString (U8.fmt_02X <$> bs).

(** [impl Display for Chunk]: the text written to the formatter.  The
    type is rendered with [to_string], whose panic passes through. *)
Definition fmt (self : t) : outcome string :=
  let output := EmptyString in
  let output := (output ++ hex (Arr4.to_vec (U32.to_be_bytes (length_ self))))%string in
  type_str ← ChunkType.to_string (chunktype self);
  let output := (output ++ type_str)%string in
  let output := (output ++ hex (data_ self))%string in
  let output := (output ++ hex (Arr4.to_vec (U32.to_be_bytes (crc_ self))))%string in
  Ok output.

End Chunk.

(** ** The wire format, for any checksum *)

Section wire.
Context (h : list byte → Z) `{!Checksum h}.
Implicit Types (c : Chunk.t) (value rest bs data : list byte) (ty : Arr4.t).

(** The bytes the checksum covers: the type, then the data. *)
Definition checked c : list byte :=
  Arr4.to_vec (ChunkType.bytes_ (Chunk.chunktype c)) ++ Chunk.data_ c.

(** The invariant of a chunk: its length field counts its data and fits
    a [u32], and its checksum is that of its type and data. *)
Definition valid c : Prop :=
  Chunk.length_ c = Z.of_nat (length (Chunk.data_ c))
  ∧ Chunk.length_ c < U32.modulus
  ∧ Chunk.crc_ c = h (checked c).

#[global] Instance valid_dec c : Decision (valid c).
Proof. unfold valid. apply _. Defined.

(** The decoder as a decision table on the length [n] of the input and
    the length [len] its first four bytes declare. *)
Definition spec_decode value : outcome Chunk.t :=
  let n := length value in
  let len := U32.from_be_bytes (Arr4.of_slice value) in
  let end_ := (Z.to_nat len + 8)%nat in
  if decide (n < 8)%nat then Err UnexpectedEof
  else if decide (n < end_)%nat then Panic (SliceEndOutOfRange end_ n)
  else if decide (n < end_ + 4)%nat then Err UnexpectedEof
  else
    let crc := U32.from_be_bytes (Arr4.of_slice (drop end_ value)) in
    let computed := h (take (end_ - 4) (drop 4 value)) in
    if decide (crc = computed)
    then Ok (Chunk.mk len (ChunkType.mk (Arr4.of_slice (drop 4 value)))
               (take (Z.to_nat len) (drop 8 value)) crc)
    else Err (InvalidCrc crc computed).

(** Where the length declared by the first four bytes puts the end of
    the data. *)
Definition declared_end value : nat :=
  (Z.to_nat (U32.from_be_bytes (Arr4.of_slice value)) + 8)%nat.

(** What a decoder of the format owes its caller, as a relation between
    an input and an outcome.  The last two rules are stated on the frame
    itself: length, type, data, checksum, and whatever follows. *)
Inductive decodes : list byte → outcome Chunk.t → Prop :=
  | decodes_header_eof value :
      (length value < 8)%nat → decodes value (Err UnexpectedEof)
  | decodes_data_panic value :
      (8 ≤ length value < declared_end value)%nat →
      decodes value
        (Panic (SliceEndOutOfRange (declared_end value) (length value)))
  | decodes_crc_eof value :
      (8 ≤ length value)%nat →
      (declared_end value ≤ length value < declared_end value + 4)%nat →
      decodes value (Err UnexpectedEof)
  | decodes_invalid_crc len ty data crcv rest :
      U32.in_range len → Z.to_nat len = length data → U32.in_range crcv →
      crcv ≠ h (Arr4.to_vec ty ++ data) →
      decodes (Arr4.to_vec (U32.to_be_bytes len) ++ Arr4.to_vec ty ++ data
               ++ Arr4.to_vec (U32.to_be_bytes crcv) ++ rest)
        (Err (InvalidCrc crcv (h (Arr4.to_vec ty ++ data))))
  | decodes_Ok c rest :
      valid c → decodes (Chunk.as_bytes c ++ rest) (Ok c).

End wire.

(** ** The decoder refines the table *)

Section refinement.
Implicit Types (c : Chunk.t) (value rest : list byte).

Lemma try_from_short value :
  (length value < 8)%nat → Chunk.try_from value = Err UnexpectedEof.
Proof.
  intros Hlen. unfold Chunk.try_from, Reader.new.
  do 4 (destruct value as [|? value]; [done|]).
  cbn [Reader.read_exact_4 mbind outcome_bind].
  do 4 (destruct value as [|? value]; [done|]). simpl in Hlen. lia.
Qed.

(** The decoder past its two header reads: [rest] is what follows the
    eight header bytes. *)
Lemma try_from_header (len_bytes ty : Arr4.t) rest :
  Chunk.try_from (Arr4.to_vec len_bytes ++ Arr4.to_vec ty ++ rest) =
  let value := Arr4.to_vec len_bytes ++ Arr4.to_vec ty ++ rest in
  let len := U32.from_be_bytes len_bytes in
  data ← slice value 8 (Z.to_nat len + 8);
  '(data, reader) ← Reader.read_exact (length data) rest;
  '(crc, reader) ← Reader.read_exact_4 reader;
  let crc := U32.from_be_bytes crc in
  input ← slice value 4 (Z.to_nat len + 8);
  let valid_crc := crc32 input in
  if decide (crc ≠ valid_crc) then Err (InvalidCrc crc valid_crc)
  else Ok (Chunk.mk len (ChunkType.mk ty) data crc).
Proof.
  pose proof (from_be_bytes_in_range len_bytes) as Hlen.
  destruct len_bytes, ty. unfold Chunk.try_from, Reader.new.
  cbn [Arr4.to_vec app Reader.read_exact_4 mbind outcome_bind ChunkType.try_from].
  by rewrite !add_from_u32 by done.
Qed.

(** An input of eight bytes or more starts with the two header arrays. *)
Lemma header_split value :
  (8 ≤ length value)%nat →
  value = Arr4.to_vec (Arr4.of_slice value)
          ++ Arr4.to_vec (Arr4.of_slice (drop 4 value)) ++ drop 8 value.
Proof.
  intros Hlen. do 8 (destruct value as [|? value]; [simpl in Hlen; lia|]).
  done.
Qed.

Lemma read_exact_4_of_slice (r : list byte) :
  Reader.read_exact_4 r =
  if decide (length r < 4)%nat then Err UnexpectedEof
  else Ok (Arr4.of_slice r, drop 4 r).
Proof.
  do 4 (destruct r as [|? r]; [done|]). simpl length.
  by rewrite decide_False by lia.
Qed.

(** The decoder computes the decision table of the checksum of the
    crate, on every input. *)
Lemma try_from_spec_decode value :
  Chunk.try_from value = spec_decode crc32 value.
Proof.
  unfold spec_decode. case_decide as Hn8; [by apply try_from_short|].
  rewrite (header_split value) at 1 by lia. rewrite try_from_header.
  cbv zeta. rewrite <- header_split by lia.
  set (n := Z.to_nat (U32.from_be_bytes (Arr4.of_slice value))).
  case_decide as Hend; [by rewrite (slice_end_panic value 8) by lia|].
  rewrite !slice_Ok by lia. cbn [mbind outcome_bind].
  replace (n + 8 - 8)%nat with n by lia.
  unfold Reader.read_exact. rewrite decide_True by solve_len.
  rewrite length_take_le by solve_len. cbn [mbind outcome_bind].
  rewrite read_exact_4_of_slice, drop_drop.
  replace (8 + n)%nat with (n + 8)%nat by lia.
  case_decide as Hcrc; case_decide as Hcrc'; try solve_len.
  { done. }
  cbn [mbind outcome_bind]. by repeat case_decide.
Qed.

End refinement.

(** ** Properties of the wire format *)

Section wire_lemmas.
Context (h : list byte → Z) `{!Checksum h}.
Implicit Types (c : Chunk.t) (value rest data p q w : list byte)
  (ty : Arr4.t) (len crcv : Z).

Lemma as_bytes_eq c :
  Chunk.as_bytes c =
  Arr4.to_vec (U32.to_be_bytes (Chunk.length_ c))
  ++ Arr4.to_vec (ChunkType.bytes_ (Chunk.chunktype c))
  ++ Chunk.data_ c ++ Arr4.to_vec (U32.to_be_bytes (Chunk.crc_ c)).
Proof. unfold Chunk.as_bytes. by rewrite app_nil_l, <- !app_assoc. Qed.

Lemma as_bytes_length c :
  length (Chunk.as_bytes c) = (12 + length (Chunk.data_ c))%nat.
Proof. rewrite as_bytes_eq. solve_len. Qed.

(** The table on a well-framed input, whatever its checksum field
    holds. *)
Lemma spec_decode_frame len ty data crcv rest :
  U32.in_range len → Z.to_nat len = length data → U32.in_range crcv →
  spec_decode h (Arr4.to_vec (U32.to_be_bytes len) ++ Arr4.to_vec ty
                 ++ data ++ Arr4.to_vec (U32.to_be_bytes crcv) ++ rest) =
  if decide (crcv = h (Arr4.to_vec ty ++ data))
  then Ok (Chunk.mk len (ChunkType.mk ty) data crcv)
  else Err (InvalidCrc crcv (h (Arr4.to_vec ty ++ data))).
Proof.
  intros Hlen Hdata Hcrc. unfold spec_decode.
  rewrite of_slice_to_vec, from_to_be_bytes, wrap_small, Hdata by done.
  rewrite !decide_False by solve_len.
  replace (length data + 8 - 4)%nat with (4 + length data)%nat by lia.
  replace (length data + 8)%nat with (4 + (4 + length data))%nat by lia.
  change 8%nat with (4 + 4)%nat.
  rewrite !drop_to_vec_add, !drop_to_vec, take_to_vec_add, drop_app_length.
  rewrite !take_app_length, !of_slice_to_vec.
  by rewrite from_to_be_bytes, wrap_small by done.
Qed.

Lemma valid_in_range c :
  valid h c →
  U32.in_range (Chunk.length_ c)
  ∧ Z.to_nat (Chunk.length_ c) = length (Chunk.data_ c)
  ∧ U32.in_range (Chunk.crc_ c).
Proof.
  intros (Hlen & Hlt & ->). split; [u32_range|]. split; [lia|].
  apply checksum_in_range.
Qed.

(** Decoding an encoded chunk gives it back, whatever follows it. *)
Lemma spec_decode_as_bytes c rest :
  valid h c → spec_decode h (Chunk.as_bytes c ++ rest) = Ok c.
Proof.
  intros Hc. destruct (valid_in_range c Hc) as (? & ? & ?).
  rewrite as_bytes_eq, <- !app_assoc, spec_decode_frame by done.
  destruct Hc as (_ & _ & Hcrc). rewrite decide_True by done.
  by destruct c as [? []].
Qed.

(** An input long enough for the length it declares is a frame. *)
Lemma frame_of_long value :
  let len := U32.from_be_bytes (Arr4.of_slice value) in
  (Z.to_nat len + 12 ≤ length value)%nat →
  ∃ ty data crcv rest,
    value = Arr4.to_vec (U32.to_be_bytes len) ++ Arr4.to_vec ty ++ data
            ++ Arr4.to_vec (U32.to_be_bytes crcv) ++ rest
    ∧ Z.to_nat len = length data ∧ U32.in_range crcv.
Proof.
  intros len Hlen. set (n := Z.to_nat len) in *.
  set (tail := drop n (drop 8 value)).
  exists (Arr4.of_slice (drop 4 value)), (take n (drop 8 value)),
    (U32.from_be_bytes (Arr4.of_slice tail)), (drop 4 tail).
  split; [|split; [solve_len|apply from_be_bytes_in_range]].
  unfold len. rewrite !to_from_be_bytes.
  rewrite <- (to_vec_of_slice tail) by (unfold tail; solve_len).
  unfold tail. rewrite take_drop. apply header_split. lia.
Qed.

(** The same, with the declared length as a number of its own. *)
Lemma frame_of_declared_end value :
  (declared_end value + 4 ≤ length value)%nat →
  ∃ len ty data crcv rest,
    value = Arr4.to_vec (U32.to_be_bytes len) ++ Arr4.to_vec ty ++ data
            ++ Arr4.to_vec (U32.to_be_bytes crcv) ++ rest
    ∧ U32.in_range len ∧ Z.to_nat len = length data ∧ U32.in_range crcv.
Proof.
  intros Hlen.
  destruct (frame_of_long value) as (ty & data & crcv & rest & ? & ? & ?);
    [unfold declared_end in Hlen; lia|].
  eexists _, ty, data, crcv, rest.
  split; [done|]. split; [apply from_be_bytes_in_range|done].
Qed.

(** What the table returns, it read from the input: a valid chunk whose
    encoding the input starts with. *)
Lemma spec_decode_Ok_inv value c :
  spec_decode h value = Ok c →
  valid h c ∧ ∃ rest, value = Chunk.as_bytes c ++ rest.
Proof.
  intros Hdec.
  assert (Z.to_nat (U32.from_be_bytes (Arr4.of_slice value)) + 12
          ≤ length value)%nat as Hlong.
  { unfold spec_decode in Hdec. repeat case_decide; try done; lia. }
  pose proof (from_be_bytes_in_range (Arr4.of_slice value)) as Hlen.
  destruct (frame_of_long value Hlong) as (ty & data & crcv & rest & Hv & ? & ?).
  rewrite Hv, spec_decode_frame in Hdec by done.
  case_decide as Hcrc; [|done]. injection Hdec as <-.
  split; [|by exists rest; rewrite as_bytes_eq, <- !app_assoc].
  repeat split; simpl; [u32_range..|done].
Qed.

(** The table is the relation, as a function: it relates every input to
    an outcome, and to no other. *)
Lemma decodes_spec_decode value : decodes h value (spec_decode h value).
Proof.
  destruct (decide (declared_end value + 4 ≤ length value)%nat) as [Hl|Hl].
  - destruct (frame_of_declared_end value Hl)
      as (len & ty & data & crcv & rest & -> & ? & ? & ?).
    rewrite spec_decode_frame by done. case_decide as Hcrc.
    + replace (_ ++ _) with
        (Chunk.as_bytes (Chunk.mk len (ChunkType.mk ty) data crcv) ++ rest)
        by by rewrite as_bytes_eq, <- !app_assoc.
      apply decodes_Ok. repeat split; simpl; [u32_range..|done].
    + by apply decodes_invalid_crc.
  - unfold spec_decode. fold (declared_end value).
    repeat case_decide; try lia; constructor; lia.
Qed.

Lemma decodes_functional value o :
  decodes h value o → spec_decode h value = o.
Proof.
  destruct 1 as [value ?|value ?|value ? ?|len ty data crcv rest ? ? ? ?|c rest ?].
  1-3: unfold spec_decode; fold (declared_end value);
       by repeat case_decide; try lia.
  - rewrite spec_decode_frame by done. by rewrite decide_False.
  - by apply spec_decode_as_bytes.
Qed.

(** The encodings of valid chunks are prefix-free. *)
Lemma as_bytes_app_inj c c' rest rest' :
  valid h c → valid h c' →
  Chunk.as_bytes c ++ rest = Chunk.as_bytes c' ++ rest' →
  c = c' ∧ rest = rest'.
Proof.
  intros Hc Hc' Heq.
  assert (c = c') as <-.
  { pose proof (spec_decode_as_bytes c rest Hc) as Hdec.
    rewrite Heq, spec_decode_as_bytes in Hdec by done. congruence. }
  split; [done|]. by apply app_inv_head in Heq.
Qed.

(** A chunk whose type or data was altered inside a window of at most
    four bytes is rejected, with the stored and the computed checksum. *)
Lemma spec_decode_corrupt c p w w' q rest :
  valid h c → checked c = p ++ w ++ q →
  length w = length w' → (length w ≤ 4)%nat → w ≠ w' →
  ∃ computed, computed ≠ Chunk.crc_ c ∧
    spec_decode h (Arr4.to_vec (U32.to_be_bytes (Chunk.length_ c))
                   ++ (p ++ w' ++ q)
                   ++ Arr4.to_vec (U32.to_be_bytes (Chunk.crc_ c)) ++ rest)
    = Err (InvalidCrc (Chunk.crc_ c) computed).
Proof.
  intros Hc Hsplit Hlen Hw Hne.
  destruct (valid_in_range c Hc) as (? & Hdata & ?).
  destruct Hc as (_ & _ & Hcrc).
  assert (length (p ++ w' ++ q) = 4 + length (Chunk.data_ c))%nat as Hl'.
  { apply (f_equal length) in Hsplit. unfold checked in Hsplit.
    revert Hsplit. solve_len. }
  exists (h (p ++ w' ++ q)). split.
  { rewrite Hcrc, Hsplit. intros Heq. by eapply checksum_detects_burst. }
  rewrite (to_vec_of_slice (p ++ w' ++ q)) at 1 2 by lia.
  rewrite <- !app_assoc, spec_decode_frame by (solve_len || done).
  rewrite <- to_vec_of_slice by lia.
  rewrite decide_False; [done|].
  rewrite Hcrc, Hsplit. intros Heq. by eapply checksum_detects_burst.
Qed.

(** On a truncated encoding the table reports end of file, except when
    the cut falls in the data or the type is complete and the data is
    not: then the slice expression panics. *)
Lemma spec_decode_truncated c k :
  valid h c → (k < 12 + length (Chunk.data_ c))%nat →
  spec_decode h (take k (Chunk.as_bytes c)) =
  if decide (8 ≤ k < length (Chunk.data_ c) + 8)%nat
  then Panic (SliceEndOutOfRange (length (Chunk.data_ c) + 8) k)
  else Err UnexpectedEof.
Proof.
  intros Hc Hk. destruct (valid_in_range c Hc) as (? & Hdata & ?).
  pose proof (as_bytes_length c) as Hlen.
  unfold spec_decode. rewrite length_take_le by lia.
  case_decide; [by rewrite decide_False by lia|].
  rewrite of_slice_take, as_bytes_eq, of_slice_to_vec by lia.
  rewrite from_to_be_bytes, wrap_small, Hdata by done.
  by repeat case_decide; try lia.
Qed.

End wire_lemmas.

(** ** The codec of the source, with the checksum of the crate *)

Section codec.
Implicit Types (c : Chunk.t) (value rest data p q w : list byte)
  (ty : ChunkType.t).

(** C1: decoding the encoding of a valid chunk returns that chunk, with
    its four fields, whatever bytes follow the encoding: the decoder
    reads one chunk and ignores the rest of its input. *)
Theorem try_from_as_bytes c rest :
  valid crc32 c → Chunk.try_from (Chunk.as_bytes c ++ rest) = Ok c.
Proof.
  intros. rewrite try_from_spec_decode. by apply (spec_decode_as_bytes crc32).
Qed.

(** C2: the decoder refines the relation [decodes] of the wire format,
    with the checksum of the crate: on every input it returns the one
    outcome the relation allows.  Too short for the header or for the
    checksum field gives the end-of-file error, a declared length that
    runs past the input panics in the slice expression, a stored checksum
    that differs from the computed one is rejected with both values, and
    otherwise the chunk whose encoding the input starts with is
    returned. *)
Theorem try_from_refines value o :
  Chunk.try_from value = o ↔ decodes crc32 value o.
Proof.
  rewrite try_from_spec_decode. split.
  - intros <-. apply (decodes_spec_decode crc32).
  - apply (decodes_functional crc32).
Qed.

(** C4: a chunk the decoder returns is valid (its length field counts its
    data, its checksum is the CRC-32 of its type and data) and its
    encoding is a prefix of the input: the decoder invents nothing. *)
Theorem try_from_Ok_inv value c :
  Chunk.try_from value = Ok c →
  valid crc32 c ∧ ∃ rest, value = Chunk.as_bytes c ++ rest.
Proof. rewrite try_from_spec_decode. apply (spec_decode_Ok_inv crc32). Qed.

(** C3: if the type or the data of an encoded valid chunk is altered
    inside a window of at most four bytes (any burst of up to 32 bits, a
    single flipped bit included) the decoder rejects the input with the
    checksum error, reporting the stored checksum and a different
    computed one. *)
Theorem try_from_corrupt c p w w' q rest :
  valid crc32 c → checked c = p ++ w ++ q →
  length w = length w' → (length w ≤ 4)%nat → w ≠ w' →
  ∃ computed, computed ≠ Chunk.crc_ c ∧
    Chunk.try_from (Arr4.to_vec (U32.to_be_bytes (Chunk.length_ c))
                    ++ (p ++ w' ++ q)
                    ++ Arr4.to_vec (U32.to_be_bytes (Chunk.crc_ c)) ++ rest)
    = Err (InvalidCrc (Chunk.crc_ c) computed).
Proof.
  intros. setoid_rewrite try_from_spec_decode.
  by apply (spec_decode_corrupt crc32 c p w w' q).
Qed.

(** C5: on a proper prefix of the encoding of a valid chunk the decoder
    returns the end-of-file error when the cut is inside the eight header
    bytes or inside the checksum field, and panics in the slice
    expression [value[8..len + 8]] when the header is complete and the
    data is not. *)
Theorem try_from_truncated c k :
  valid crc32 c → (k < 12 + length (Chunk.data_ c))%nat →
  Chunk.try_from (take k (Chunk.as_bytes c)) =
  if decide (8 ≤ k < length (Chunk.data_ c) + 8)%nat
  then Panic (SliceEndOutOfRange (length (Chunk.data_ c) + 8) k)
  else Err UnexpectedEof.
Proof.
  intros. rewrite try_from_spec_decode.
  by apply (spec_decode_truncated crc32).
Qed.

(** C24: the decoder panics exactly on the inputs of at least eight bytes
    whose declared length runs past their end; on every other input it
    returns a chunk or an error. *)
Theorem try_from_Panic_iff value :
  is_Panic (Chunk.try_from value) = true ↔
  (8 ≤ length value
   < Z.to_nat (U32.from_be_bytes (Arr4.of_slice value)) + 8)%nat.
Proof.
  rewrite try_from_spec_decode. unfold spec_decode.
  repeat case_decide; simpl; split; (done || lia).
Qed.

Lemma valid_new ty data :
  Z.of_nat (length data) < U32.modulus → valid crc32 (Chunk.new ty data).
Proof.
  intros Hlen. unfold valid, Chunk.new. cbn.
  rewrite wrap_small by u32_range. done.
Qed.

(** C6: [new] builds a valid chunk (the length and the checksum are
    derived, never supplied) exactly when the data has fewer than 2^32
    bytes; on longer data the stored length is not that of the data. *)
Theorem new_valid ty data :
  valid crc32 (Chunk.new ty data) ↔ Z.of_nat (length data) < U32.modulus.
Proof.
  split; [|apply valid_new]. intros (Hlen & Hlt & _). by rewrite Hlen in Hlt.
Qed.

(** C7: the checksum [new] stores, computed by the table-driven routine
    of the [crc] crate, is the CRC-32/ISO-HDLC of the type bytes followed
    by the data as the bit-by-bit shift register defines it. *)
Theorem new_crc_bitwise ty data :
  Chunk.crc_ (Chunk.new ty data) =
  Crc.checksum_bitwise (Arr4.to_vec (ChunkType.bytes_ ty) ++ data).
Proof. apply checksum_table_bitwise. Qed.

(** C23: a chunk built by [new] survives the trip through its encoding,
    for data of fewer than 2^32 bytes. *)
Theorem try_from_new ty data rest :
  Z.of_nat (length data) < U32.modulus →
  Chunk.try_from (Chunk.as_bytes (Chunk.new ty data) ++ rest)
  = Ok (Chunk.new ty data).
Proof.
  intros. rewrite try_from_spec_decode.
  by apply (spec_decode_as_bytes crc32), valid_new.
Qed.

(** A chunk whose integer fields are values of their type, [u32]. *)
Definition well_typed c : Prop :=
  U32.in_range (Chunk.length_ c) ∧ U32.in_range (Chunk.crc_ c).

#[global] Instance well_typed_dec c : Decision (well_typed c).
Proof. unfold well_typed, U32.in_range. apply _. Defined.

Lemma new_well_typed ty data : well_typed (Chunk.new ty data).
Proof.
  split; [apply wrap_in_range|]. unfold Chunk.new. cbn [Chunk.crc_].
  apply (checksum_in_range (h := crc32)).
Qed.

Lemma try_from_well_typed value c :
  Chunk.try_from value = Ok c → well_typed c.
Proof.
  rewrite try_from_spec_decode.
  intros [Hc _]%(spec_decode_Ok_inv crc32).
  by destruct (valid_in_range crc32 c Hc) as (? & _ & ?).
Qed.

(** C17: validity is what decoding needs, no less.  A chunk is returned
    by the decoder from its own encoding exactly when it is valid, and the
    chunks the decoder returns from any input at all are the valid ones:
    a length field that does not count the data, a length of 2^32 or
    more, or a checksum other than the CRC-32 of type and data each make
    the encoding of the chunk decode to something else or to nothing. *)
Theorem valid_decodable c :
  (valid crc32 c ↔ Chunk.try_from (Chunk.as_bytes c) = Ok c)
  ∧ (valid crc32 c ↔ ∃ value, Chunk.try_from value = Ok c).
Proof.
  assert (valid crc32 c → Chunk.try_from (Chunk.as_bytes c) = Ok c) as Hc.
  { intros Hc. rewrite <- (app_nil_r (Chunk.as_bytes c)) at 1.
    rewrite try_from_spec_decode. by apply (spec_decode_as_bytes crc32). }
  assert (∀ value, Chunk.try_from value = Ok c → valid crc32 c) as Hv.
  { intros value. rewrite try_from_spec_decode.
    by intros [? _]%(spec_decode_Ok_inv crc32). }
  naive_solver.
Qed.

(** The decoder's additions do not overflow. *)
Lemma try_from_no_overflow value : Chunk.try_from value ≠ Panic AddOverflow.
Proof.
  rewrite try_from_spec_decode. unfold spec_decode.
  by repeat case_decide.
Qed.

Lemma as_bytes_capacity_length c :
  U32.in_range (Chunk.length_ c) →
  Chunk.as_bytes_capacity c = Ok (Z.to_nat (Chunk.length_ c) + 12)%nat.
Proof. intros. by apply add_from_u32. Qed.

(** C16: the index arithmetic of the codec stays within [usize].  The
    capacity [as_bytes] allocates, [self.length as usize + 12], is
    computed without overflow and is the exact number of bytes written
    for every valid chunk; for a chunk built by [new] it is computed
    without overflow and is exact when the data has fewer than 2^32
    bytes, and too small by a multiple of 2^32 otherwise; and the decoder
    never fails in [len as usize + 8], on any input. *)
Theorem as_bytes_capacity_exact :
  (∀ c, valid crc32 c →
     Chunk.as_bytes_capacity c = Ok (length (Chunk.as_bytes c)))
  ∧ (∀ ty data,
       Chunk.as_bytes_capacity (Chunk.new ty data)
       = Ok (Z.to_nat (Z.of_nat (length data) mod U32.modulus) + 12)%nat
       ∧ length (Chunk.as_bytes (Chunk.new ty data))
         = (length data + 12)%nat)
  ∧ (∀ value, Chunk.try_from value ≠ Panic AddOverflow).
Proof.
  split_and!; [|split|apply try_from_no_overflow].
  - intros c Hc. destruct (valid_in_range crc32 c Hc) as (Hlen & _ & _).
    rewrite as_bytes_capacity_length, as_bytes_length by done.
    destruct Hc as (-> & _). f_equal. lia.
  - apply as_bytes_capacity_length, wrap_in_range.
  - rewrite as_bytes_length. cbn [Chunk.new Chunk.data_]. lia.
Qed.

(** [new] truncates the length of the data to 32 bits. *)
Lemma new_length ty data :
  Chunk.length_ (Chunk.new ty data) = Z.of_nat (length data) mod 2 ^ 32.
Proof. done. Qed.

(** C35: the encodings of valid chunks are prefix-free: a buffer starts
    with the encoding of at most one valid chunk, so a sequence of
    encoded chunks is split in one way only. *)
Theorem as_bytes_prefix_free c c' rest rest' :
  valid crc32 c → valid crc32 c' →
  Chunk.as_bytes c ++ rest = Chunk.as_bytes c' ++ rest' →
  c = c' ∧ rest = rest'.
Proof. apply (as_bytes_app_inj crc32). Qed.

(** C36: [data_as_string] returns the data as text when it is well-formed
    UTF-8 and the error otherwise; it never panics. *)
Theorem data_as_string_spec c :
  (well_formed (Chunk.data_ c) →
   Chunk.data_as_string c = Ok (string_of_list_byte (Chunk.data_ c)))
  ∧ (¬ well_formed (Chunk.data_ c) →
     Chunk.data_as_string c = Err DataNotUtf8).
Proof.
  unfold Chunk.data_as_string. split.
  - intros Hd%validation_complete. unfold Utf8.from_utf8. by rewrite Hd.
  - intros Hd%from_utf8_None. by rewrite Hd.
Qed.

End codec.

(** ** [Display] *)

Section display.
Implicit Types (c : Chunk.t) (bs : list byte).

Lemma hex_cons b bs :
  Chunk.hex (b :: bs) = (U8.fmt_02X b ++ Chunk.hex bs)%string.
Proof. unfold Chunk.hex. by destruct bs. Qed.

Lemma hex_length bs : String.length (Chunk.hex bs) = (2 * length bs)%nat.
Proof.
  induction bs as [|b bs IH]; [done|].
  rewrite hex_cons, string_length_app, IH, fmt_02X_length. simpl. lia.
Qed.

Lemma hex_inj bs bs' : Chunk.hex bs = Chunk.hex bs' → bs = bs'.
Proof.
  revert bs'. induction bs as [|b bs IH]; intros [|b' bs'];
    rewrite ?hex_cons; [done..|].
  intros [Hb Hbs]%string_app_inj; [|by rewrite !fmt_02X_length].
  apply fmt_02X_inj in Hb as ->. by rewrite (IH bs').
Qed.

(** The four parts of the rendering. *)
Definition rendering c : string :=
  (Chunk.hex (Arr4.to_vec (U32.to_be_bytes (Chunk.length_ c)))
   ++ string_of_list_byte (Arr4.to_vec (ChunkType.bytes_ (Chunk.chunktype c)))
   ++ Chunk.hex (Chunk.data_ c)
   ++ Chunk.hex (Arr4.to_vec (U32.to_be_bytes (Chunk.crc_ c))))%string.

Lemma rendering_length c :
  String.length (rendering c) = (20 + 2 * length (Chunk.data_ c))%nat.
Proof.
  unfold rendering.
  rewrite !string_length_app, !hex_length, string_of_list_byte_length.
  simpl. lia.
Qed.

(** [fmt] on every chunk: the rendering, or the panic of [to_string]. *)
Lemma fmt_cases c :
  let ty := Arr4.to_vec (ChunkType.bytes_ (Chunk.chunktype c)) in
  (well_formed ty → Chunk.fmt c = Ok (rendering c))
  ∧ (¬ well_formed ty → Chunk.fmt c = Panic DisplayError).
Proof.
  intros ty. unfold Chunk.fmt. split; intros Hty.
  - by rewrite to_string_Ok.
  - by rewrite to_string_Panic.
Qed.

Lemma fmt_Ok_inv c out : Chunk.fmt c = Ok out → out = rendering c.
Proof.
  destruct (fmt_cases c) as [Hok Hpanic]. intros Hout.
  destruct (Utf8.run_utf8_validation
              (Arr4.to_vec (ChunkType.bytes_ (Chunk.chunktype c)))) eqn:Hv.
  - apply validation_sound in Hv. rewrite Hok in Hout by done. congruence.
  - rewrite Hpanic in Hout; [done|]. intros Hwf%validation_complete. congruence.
Qed.

(** The rendering determines the chunk. *)
Lemma rendering_inj c c' :
  well_typed c → well_typed c' → rendering c = rendering c' → c = c'.
Proof.
  intros [Hlen Hcrc] [Hlen' Hcrc'] Heq.
  assert (length (Chunk.data_ c) = length (Chunk.data_ c')) as Hdata.
  { apply (f_equal String.length) in Heq. rewrite !rendering_length in Heq. lia. }
  unfold rendering in Heq.
  apply string_app_inj in Heq as [Hl Heq]; [|by rewrite !hex_length].
  apply string_app_inj in Heq as [Hty Heq];
    [|by rewrite !string_of_list_byte_length].
  apply string_app_inj in Heq as [Hd Hc]; [|by rewrite !hex_length, Hdata].
  apply hex_inj, to_vec_inj, to_be_bytes_inj in Hl, Hc; [|done..].
  apply string_of_list_byte_inj, bytes_inj in Hty. apply hex_inj in Hd.
  destruct c, c'. by simplify_eq/=.
Qed.

(** C38: the text [fmt] writes determines the chunk, and has
    [20 + 2 * data.len()] bytes: two chunks with [u32] fields that render
    to the same text are equal, so no two of the four parts of the
    rendering (length, type, data, checksum) can be confused. *)
Theorem fmt_inj c c' out :
  well_typed c → well_typed c' →
  Chunk.fmt c = Ok out → Chunk.fmt c' = Ok out →
  c = c' ∧ String.length out = (20 + 2 * length (Chunk.data_ c))%nat.
Proof.
  intros Hc Hc' Hout%fmt_Ok_inv Hout'%fmt_Ok_inv.
  split; [apply rendering_inj; congruence|]. subst out. apply rendering_length.
Qed.

End display.

(** ** Witnesses *)

Section examples.
Local Open Scope string_scope.

Definition RuSt_type : ChunkType.t := ChunkType.mk RuSt.

(** A small valid chunk for the witnesses: type ["RuSt"], data ["hi"]. *)
Definition hi_chunk : Chunk.t := Chunk.new RuSt_type (Utf8.as_bytes "hi").

Lemma hi_chunk_valid : valid crc32 hi_chunk.
Proof. by_decide. Qed.

Lemma fmt_inj_witness :
  hi_chunk = hi_chunk
  ∧ String.length "00000002RuSt6869D2BC3F73"
    = (20 + 2 * length (Chunk.data_ hi_chunk))%nat.
Proof.
  apply (fmt_inj hi_chunk hi_chunk "00000002RuSt6869D2BC3F73");
    (by_decide || by vm_compute).
Defined.

Lemma try_from_as_bytes_witness :
  Chunk.try_from (Chunk.as_bytes hi_chunk ++ [x00; xff]) = Ok hi_chunk.
Proof. apply (try_from_as_bytes hi_chunk [x00; xff]), hi_chunk_valid. Defined.

Lemma try_from_Ok_inv_witness :
  valid crc32 hi_chunk
  ∧ ∃ rest, (Chunk.as_bytes hi_chunk ++ [x00])%list
            = (Chunk.as_bytes hi_chunk ++ rest)%list.
Proof.
  apply (try_from_Ok_inv (Chunk.as_bytes hi_chunk ++ [x00]) hi_chunk).
  by vm_compute.
Defined.

Lemma try_from_corrupt_witness :
  ∃ computed, computed ≠ Chunk.crc_ hi_chunk ∧
    Chunk.try_from
      (Arr4.to_vec (U32.to_be_bytes (Chunk.length_ hi_chunk))
       ++ (Utf8.as_bytes "RuSt" ++ Utf8.as_bytes "H" ++ Utf8.as_bytes "i")
       ++ Arr4.to_vec (U32.to_be_bytes (Chunk.crc_ hi_chunk)) ++ [])%list
    = Err (InvalidCrc (Chunk.crc_ hi_chunk) computed).
Proof.
  apply (try_from_corrupt hi_chunk (Utf8.as_bytes "RuSt") (Utf8.as_bytes "h")
           (Utf8.as_bytes "H") (Utf8.as_bytes "i") []);
    [exact hi_chunk_valid|done|done|simpl; lia|done].
Defined.

Lemma try_from_truncated_witness :
  Chunk.try_from (take 9 (Chunk.as_bytes hi_chunk))
  = Panic (SliceEndOutOfRange 10 9).
Proof.
  apply (try_from_truncated hi_chunk 9); [exact hi_chunk_valid|simpl; lia].
Defined.

Lemma try_from_new_witness :
  Chunk.try_from (Chunk.as_bytes (Chunk.new RuSt_type (Utf8.as_bytes "hi")) ++ [])
  = Ok (Chunk.new RuSt_type (Utf8.as_bytes "hi")).
Proof.
  apply (try_from_new RuSt_type (Utf8.as_bytes "hi") []). by vm_compute.
Defined.

Lemma as_bytes_prefix_free_witness :
  hi_chunk = hi_chunk ∧ [x00] = [x00].
Proof.
  apply (as_bytes_prefix_free hi_chunk hi_chunk [x00] [x00]);
    [exact hi_chunk_valid..|done].
Defined.

End examples.
