(* ===== verification/Message.v ===== *)
(** * Message: the text of the errors the sources build

    The three errors that [chunk_type.rs] and [chunk.rs] raise with
    [bail!] carry a message, formatted from a byte, a string or two
    checksums.  [Display.error] is that text, with [{}] on an integer as its
    decimal digits ([Display]).  The other errors of the development come
    from the standard library ([read_exact], [fs::read], [fs::write]) and
    from the container; their text is not in the sources, and
    [Display.error] has none for them.

    The theorems show that the text loses nothing: an error is
    determined by its message. *)

From Stdlib Require Import ZArith List Lia.
From Stdlib Require Import Strings.Byte Strings.String Strings.Ascii.
From Stdlib Require Import Decimal DecimalString DecimalZ.
From stdpp Require Import base tactics option list.
From coqutil Require Import Byte.
From S2P Require Import Prelude.
From S2P Require Import Bytes.
From S2P Require Import Crc32.
From S2P Require Import Utf8.
From S2P Require Import ChunkType.
From S2P Require Import Chunk.

Local Open Scope string_scope.

Module Display.

(** [{}] on an integer. *)
Definition int (z : Z) : string := NilZero.string_of_int (Z.to_int z).

Definition u8 (b : byte) : string := int (byte.unsigned b).

Definition u32 (z : Z) : string := int z.

(** [anyhow::Error]'s [Display]: the message given to [bail!]. *)
Definition error (e : Error) : option string :=
  match e with
  | InvalidByte ch s =>
      Some ("invalid byte: " ++ u8 ch ++ " in " ++ s)
  | InvalidCrc crc valid_crc =>
      Some ("Invalid CRC in the given value: " ++ u32 crc
            ++ ". calculated crc: " ++ u32 valid_crc)
  | DataNotUtf8 => Some "couldn't convert chunk data to string"
  | UnexpectedEof | BadSignature | ChunkNotFound _ | Io _ => None
  end.

End Display.

(** ** The characters of a number *)

(** A digit or the sign. *)
Definition numeral (a : ascii) : bool :=
  bool_decide (a ∈ ["0"; "1"; "2"; "3"; "4"; "5"; "6"; "7"; "8"; "9"; "-"]%char).

Fixpoint numerals (s : string) : bool :=
  match s with
  | EmptyString => true
  | String a s => numeral a && numerals s
  end.

Section numerals.
Implicit Types (s r : string) (a c : ascii) (z : Z) (d : uint).

Lemma uint_numerals d : numerals (NilEmpty.string_of_uint d) = true.
Proof. induction d; by cbn. Qed.

Lemma int_numerals z : numerals (Display.int z) = true.
Proof.
  unfold Display.int. destruct (Z.to_int z) as [[]|[]];
    by (cbn; rewrite ?uint_numerals).
Qed.

(** Two numbers, each followed by the same separator, are told apart. *)
Lemma numerals_sep_inj s s' c r r' :
  numerals s = true → numerals s' = true → numeral c = false →
  s ++ String c r = s' ++ String c r' → s = s' ∧ r = r'.
Proof.
  intros Hs Hs' Hc. revert s' Hs'.
  induction s as [|a s IH]; intros [|a' s'] Hs' Heq; simplify_eq/=.
  - done.
  - by rewrite Hc in Hs'.
  - by rewrite Hc in Hs.
  - apply andb_prop in Hs as [_ Hs], Hs' as [_ Hs'].
    by destruct (IH Hs s' Hs') as [-> ->].
Qed.

Lemma to_int_nonnil z : Z.to_int z ≠ Pos Nil ∧ Z.to_int z ≠ Neg Nil.
Proof.
  pose proof (DecimalZ.to_of (Z.to_int z)) as Hnorm.
  rewrite DecimalZ.of_to in Hnorm.
  split; intros Heq; by rewrite Heq in Hnorm.
Qed.

#[global] Instance int_inj : Inj (=) (=) Display.int.
Proof.
  intros z z' Heq%(f_equal NilZero.int_of_string). unfold Display.int in Heq.
  rewrite !NilZero.isi in Heq by apply to_int_nonnil.
  apply DecimalZ.to_int_inj. congruence.
Qed.

#[global] Instance u8_inj : Inj (=) (=) Display.u8.
Proof.
  intros b b' Heq%(inj Display.int)%(f_equal byte.of_Z).
  by rewrite !byte.of_Z_unsigned in Heq.
Qed.

End numerals.

(** ** An error is determined by its message *)

Section message.
Implicit Types (e : Error) (m s : string) (ch : byte).

Lemma message_InvalidByte_inj ch s ch' s' :
  Display.error (InvalidByte ch s) = Display.error (InvalidByte ch' s') →
  ch = ch' ∧ s = s'.
Proof.
  cbn [Display.error append]. intros Heq. simplify_eq.
  apply numerals_sep_inj in Heq as [Hch Hs];
    [|apply int_numerals..|done].
  split; [by apply (inj Display.u8)|]. by simplify_eq/=.
Qed.

Lemma message_InvalidCrc_inj crc valid_crc crc' valid_crc' :
  Display.error (InvalidCrc crc valid_crc)
  = Display.error (InvalidCrc crc' valid_crc') →
  crc = crc' ∧ valid_crc = valid_crc'.
Proof.
  cbn [Display.error append]. intros Heq. simplify_eq.
  apply numerals_sep_inj in Heq as [Hcrc Hvalid];
    [|apply int_numerals..|done].
  split; [by apply (inj Display.int)|].
  apply (inj Display.int). by simplify_eq/=.
Qed.

(** C37: the text of an error loses nothing.  Two errors with the same
    message are the same error: the message tells the three kinds of
    error apart, and gives back the byte and the string of an invalid
    type and the two checksums of a corrupted chunk, because a number
    printed in decimal ends where its separator begins. *)
Theorem message_inj e e' m :
  Display.error e = Some m → Display.error e' = Some m → e = e'.
Proof.
  intros He He'.
  assert (Display.error e = Display.error e') as Heq by congruence.
  destruct e; try done; destruct e'; try done;
    try (cbn [Display.error append] in Heq; by simplify_eq).
  - by apply message_InvalidByte_inj in Heq as [-> ->].
  - by apply message_InvalidCrc_inj in Heq as [-> ->].
Qed.

End message.

(** ** The errors of the sources and their messages *)

Section sources.
Implicit Types (e : Error) (s : string) (c : Chunk.t) (value : list byte).

(** [from_str] fails with the message that names a byte of the string
    that is not a letter, and the string. *)
Lemma from_str_Err_message s e :
  ChunkType.from_str s = Err e →
  ∃ ch, U8.is_ascii_alphabetic ch = false ∧ ch ∈ Utf8.as_bytes s
        ∧ Display.error e
          = Some ("invalid byte: " ++ Display.u8 ch ++ " in " ++ s).
Proof.
  unfold ChunkType.from_str.
  destruct (from_str_cases s)
    as [[Hs Hlen]|[(pre & ch & post & Hs & ? & ? & ?)
                  |(pre & post & Hs & ? & ?)]].
  - by destruct (from_str_loop_init s _ Hs Hlen) as (ct & -> & _).
  - rewrite Hs, from_str_loop_Err by done. intros [= <-]. exists ch.
    split; [done|]. split; [|done].
    apply elem_of_app. right. apply list_elem_of_here.
  - by rewrite Hs, from_str_loop_Panic by (done || lia).
Qed.

Lemma data_as_string_Err_message c e :
  Chunk.data_as_string c = Err e →
  Display.error e = Some "couldn't convert chunk data to string".
Proof.
  unfold Chunk.data_as_string. destruct (Utf8.from_utf8 _); [done|].
  by intros [= <-].
Qed.

(** [try_from] fails with the error of a short read, or with the message
    that gives the checksum stored and the different one computed. *)
Lemma try_from_Err_message value e :
  Chunk.try_from value = Err e →
  e = UnexpectedEof
  ∨ ∃ crc valid_crc, crc ≠ valid_crc ∧
      Display.error e
      = Some ("Invalid CRC in the given value: " ++ Display.u32 crc
              ++ ". calculated crc: " ++ Display.u32 valid_crc).
Proof.
  rewrite try_from_spec_decode. unfold spec_decode.
  repeat case_decide; intros [= <-]; [by left..|]. right. eauto.
Qed.

End sources.

(** ** The messages of two failures *)

Section message_examples.

Example message_invalid_byte :
  Display.error (InvalidByte "1" "Ru1t") = Some "invalid byte: 49 in Ru1t".
Proof. reflexivity. Qed.

Example message_invalid_crc :
  Display.error (InvalidCrc 2882656333 2882656334)
  = Some "Invalid CRC in the given value: 2882656333. calculated crc: 2882656334".
Proof. reflexivity. Qed.

Lemma message_inj_witness :
  InvalidByte "1" "Ru1t" = InvalidByte "1" "Ru1t".
Proof.
  by apply (message_inj _ _ "invalid byte: 49 in Ru1t").
Defined.

End message_examples.
