(* ===== verification/Container.v ===== *)
(** * Container: what the command line needs of the PNG container

    [main.rs] works on a [Png] value through six operations ([try_from],
    [as_bytes], [append_chunk], [chunk_by_type], [remove_first_chunk] and
    [Display]); the file that implements them is not among the sources.
    This file states the contract of those operations, taken from section
    4.3 of the specification, as the class [Container.t]: a type with the
    operations and the laws that relate them to the chunk sequence.  [Png.v]
    gives the implementation and proves the laws; [Cli.v] proves the
    commands correct for every implementation of the class. *)

From Stdlib Require Import ZArith List Lia.
From Stdlib Require Import Strings.Byte Strings.String.
From stdpp Require Import base tactics option list.
From S2P Require Import Prelude.
From S2P Require Import Bytes.
From S2P Require Import Crc32.
From S2P Require Import Utf8.
From S2P Require Import ChunkType.
From S2P Require Import Chunk.

(** ** Searching and removing in a sequence *)

Section sequences.
Context {A : Type}.
Implicit Types (f : A → bool) (l : list A) (c : A).

(** The first element that satisfies [f], and the list without it. *)
Fixpoint remove_first f l : option (A * list A) :=
  match l with
  | [] => None
  | c :: l =>
      if f c then Some (c, l)
      else '(r, l') ← remove_first f l; Some (r, c :: l')
  end.

Lemma find_head_filter f l : List.find f l = head (List.filter f l).
Proof. induction l as [|c l IH]; [done|]. simpl. by destruct (f c). Qed.

Lemma find_None_Forall f l :
  List.find f l = None ↔ Forall (λ c, f c = false) l.
Proof.
  induction l as [|c l IH]; simpl; [by split; [constructor|]|].
  rewrite Forall_cons_iff. destruct (f c); naive_solver.
Qed.

Lemma filter_nil_Forall f l :
  List.filter f l = [] ↔ Forall (λ c, f c = false) l.
Proof.
  induction l as [|c l IH]; simpl; [by split; [constructor|]|].
  rewrite Forall_cons_iff. destruct (f c); naive_solver.
Qed.

Lemma filter_sublist f l : List.filter f l `sublist_of` l.
Proof.
  induction l as [|c l IH]; simpl; [constructor|].
  destruct (f c); by constructor.
Qed.

Lemma remove_first_None f l :
  remove_first f l = None ↔ Forall (λ c, f c = false) l.
Proof.
  induction l as [|c l IH]; simpl; [by split; [constructor|]|].
  rewrite Forall_cons_iff, <- IH.
  destruct (f c); [naive_solver|].
  destruct (remove_first f l) as [[]|]; naive_solver.
Qed.

(** [remove_first] splits the list at the first element that satisfies
    the test. *)
Lemma remove_first_app f l1 c l2 :
  Forall (λ x, f x = false) l1 → f c = true →
  remove_first f (l1 ++ c :: l2) = Some (c, l1 ++ l2).
Proof.
  intros Hl1 Hc. induction Hl1 as [|x l1 Hx _ IH]; simpl; [by rewrite Hc|].
  by rewrite Hx, IH.
Qed.

Lemma remove_first_Some_inv f l c l' :
  remove_first f l = Some (c, l') →
  ∃ l1 l2, l = l1 ++ c :: l2 ∧ l' = l1 ++ l2 ∧ f c = true
           ∧ Forall (λ x, f x = false) l1.
Proof.
  revert l'. induction l as [|x l IH]; intros l'; simpl; [done|].
  destruct (f x) eqn:Hx; [intros [= <- <-]; by exists [], l|].
  destruct (remove_first f l) as [[r l'']|]; [|done].
  intros [= <- <-]. destruct (IH l'' eq_refl) as (l1 & l2 & -> & -> & ? & ?).
  exists (x :: l1), l2. by repeat split; [|constructor].
Qed.

Lemma remove_first_Some f l c l' :
  remove_first f l = Some (c, l') ↔
  ∃ l1 l2, l = l1 ++ c :: l2 ∧ l' = l1 ++ l2 ∧ f c = true
           ∧ Forall (λ x, f x = false) l1.
Proof.
  split; [apply remove_first_Some_inv|].
  intros (l1 & l2 & -> & -> & ? & ?). by apply remove_first_app.
Qed.


Lemma find_app_r f l l' :
  List.find f l = None → List.find f (l ++ l') = List.find f l'.
Proof.
  induction l as [|c l IH]; simpl; [done|]. by destruct (f c).
Qed.

Lemma find_app_l f l l' c :
  List.find f l = Some c → List.find f (l ++ l') = Some c.
Proof.
  induction l as [|x l IH]; simpl; [done|]. by destruct (f x).
Qed.

End sequences.

(** ** Chunks by the text of their type, and their encoding in sequence *)

(** The eight signature bytes of the format. *)
Definition signature : list byte := [x89; x50; x4e; x47; x0d; x0a; x1a; x0a].

(** The textual rendering of the type of [chunk] is [chunk_type]; a type
    that has no rendering matches no text. *)
Definition has_type (chunk_type : string) (chunk : Chunk.t) : bool :=
  bool_decide (ChunkType.fmt (Chunk.chunk_type chunk) = Some chunk_type).

(** The encoding of a chunk sequence, without the signature. *)
Definition encode_chunks cs : list byte := concat (Chunk.as_bytes <$> cs).

Lemma encode_chunks_cons c cs :
  encode_chunks (c :: cs) = Chunk.as_bytes c ++ encode_chunks cs.
Proof. done. Qed.

Lemma encode_chunks_app cs cs' :
  encode_chunks (cs ++ cs') = encode_chunks cs ++ encode_chunks cs'.
Proof. unfold encode_chunks. by rewrite fmap_app, concat_app. Qed.

Lemma encode_chunks_length cs : (12 * length cs ≤ length (encode_chunks cs))%nat.
Proof.
  induction cs as [|c cs IH]; [done|].
  rewrite encode_chunks_cons, length_app, as_bytes_length. simpl. lia.
Qed.


Lemma has_type_new ty ct data :
  ChunkType.fmt ct = Some ty → has_type ty (Chunk.new ct data) = true.
Proof. intros Hfmt. by apply bool_decide_eq_true. Qed.

(** ** The contract *)

Module Container.

Class t (P : Type) : Type := {
  (** The chunk sequence a container holds. *)
  chunks : P → list Chunk.t;
  try_from : list byte → outcome P;
  as_bytes : P → list byte;
  append_chunk : P → Chunk.t → P;
  chunk_by_type : P → string → option Chunk.t;
  remove_first_chunk : P → string → outcome (Chunk.t * P);
  fmt : P → outcome string;
  (** The rendering of a chunk sequence. *)
  render : list Chunk.t → outcome string;
  (** The encoding is the signature, then the chunks in order. *)
  as_bytes_chunks p : as_bytes p = signature ++ encode_chunks (chunks p);
  (** What decodes is an encoding, of valid chunks. *)
  try_from_Ok bytes p :
    try_from bytes = Ok p →
    bytes = as_bytes p ∧ Forall (valid crc32) (chunks p);
  (** The encoding of valid chunks decodes to them. *)
  try_from_as_bytes_valid p :
    Forall (valid crc32) (chunks p) →
    ∃ p', try_from (as_bytes p) = Ok p' ∧ chunks p' = chunks p;
  chunks_append_chunk p c : chunks (append_chunk p c) = chunks p ++ [c];
  chunk_by_type_find p ty :
    chunk_by_type p ty = List.find (has_type ty) (chunks p);
  remove_first_chunk_Some p ty c l :
    remove_first (has_type ty) (chunks p) = Some (c, l) →
    ∃ p', remove_first_chunk p ty = Ok (c, p') ∧ chunks p' = l;
  remove_first_chunk_None p ty :
    remove_first (has_type ty) (chunks p) = None →
    remove_first_chunk p ty = Err (ChunkNotFound ty);
  (** A container is rendered by its chunks. *)
  fmt_render p : fmt p = render (chunks p);
}.

End Container.

(** ** Consequences of the contract *)

Section container_laws.
Context {P : Type} `{!Container.t P}.
Implicit Types (p : P) (c : Chunk.t) (ty : string) (bytes : list byte).

(** Containers are compared by the chunks they hold: the contract says
    nothing else of a container, and no operation tells two containers
    with the same chunks apart. *)
#[global] Instance container_equiv : Equiv P :=
  λ p p', Container.chunks p = Container.chunks p'.

#[global] Instance container_equivalence : Equivalence (≡@{P}).
Proof.
  unfold equiv, container_equiv. split; [done|by intros ??|].
  intros ??? -> ->. done.
Qed.

#[global] Instance chunks_proper : Proper ((≡) ==> (=)) Container.chunks.
Proof. by intros p p' Hp. Qed.

#[global] Instance as_bytes_proper : Proper ((≡) ==> (=)) Container.as_bytes.
Proof. intros p p' Hp. by rewrite !Container.as_bytes_chunks, Hp. Qed.

#[global] Instance chunk_by_type_proper :
  Proper ((≡) ==> (=) ==> (=)) Container.chunk_by_type.
Proof. intros p p' Hp ty ? <-. by rewrite !Container.chunk_by_type_find, Hp. Qed.

#[global] Instance append_chunk_proper :
  Proper ((≡) ==> (=) ==> (≡)) Container.append_chunk.
Proof.
  intros p p' Hp c ? <-. unfold equiv, container_equiv.
  by rewrite !Container.chunks_append_chunk, Hp.
Qed.

(** The encoding of valid chunks decodes to an equivalent container. *)
Lemma try_from_as_bytes_equiv p :
  Forall (valid crc32) (Container.chunks p) →
  ∃ p', Container.try_from (Container.as_bytes p) = Ok p' ∧ p' ≡ p.
Proof. apply Container.try_from_as_bytes_valid. Qed.

(** The encoding of a decoded container decodes. *)
Lemma try_from_as_bytes_decoded bytes p :
  Container.try_from bytes = Ok p →
  Container.as_bytes p = bytes.
Proof. by intros [-> _]%Container.try_from_Ok. Qed.

(** A decoded container with one more valid chunk encodes to a buffer
    that decodes to those chunks. *)
Lemma append_decodes bytes p c :
  Container.try_from bytes = Ok p → valid crc32 c →
  ∃ p', Container.try_from (Container.as_bytes (Container.append_chunk p c))
        = Ok p'
        ∧ Container.chunks p' = Container.chunks p ++ [c].
Proof.
  intros [_ Hp]%Container.try_from_Ok Hc.
  destruct (Container.try_from_as_bytes_valid (Container.append_chunk p c))
    as (p' & Hp' & Hchunks).
  - rewrite Container.chunks_append_chunk. apply Forall_app. split; [done|].
    by constructor.
  - exists p'. by rewrite Hchunks, Container.chunks_append_chunk in *.
Qed.

(** In a sequence that had no chunk of a type, a chunk of that type
    added at the end is the one found, and the one removed. *)
Lemma chunk_by_type_last p p' c ty :
  Container.chunk_by_type p ty = None → has_type ty c = true →
  Container.chunks p' = Container.chunks p ++ [c] →
  Container.chunk_by_type p' ty = Some c.
Proof.
  rewrite !Container.chunk_by_type_find. intros Hnone Hc ->.
  rewrite find_app_r by done. simpl. by rewrite Hc.
Qed.

(** A chunk added at the end does not change which chunk of a type is
    found, when there was one. *)
Lemma chunk_by_type_first p p' c c0 ty :
  Container.chunk_by_type p ty = Some c0 →
  Container.chunks p' = Container.chunks p ++ [c] →
  Container.chunk_by_type p' ty = Some c0.
Proof.
  rewrite !Container.chunk_by_type_find. intros Hc0 ->. by apply find_app_l.
Qed.

Lemma remove_first_chunk_last p p' c ty :
  Container.chunk_by_type p ty = None → has_type ty c = true →
  Container.chunks p' = Container.chunks p ++ [c] →
  ∃ p'', Container.remove_first_chunk p' ty = Ok (c, p'') ∧ p'' ≡ p.
Proof.
  rewrite Container.chunk_by_type_find. intros Hnone%find_None_Forall Hc Hp'.
  apply Container.remove_first_chunk_Some.
  rewrite Hp', remove_first_app by done. by rewrite app_nil_r.
Qed.

(** Removal keeps the chunks valid. *)
Lemma remove_first_chunk_valid p ty c p' :
  Container.remove_first_chunk p ty = Ok (c, p') →
  Forall (valid crc32) (Container.chunks p) →
  Forall (valid crc32) (Container.chunks p').
Proof.
  intros Hrem Hp.
  destruct (remove_first (has_type ty) (Container.chunks p))
    as [[c' l]|] eqn:Hl.
  - destruct (Container.remove_first_chunk_Some p ty c' l Hl)
      as (p'' & Hrem' & Hchunks).
    rewrite Hrem in Hrem'. injection Hrem' as -> ->. rewrite Hchunks.
    apply remove_first_Some_inv in Hl as (l1 & l2 & Hl & -> & _).
    rewrite Hl in Hp. apply Forall_app in Hp as [? [_ ?]%Forall_cons_iff].
    by apply Forall_app.
  - rewrite Container.remove_first_chunk_None in Hrem by done. done.
Qed.

End container_laws.
