(* ===== verification/Tests.v ===== *)
(** * Tests: the unit tests of [chunk_type.rs] and [chunk.rs]

    Each [#[test]] function is a program in the outcome monad: [unwrap] and
    the assertion macros panic where the Rust ones do, and a test passes
    when it returns [Ok ()].  The theorems state that every test passes;
    the kernel runs them. *)

From Stdlib Require Import ZArith List Lia.
From Stdlib Require Import Strings.Byte Strings.String.
From stdpp Require Import base tactics option list.
From S2P Require Import Prelude.
From S2P Require Import Bytes.
From S2P Require Import Crc32.
From S2P Require Import Utf8.
From S2P Require Import ChunkType.
From S2P Require Import Chunk.

(** ** The assertion macros and [Result::is_err] *)

(** [assert!(cond)] *)
Definition assert (cond : bool) : outcome unit :=
  if cond then Ok () else Panic AssertFailed.

(** [assert_eq!(left, right)] *)
Definition assert_eq {A} `{EqDecision A} (left right : A) : outcome unit :=
  if decide (left = right) then Ok () else Panic AssertFailed.

(** [Result::is_err], on the result of a call that may also panic. *)
Definition is_err {A} (r : outcome A) : outcome bool :=
  match r with
  | Ok _ => Ok false
  | Err _ => Ok true
  | Panic p => Panic p
  end.

Module ChunkTypeTests.
Local Open Scope string_scope.

Definition test_chunk_type_from_bytes : outcome unit :=
  let expected := Arr4.mk x52 x75 x53 x74 in
  actual ← unwrap (ChunkType.try_from (Arr4.mk x52 x75 x53 x74));
  assert_eq expected (ChunkType.bytes actual).

Definition test_chunk_type_from_str : outcome unit :=
  expected ← unwrap (ChunkType.try_from (Arr4.mk x52 x75 x53 x74));
  actual ← unwrap (ChunkType.from_str "RuSt");
  assert_eq expected actual.

Definition test_chunk_type_is_critical : outcome unit :=
  chunk ← unwrap (ChunkType.from_str "RuSt");
  assert (ChunkType.is_critical chunk).

Definition test_chunk_type_is_not_critical : outcome unit :=
  chunk ← unwrap (ChunkType.from_str "ruSt");
  assert (negb (ChunkType.is_critical chunk)).

Definition test_chunk_type_is_public : outcome unit :=
  chunk ← unwrap (ChunkType.from_str "RUSt");
  assert (ChunkType.is_public chunk).

Definition test_chunk_type_is_not_public : outcome unit :=
  chunk ← unwrap (ChunkType.from_str "RuSt");
  assert (negb (ChunkType.is_public chunk)).

Definition test_chunk_type_is_reserved_bit_valid : outcome unit :=
  chunk ← unwrap (ChunkType.from_str "RuSt");
  assert (ChunkType.is_reserved_bit_valid chunk).

Definition test_chunk_type_is_reserved_bit_invalid : outcome unit :=
  chunk ← unwrap (ChunkType.from_str "Rust");
  assert (negb (ChunkType.is_reserved_bit_valid chunk)).

Definition test_chunk_type_is_safe_to_copy : outcome unit :=
  chunk ← unwrap (ChunkType.from_str "RuSt");
  assert (ChunkType.is_safe_to_copy chunk).

Definition test_chunk_type_is_unsafe_to_copy : outcome unit :=
  chunk ← unwrap (ChunkType.from_str "RuST");
  assert (negb (ChunkType.is_safe_to_copy chunk)).

Definition test_valid_chunk_is_valid : outcome unit :=
  chunk ← unwrap (ChunkType.from_str "RuSt");
  assert (ChunkType.is_valid chunk).

Definition test_invalid_chunk_is_valid : outcome unit :=
  chunk ← unwrap (ChunkType.from_str "Rust");
  _ ← assert (negb (ChunkType.is_valid chunk));
  let chunk := ChunkType.from_str "Ru1t" in
  is_err chunk ≫= assert.

Definition test_chunk_type_string : outcome unit :=
  chunk ← unwrap (ChunkType.from_str "RuSt");
  text ← ChunkType.to_string chunk;
  assert_eq text "RuSt".

Definition test_chunk_type_trait_impls : outcome unit :=
  chunk_type_1 ← unwrap (ChunkType.try_from (Arr4.mk x52 x75 x53 x74));
  chunk_type_2 ← unwrap (ChunkType.from_str "RuSt");
  _chunk_string ← ChunkType.to_string chunk_type_1;
  let _are_chunks_equal := bool_decide (chunk_type_1 = chunk_type_2) in
  Ok ().

(** The tests of the module, in the order of the file. *)
Definition tests : list (outcome unit) :=
  [ test_chunk_type_from_bytes; test_chunk_type_from_str;
    test_chunk_type_is_critical; test_chunk_type_is_not_critical;
    test_chunk_type_is_public; test_chunk_type_is_not_public;
    test_chunk_type_is_reserved_bit_valid;
    test_chunk_type_is_reserved_bit_invalid;
    test_chunk_type_is_safe_to_copy; test_chunk_type_is_unsafe_to_copy;
    test_valid_chunk_is_valid; test_invalid_chunk_is_valid;
    test_chunk_type_string; test_chunk_type_trait_impls ].

End ChunkTypeTests.

Module ChunkTests.
Local Open Scope string_scope.

Definition message : string := "This is where your secret message will be!".

(** The encoded chunk the tests build, with the checksum [crc] they put
    in it. *)
Definition chunk_data (crc : Z) : list byte :=
  let data_length := 42 in
  let chunk_type := Utf8.as_bytes "RuSt" in
  let message_bytes := Utf8.as_bytes message in
  Arr4.to_vec (U32.to_be_bytes data_length) ++ chunk_type ++ message_bytes
  ++ Arr4.to_vec (U32.to_be_bytes crc).

(** [fn testing_chunk() -> Chunk] *)
Definition testing_chunk : outcome Chunk.t :=
  unwrap (Chunk.try_from (chunk_data 2882656334)).

Definition test_new_chunk : outcome unit :=
  chunk_type ← unwrap (ChunkType.from_str "RuSt");
  let data := Utf8.as_bytes message in
  let chunk := Chunk.new chunk_type data in
  _ ← assert_eq (Chunk.length chunk) 42;
  assert_eq (Chunk.crc chunk) 2882656334.

Definition test_chunk_length : outcome unit :=
  chunk ← testing_chunk;
  assert_eq (Chunk.length chunk) 42.

Definition test_chunk_type : outcome unit :=
  chunk ← testing_chunk;
  text ← ChunkType.to_string (Chunk.chunk_type chunk);
  assert_eq text "RuSt".

Definition test_chunk_string : outcome unit :=
  chunk ← testing_chunk;
  chunk_string ← unwrap (Chunk.data_as_string chunk);
  let expected_chunk_string := message in
  assert_eq chunk_string expected_chunk_string.

Definition test_chunk_crc : outcome unit :=
  chunk ← testing_chunk;
  assert_eq (Chunk.crc chunk) 2882656334.

Definition test_valid_chunk_from_bytes : outcome unit :=
  chunk ← unwrap (Chunk.try_from (chunk_data 2882656334));
  chunk_string ← unwrap (Chunk.data_as_string chunk);
  let expected_chunk_string := message in
  _ ← assert_eq (Chunk.length chunk) 42;
  text ← ChunkType.to_string (Chunk.chunk_type chunk);
  _ ← assert_eq text "RuSt";
  _ ← assert_eq chunk_string expected_chunk_string;
  assert_eq (Chunk.crc chunk) 2882656334.

Definition test_invalid_chunk_from_bytes : outcome unit :=
  let chunk := Chunk.try_from (chunk_data 2882656333) in
  is_err chunk ≫= assert.

Definition test_chunk_trait_impls : outcome unit :=
  chunk ← unwrap (Chunk.try_from (chunk_data 2882656334));
  _chunk_string ← Chunk.fmt chunk;
  Ok ().

Definition tests : list (outcome unit) :=
  [ test_new_chunk; test_chunk_length; test_chunk_type; test_chunk_string;
    test_chunk_crc; test_valid_chunk_from_bytes;
    test_invalid_chunk_from_bytes; test_chunk_trait_impls ].

End ChunkTests.

(** ** The assertions *)

Section assertions.
Context {A : Type} `{EqDecision A}.

Lemma assert_Ok cond : assert cond = Ok () ↔ cond = true.
Proof. destruct cond; naive_solver. Qed.

Lemma assert_eq_Ok (left right : A) : assert_eq left right = Ok () ↔ left = right.
Proof. unfold assert_eq. case_decide; naive_solver. Qed.

Lemma assert_never_Err cond : is_Err (assert cond) = false.
Proof. by destruct cond. Qed.

End assertions.

(** ** The tests pass *)

Section tests_pass.
Local Open Scope string_scope.

(** The model agrees with the repository's tests: the twenty-two unit
    tests of [chunk_type.rs] and [chunk.rs] pass on it, none of their
    [unwrap]s and assertions panics.  Among them, the checksum the tests
    expect for the message is the one [new] computes, and the encoding
    with a checksum that is off by one is rejected. *)
Example unit_tests_pass :
  Forall (λ t, t = Ok ()) (ChunkTypeTests.tests ++ ChunkTests.tests).
Proof. by_decide. Qed.

Example testing_chunk_eq :
  ChunkTests.testing_chunk
  = Ok (Chunk.new RuSt_type (Utf8.as_bytes ChunkTests.message)).
Proof. by vm_compute. Qed.

Example try_from_wrong_crc :
  Chunk.try_from (ChunkTests.chunk_data 2882656333)
  = Err (InvalidCrc 2882656333 2882656334).
Proof. by vm_compute. Qed.

Example fmt_testing_chunk :
  ChunkTests.testing_chunk ≫= Chunk.fmt
  = Ok ("0000002ARuSt"
        ++ "5468697320697320776865726520796F757220736563726574"
        ++ "206D6573736167652077696C6C20626521" ++ "ABD1D84E").
Proof. by vm_compute. Qed.

(** With the length the specification gives for the message, 44, the
    fixture does not decode: the input ends inside the checksum field. *)
Example chunk_data_44 :
  Chunk.try_from
    (Arr4.to_vec (U32.to_be_bytes 44) ++ drop 4 (ChunkTests.chunk_data 2882656334))
  = Err UnexpectedEof.
Proof. by vm_compute. Qed.

End tests_pass.
