(* ===== verification/Png.v ===== *)
(** * Png: the container, a signature followed by chunks

    [main.rs] declares [mod png] and uses [Png], but [png.rs] is not among
    the sources: this file models the container from the specification
    (section 4.3), on top of the chunk codec of [Chunk.v].  The decode
    loop is given twice, on fuel ([Png.decode_chunks], which evaluates)
    and by well-founded recursion on the length of the buffer
    ([decode_loop]), and the two are proved equal.  The instance
    [png_container] shows that [Png.t] meets the contract [Container.t],
    so the theorems of [Cli.v] and [Session.v] hold for it. *)

From Equations Require Import Equations.
From Equations.Prop Require Import Logic.
From Stdlib Require Import ZArith List Lia.
From Stdlib Require Import Strings.Byte Strings.String.
From stdpp Require Import base tactics option list.
From S2P Require Import Prelude.
From S2P Require Import Bytes.
From S2P Require Import Crc32.
From S2P Require Import Utf8.
From S2P Require Import ChunkType.
From S2P Require Import Chunk.
From S2P Require Import Container.

Module Png.

(** The fixed eight-byte signature. *)
Definition STANDARD_HEADER : list byte :=
  [x89; x50; x4e; x47; x0d; x0a; x1a; x0a].

(** A container is its chunk sequence; the signature is a constant. *)
Record t : Type := mk { chunks : list Chunk.t }.

#[global] Instance eq_dec : EqDecision t.
Proof. solve_decision. Defined.

Definition from_chunks (chunks : list Chunk.t) : t := mk chunks.

Definition append_chunk (self : t) (chunk : Chunk.t) : t :=
  mk (chunks self ++ [chunk]).

Definition chunks_by_type (self : t) (chunk_type : string) : list Chunk.t :=
  List.filter (has_type chunk_type) (chunks self).

Definition chunk_by_type (self : t) (chunk_type : string) : option Chunk.t :=
  List.find (has_type chunk_type) (chunks self).

(** Returns the removed chunk and the container without it. *)
Definition remove_first_chunk (self : t) (chunk_type : string)
  : outcome (Chunk.t * t) :=
  match remove_first (has_type chunk_type) (chunks self) with
  | Some (chunk, l) => Ok (chunk, mk l)
  | None => Err (ChunkNotFound chunk_type)
  end.

Definition as_bytes (self : t) : list byte :=
  STANDARD_HEADER ++ concat (Chunk.as_bytes <$> chunks self).

(** Decodes chunks until the buffer is exhausted.  Every decoded chunk
    takes at least twelve bytes off the buffer, so [fuel] equal to its
    length is never used up; the last case is not reached from
    [try_from]. *)
Fixpoint decode_chunks (fuel : nat) (bytes : list byte)
  : outcome (list Chunk.t) :=
  match bytes, fuel with
  | [], _ => Ok []
  | _, O => Err UnexpectedEof
  | _, S fuel =>
      chunk ← Chunk.try_from bytes;
      rest ← decode_chunks fuel
                (drop (12 + length (Chunk.data chunk)) bytes);
      Ok (chunk :: rest)
  end.

Definition try_from (bytes : list byte) : outcome t :=
  if decide (take 8 bytes = STANDARD_HEADER) then
    chunks ← decode_chunks (length bytes) (drop 8 bytes);
    Ok (mk chunks)
  else Err BadSignature.

(** The rendering of each chunk, in order. *)
Definition fmt (self : t) : outcome string :=
  strs ← mapM Chunk.fmt (chunks self);
  Ok (String.concat EmptyString strs).

End Png.

(** ** The decode loop *)

Section decode_loop.
Implicit Types (p : Png.t) (cs : list Chunk.t) (c : Chunk.t)
  (bytes rest : list byte) (fuel : nat).

Lemma decode_chunks_nil fuel : Png.decode_chunks fuel [] = Ok [].
Proof. by destruct fuel. Qed.

Lemma decode_chunks_step fuel bytes :
  bytes ≠ [] →
  Png.decode_chunks (S fuel) bytes =
  chunk ← Chunk.try_from bytes;
  rest ← Png.decode_chunks fuel (drop (12 + length (Chunk.data_ chunk)) bytes);
  Ok (chunk :: rest).
Proof. by destruct bytes. Qed.

(** One step on a buffer that starts with an encoded chunk. *)
Lemma decode_chunks_encoded_step fuel c rest :
  valid crc32 c →
  Png.decode_chunks (S fuel) (Chunk.as_bytes c ++ rest) =
  cs ← Png.decode_chunks fuel rest; Ok (c :: cs).
Proof.
  intros Hc. pose proof (as_bytes_length c) as Hlen.
  rewrite decode_chunks_step
    by (intros Hnil%(f_equal length); revert Hnil; solve_len).
  rewrite try_from_spec_decode, (spec_decode_as_bytes crc32) by done.
  cbn [mbind outcome_bind]. by rewrite <- Hlen, drop_app_length.
Qed.

(** A buffer the decoder accepts starts with the encoding of the chunk
    it returns. *)
Lemma try_from_Ok_frame bytes c :
  Chunk.try_from bytes = Ok c →
  valid crc32 c ∧
  bytes = Chunk.as_bytes c ++ drop (12 + length (Chunk.data_ c)) bytes.
Proof.
  rewrite try_from_spec_decode.
  intros [Hc [rest ->]]%(spec_decode_Ok_inv crc32). split; [done|].
  by rewrite <- (as_bytes_length c), drop_app_length.
Qed.

Lemma decode_chunks_encoded cs fuel :
  Forall (valid crc32) cs → (length cs ≤ fuel)%nat →
  Png.decode_chunks fuel (encode_chunks cs) = Ok cs.
Proof.
  revert fuel. induction cs as [|c cs IH]; intros fuel Hcs Hfuel.
  { apply decode_chunks_nil. }
  apply Forall_cons_iff in Hcs as [Hc Hcs].
  destruct fuel as [|fuel]; [simpl in Hfuel; lia|].
  rewrite encode_chunks_cons, decode_chunks_encoded_step by done.
  rewrite IH by (done || simpl in Hfuel; lia). done.
Qed.

Lemma decode_chunks_Ok_inv fuel bytes cs :
  Png.decode_chunks fuel bytes = Ok cs →
  bytes = encode_chunks cs ∧ Forall (valid crc32) cs.
Proof.
  revert bytes cs. induction fuel as [|fuel IH]; intros bytes cs.
  { destruct bytes; [|done]. by intros [= <-]. }
  destruct (decide (bytes = [])) as [->|Hne]; [by intros [= <-]|].
  rewrite decode_chunks_step by done.
  intros (c & Hc & Hrest)%bind_Ok_inv.
  apply bind_Ok_inv in Hrest as (cs' & Hcs' & [= <-]).
  apply try_from_Ok_frame in Hc as [Hc Hbytes].
  apply IH in Hcs' as [Hrest Hcs']. split; [|by constructor].
  by rewrite encode_chunks_cons, <- Hrest.
Qed.

(** Fuel beyond the length of the buffer changes nothing. *)
Lemma decode_chunks_fuel fuel fuel' bytes :
  (length bytes ≤ fuel)%nat → (length bytes ≤ fuel')%nat →
  Png.decode_chunks fuel bytes = Png.decode_chunks fuel' bytes.
Proof.
  revert fuel' bytes. induction fuel as [|fuel IH]; intros fuel' bytes Hf Hf'.
  { destruct bytes; [|simpl in Hf; lia]. by rewrite !decode_chunks_nil. }
  destruct (decide (bytes = [])) as [->|Hne]; [by rewrite !decode_chunks_nil|].
  destruct fuel' as [|fuel']; [destruct bytes; [done|simpl in Hf'; lia]|].
  rewrite !decode_chunks_step by done.
  destruct (Chunk.try_from bytes) as [c| |] eqn:Hc; [|done..].
  apply try_from_Ok_frame in Hc as [_ Hbytes]. cbn [mbind outcome_bind].
  apply (f_equal length) in Hbytes.
  rewrite length_app, as_bytes_length in Hbytes.
  by rewrite (IH fuel') by lia.
Qed.

End decode_loop.

(** ** The loop without fuel *)

(** The chunk loop as the specification words it: decode a chunk, drop
    it from the buffer, repeat until the buffer is exhausted.  The
    recursion is well-founded on the length of the buffer, because a
    chunk that decodes takes at least twelve bytes.  [decode_chunks] is
    the form that evaluates; this one states what it computes. *)
Equations? decode_loop (bytes : list byte) : outcome (list Chunk.t)
  by wf (length bytes) lt :=
  decode_loop [] := Ok [];
  decode_loop (b :: bs) with inspect (Chunk.try_from (b :: bs)) := {
    | exist _ (Ok chunk) Hchunk =>
        rest ← decode_loop (drop (12 + length (Chunk.data chunk)) (b :: bs));
        Ok (chunk :: rest)
    | exist _ (Err e) _ => Err e
    | exist _ (Panic p) _ => Panic p }.
Proof.
  apply try_from_Ok_frame in Hchunk as [_ Hchunk].
  apply (f_equal length) in Hchunk.
  rewrite length_app, as_bytes_length in Hchunk.
  unfold Chunk.data. simpl in *. lia.
Qed.

Section loop_termination.
Implicit Types (bytes : list byte) (fuel : nat).

(** One iteration of the loop, in the form of [decode_chunks_step]. *)
Lemma decode_loop_step bytes :
  bytes ≠ [] →
  decode_loop bytes =
  chunk ← Chunk.try_from bytes;
  rest ← decode_loop (drop (12 + length (Chunk.data_ chunk)) bytes);
  Ok (chunk :: rest).
Proof.
  destruct bytes as [|b bs]; [done|]. intros _. simp decode_loop.
  destruct (inspect (Chunk.try_from (b :: bs))) as [[c|e|pn] Hc];
    simp decode_loop; by rewrite Hc.
Qed.

(** Fuel of a twelfth of the length of the buffer is enough. *)
Lemma decode_chunks_loop fuel bytes :
  (length bytes ≤ 12 * fuel)%nat → Png.decode_chunks fuel bytes = decode_loop bytes.
Proof.
  revert bytes. induction fuel as [|fuel IH]; intros bytes Hfuel.
  { destruct bytes; [by simp decode_loop|simpl in Hfuel; lia]. }
  destruct (decide (bytes = [])) as [->|Hne];
    [by rewrite decode_chunks_nil; simp decode_loop|].
  rewrite decode_chunks_step, decode_loop_step by done.
  destruct (Chunk.try_from bytes) as [c| |] eqn:Hc; [|done..].
  apply try_from_Ok_frame in Hc as [_ Hbytes]. cbn [mbind outcome_bind].
  apply (f_equal length) in Hbytes.
  rewrite length_app, as_bytes_length in Hbytes. by rewrite IH by lia.
Qed.

(** C14: the chunk loop of the container decoder terminates, and fuel of
    one twelfth of the length of the buffer is enough for it: with that
    much fuel or more, the loop on fuel returns what the loop defined by
    well-founded recursion on the length of the buffer returns, so the
    out-of-fuel answer is never given. *)
Theorem decode_chunks_terminates fuel bytes :
  (length bytes ≤ 12 * fuel)%nat →
  Png.decode_chunks fuel bytes = decode_loop bytes
  ∧ Png.decode_chunks fuel bytes = Png.decode_chunks (length bytes) bytes.
Proof.
  intros Hfuel. rewrite !decode_chunks_loop by lia. done.
Qed.

(** [try_from] is the signature check followed by the loop. *)
Lemma png_try_from_loop bytes :
  Png.try_from bytes =
  if decide (take 8 bytes = Png.STANDARD_HEADER)
  then cs ← decode_loop (drop 8 bytes); Ok (Png.mk cs)
  else Err BadSignature.
Proof.
  unfold Png.try_from. case_decide; [|done].
  by rewrite decode_chunks_loop by solve_len.
Qed.

End loop_termination.

(** ** Decoding and encoding a container *)

Section container_codec.
Implicit Types (p : Png.t) (cs : list Chunk.t) (c : Chunk.t)
  (bytes rest bad : list byte) (fuel : nat).

Lemma png_as_bytes_eq p :
  Png.as_bytes p = Png.STANDARD_HEADER ++ encode_chunks (Png.chunks p).
Proof. done. Qed.

(** [try_from] on a buffer that starts with the signature. *)
Lemma png_try_from_signed rest :
  Png.try_from (Png.STANDARD_HEADER ++ rest) =
  cs ← Png.decode_chunks (length rest) rest; Ok (Png.mk cs).
Proof.
  unfold Png.try_from.
  rewrite (take_app_length' _ _ 8), (drop_app_length' _ _ 8) by done.
  rewrite decide_True by done.
  by rewrite (decode_chunks_fuel _ (length rest)) by solve_len.
Qed.

(** The decode loop past a prefix of encoded valid chunks. *)
Lemma decode_chunks_app cs rest fuel :
  Forall (valid crc32) cs →
  Png.decode_chunks (length cs + fuel) (encode_chunks cs ++ rest) =
  cs' ← Png.decode_chunks fuel rest; Ok (cs ++ cs').
Proof.
  induction cs as [|c cs IH]; intros Hcs.
  { change (Png.decode_chunks fuel rest =
            cs' ← Png.decode_chunks fuel rest; Ok cs').
    by destruct (Png.decode_chunks fuel rest). }
  apply Forall_cons_iff in Hcs as [Hc Hcs].
  rewrite encode_chunks_cons, <- app_assoc. cbn [length Nat.add].
  rewrite decode_chunks_encoded_step, IH by done.
  by destruct (Png.decode_chunks fuel rest).
Qed.

Lemma png_decode_encode p :
  Forall (valid crc32) (Png.chunks p) → Png.try_from (Png.as_bytes p) = Ok p.
Proof.
  intros Hp. destruct p as [cs]. rewrite png_as_bytes_eq, png_try_from_signed.
  cbn [Png.chunks] in *. rewrite decode_chunks_encoded; [done..|].
  pose proof (encode_chunks_length cs). lia.
Qed.

Lemma png_encode_decode bytes p :
  Png.try_from bytes = Ok p →
  bytes = Png.as_bytes p ∧ Forall (valid crc32) (Png.chunks p).
Proof.
  unfold Png.try_from. case_decide as Hsig; [|done].
  intros (cs & Hcs & [= <-])%bind_Ok_inv.
  apply decode_chunks_Ok_inv in Hcs as [Hbytes Hcs]. split; [|done].
  rewrite png_as_bytes_eq. cbn [Png.chunks].
  by rewrite <- Hsig, <- Hbytes, take_drop.
Qed.

(** C20: the buffers that decode to a container are exactly the encodings
    of the containers of valid chunks.  Decoding the encoding of a
    container built from valid chunks returns that container, with the
    same chunks in the same order; the decoder accepts nothing but the
    signature followed by well-formed chunks, encoding undoes it byte for
    byte, and every chunk of a decoded container is valid. *)
Theorem png_try_from_Ok_iff bytes p :
  Png.try_from bytes = Ok p ↔
  bytes = Png.as_bytes p ∧ Forall (valid crc32) (Png.chunks p).
Proof.
  split; [apply png_encode_decode|]. intros [-> Hp]. by apply png_decode_encode.
Qed.

(** C21: a chunk that fails to decode fails the whole container in the
    same way, error or panic, however many valid chunks precede it: no
    partial container is returned. *)
Theorem png_try_from_propagates cs bad :
  Forall (valid crc32) cs → bad ≠ [] →
  is_Ok (Chunk.try_from bad) = false →
  Png.try_from (Png.STANDARD_HEADER ++ encode_chunks cs ++ bad) =
  (λ _, Png.mk []) <$> Chunk.try_from bad.
Proof.
  intros Hcs Hbad Hfail. rewrite png_try_from_signed.
  destruct bad as [|b bad]; [done|].
  rewrite (decode_chunks_fuel _
             (length cs + length (encode_chunks cs ++ b :: bad))) by lia.
  rewrite decode_chunks_app by done.
  rewrite (decode_chunks_fuel _ (S (length bad))) by solve_len.
  rewrite decode_chunks_step by done.
  by destruct (Chunk.try_from (b :: bad)).
Qed.

(** C31: a buffer that does not start with the eight signature bytes is
    rejected with the signature error whatever follows, short buffers
    included; a buffer that starts with them is never rejected with that
    error. *)
Theorem png_try_from_BadSignature bytes :
  Png.try_from bytes = Err BadSignature ↔ take 8 bytes ≠ Png.STANDARD_HEADER.
Proof.
  split; [|by intros ?; unfold Png.try_from; rewrite decide_False].
  intros Hdec Hsig. rewrite <- (take_drop 8 bytes), Hsig in Hdec.
  rewrite png_try_from_signed in Hdec.
  apply bind_Err_inv in Hdec as [Hdec|(cs & _ & [=])].
  revert Hdec. generalize (length (drop 8 bytes)) as fuel.
  generalize (drop 8 bytes) as rest. intros rest fuel. revert rest.
  induction fuel as [|fuel IH]; intros rest; [by destruct rest|].
  destruct (decide (rest = [])) as [->|Hne]; [done|].
  rewrite decode_chunks_step by done.
  intros [Hc|(c & Hc & [Hrest|(? & _ & [=])]%bind_Err_inv)]%bind_Err_inv.
  - rewrite try_from_spec_decode in Hc. unfold spec_decode in Hc.
    by repeat case_decide.
  - by eapply IH.
Qed.

End container_codec.

(** ** The chunk sequence: append, search, remove *)

Section sequence.
Implicit Types (p : Png.t) (cs l : list Chunk.t) (c : Chunk.t)
  (ty : string) (f : Chunk.t → bool).

(** [append_chunk] puts the chunk at the end of the sequence, and
    the encoding of the container grows by the encoding of the chunk:
    nothing already encoded changes. *)
Lemma png_append_as_bytes p c :
  Png.chunks (Png.append_chunk p c) = Png.chunks p ++ [c]
  ∧ Png.as_bytes (Png.append_chunk p c) = Png.as_bytes p ++ Chunk.as_bytes c.
Proof.
  split; [done|]. rewrite !png_as_bytes_eq. cbn [Png.append_chunk Png.chunks].
  rewrite encode_chunks_app, <- app_assoc. f_equal. f_equal.
  unfold encode_chunks. simpl. by rewrite app_nil_r.
Qed.

(** [remove_first_chunk] succeeds exactly when the sequence splits at a
    first chunk of the requested type. *)
Lemma remove_first_chunk_Ok p ty c p' :
  Png.remove_first_chunk p ty = Ok (c, p') ↔
  ∃ l1 l2, Png.chunks p = l1 ++ c :: l2 ∧ Png.chunks p' = l1 ++ l2
           ∧ has_type ty c = true
           ∧ Forall (λ x, has_type ty x = false) l1.
Proof.
  unfold Png.remove_first_chunk. destruct p' as [l'].
  rewrite <- (remove_first_Some (has_type ty)).
  destruct (remove_first _ _) as [[]|]; naive_solver.
Qed.

(** It fails exactly when no chunk of the sequence has that type. *)
Lemma remove_first_chunk_Err p ty :
  (Png.remove_first_chunk p ty = Err (ChunkNotFound ty) ↔
   Png.chunks_by_type p ty = [])
  ∧ is_Panic (Png.remove_first_chunk p ty) = false.
Proof.
  unfold Png.remove_first_chunk, Png.chunks_by_type.
  pose proof (remove_first_None (has_type ty) (Png.chunks p)) as Hnone.
  rewrite <- filter_nil_Forall in Hnone.
  destruct (remove_first _ _) as [[]|]; split; naive_solver.
Qed.

(** C29: [remove_first_chunk] on every container.  It succeeds exactly
    when the sequence splits at a first chunk of the requested type, and
    then returns that chunk and the container with the chunks before and
    after it, in their order; it fails, with the error that names the
    type, exactly when no chunk of the sequence has that type; it never
    panics. *)
Theorem remove_first_chunk_spec p ty :
  (∀ c p', Png.remove_first_chunk p ty = Ok (c, p') ↔
     ∃ l1 l2, Png.chunks p = l1 ++ c :: l2 ∧ Png.chunks p' = l1 ++ l2
              ∧ has_type ty c = true
              ∧ Forall (λ x, has_type ty x = false) l1)
  ∧ (Png.remove_first_chunk p ty = Err (ChunkNotFound ty) ↔
     Png.chunks_by_type p ty = [])
  ∧ is_Panic (Png.remove_first_chunk p ty) = false.
Proof.
  split; [intros c p'; apply remove_first_chunk_Ok|].
  apply remove_first_chunk_Err.
Qed.

(** [chunk_by_type] is the first of the chunks [chunks_by_type] returns,
    and those are the chunks of the sequence with the requested type, in
    sequence order. *)
Lemma chunk_by_type_head p ty :
  Png.chunk_by_type p ty = head (Png.chunks_by_type p ty)
  ∧ (∀ c, c ∈ Png.chunks_by_type p ty ↔
          c ∈ Png.chunks p ∧ has_type ty c = true)
  ∧ Png.chunks_by_type p ty `sublist_of` Png.chunks p.
Proof.
  split; [apply find_head_filter|]. unfold Png.chunks_by_type. split.
  - intros c. rewrite !list_elem_of_In. apply filter_In.
  - apply filter_sublist.
Qed.

Lemma remove_append p c ty :
  Png.chunk_by_type p ty = None → has_type ty c = true →
  Png.remove_first_chunk (Png.append_chunk p c) ty = Ok (c, p).
Proof.
  intros Hnone%find_None_Forall Hc.
  unfold Png.remove_first_chunk, Png.append_chunk. cbn [Png.chunks].
  rewrite remove_first_app by done. rewrite app_nil_r. by destruct p.
Qed.

Lemma find_append p c ty :
  Png.chunk_by_type (Png.append_chunk p c) ty =
  match Png.chunk_by_type p ty with
  | Some c' => Some c'
  | None => if has_type ty c then Some c else None
  end.
Proof.
  unfold Png.chunk_by_type, Png.append_chunk. cbn [Png.chunks].
  induction (Png.chunks p) as [|x l IH]; simpl; [done|].
  by destruct (has_type ty x).
Qed.

(** C30: after [append_chunk] on a container that had no chunk of the
    type of the new chunk, [chunk_by_type] finds the new chunk and
    [remove_first_chunk] returns it with the container as it was
    before. *)
Theorem remove_first_chunk_append p c ty :
  Png.chunk_by_type p ty = None → has_type ty c = true →
  Png.chunk_by_type (Png.append_chunk p c) ty = Some c
  ∧ Png.remove_first_chunk (Png.append_chunk p c) ty = Ok (c, p).
Proof.
  intros Hnone Hc. split; [|by apply remove_append].
  by rewrite find_append, Hnone, Hc.
Qed.

End sequence.

(** ** Rendering *)

Section rendering.
Implicit Types (p : Png.t) (cs : list Chunk.t) (c : Chunk.t).

(** The type of the chunk is text. *)
Definition text_type c : Prop :=
  well_formed (Arr4.to_vec (ChunkType.bytes_ (Chunk.chunktype c))).

Lemma mapM_fmt_Ok cs :
  Forall text_type cs → mapM Chunk.fmt cs = Ok (rendering <$> cs).
Proof.
  induction 1 as [|c cs Hc _ IH]; [done|].
  cbn [mapM fmap list_fmap]. rewrite (proj1 (fmt_cases c)) by done.
  cbn [mbind outcome_bind]. by rewrite IH.
Qed.

Lemma mapM_fmt_Panic cs c cs' :
  Forall text_type cs → ¬ text_type c →
  mapM Chunk.fmt (cs ++ c :: cs') = Panic DisplayError.
Proof.
  induction 1 as [|c0 cs Hc0 _ IH]; intros Hc; cbn [app mapM].
  - by rewrite (proj2 (fmt_cases c)).
  - rewrite (proj1 (fmt_cases c0)) by done. cbn [mbind outcome_bind].
    by rewrite IH.
Qed.

(** The container renders as its chunks' renderings in order, and
    panics at the first chunk whose type is not text. *)
Lemma png_fmt_Ok p :
  Forall text_type (Png.chunks p) →
  Png.fmt p = Ok (String.concat EmptyString (rendering <$> Png.chunks p)).
Proof. intros Hp. unfold Png.fmt. by rewrite mapM_fmt_Ok. Qed.

Lemma png_fmt_Panic p cs c cs' :
  Png.chunks p = cs ++ c :: cs' → Forall text_type cs → ¬ text_type c →
  Png.fmt p = Panic DisplayError.
Proof. intros Hp ??. unfold Png.fmt. by rewrite Hp, mapM_fmt_Panic. Qed.

End rendering.

(** ** The implementation meets the contract *)

Section contract.
Implicit Types (p : Png.t) (c : Chunk.t) (ty : string) (l : list Chunk.t).

Lemma png_try_from_as_bytes_chunks p :
  Forall (valid crc32) (Png.chunks p) →
  ∃ p', Png.try_from (Png.as_bytes p) = Ok p' ∧ Png.chunks p' = Png.chunks p.
Proof. intros Hp. exists p. by rewrite png_decode_encode. Qed.

Lemma png_remove_first_chunk_Some p ty c l :
  remove_first (has_type ty) (Png.chunks p) = Some (c, l) →
  ∃ p', Png.remove_first_chunk p ty = Ok (c, p') ∧ Png.chunks p' = l.
Proof.
  intros Hl. exists (Png.mk l). unfold Png.remove_first_chunk. by rewrite Hl.
Qed.

Lemma png_remove_first_chunk_None p ty :
  remove_first (has_type ty) (Png.chunks p) = None →
  Png.remove_first_chunk p ty = Err (ChunkNotFound ty).
Proof. intros Hl. unfold Png.remove_first_chunk. by rewrite Hl. Qed.

Lemma png_fmt_render p : Png.fmt p = Png.fmt (Png.mk (Png.chunks p)).
Proof. by destruct p. Qed.

#[global] Instance png_container : Container.t Png.t := {|
  Container.chunks := Png.chunks;
  Container.try_from := Png.try_from;
  Container.as_bytes := Png.as_bytes;
  Container.append_chunk := Png.append_chunk;
  Container.chunk_by_type := Png.chunk_by_type;
  Container.remove_first_chunk := Png.remove_first_chunk;
  Container.fmt := Png.fmt;
  Container.render := λ l, Png.fmt (Png.mk l);
  Container.as_bytes_chunks := png_as_bytes_eq;
  Container.try_from_Ok := png_encode_decode;
  Container.try_from_as_bytes_valid := png_try_from_as_bytes_chunks;
  Container.chunks_append_chunk := λ p c, eq_refl;
  Container.chunk_by_type_find := λ p ty, eq_refl;
  Container.remove_first_chunk_Some := png_remove_first_chunk_Some;
  Container.remove_first_chunk_None := png_remove_first_chunk_None;
  Container.fmt_render := png_fmt_render;
|}.

End contract.

(** ** Witnesses *)

Section png_examples.
Local Open Scope string_scope.

Definition hi_png : Png.t := Png.mk [hi_chunk; hi_chunk].

Lemma hi_png_valid : Forall (valid crc32) (Png.chunks hi_png).
Proof. by_decide. Qed.

Lemma decode_chunks_terminates_witness :
  Png.decode_chunks 3 (encode_chunks [hi_chunk; hi_chunk])
  = decode_loop (encode_chunks [hi_chunk; hi_chunk])
  ∧ Png.decode_chunks 3 (encode_chunks [hi_chunk; hi_chunk])
    = Png.decode_chunks (length (encode_chunks [hi_chunk; hi_chunk]))
        (encode_chunks [hi_chunk; hi_chunk]).
Proof.
  apply (decode_chunks_terminates 3 (encode_chunks [hi_chunk; hi_chunk])).
  vm_compute. lia.
Defined.

Lemma png_try_from_Ok_iff_witness :
  Png.try_from (Png.as_bytes hi_png) = Ok hi_png.
Proof.
  apply (png_try_from_Ok_iff (Png.as_bytes hi_png) hi_png).
  split; [done|apply hi_png_valid].
Defined.

Lemma png_try_from_propagates_witness :
  Png.try_from (Png.STANDARD_HEADER ++ encode_chunks [hi_chunk] ++ [x00])%list
  = (λ _, Png.mk []) <$> Chunk.try_from [x00].
Proof.
  apply (png_try_from_propagates [hi_chunk] [x00]); [by_decide|done..].
Defined.

Lemma remove_first_chunk_append_witness :
  Png.chunk_by_type (Png.append_chunk (Png.mk []) hi_chunk) "RuSt"
  = Some hi_chunk
  ∧ Png.remove_first_chunk (Png.append_chunk (Png.mk []) hi_chunk) "RuSt"
    = Ok (hi_chunk, Png.mk []).
Proof.
  apply (remove_first_chunk_append (Png.mk []) hi_chunk "RuSt"); done.
Defined.

Example png_bad_signature : Png.try_from (Utf8.as_bytes "GIF89a..") = Err BadSignature.
Proof. done. Qed.

Example png_remove_first_of_two :
  Png.remove_first_chunk hi_png "RuSt" = Ok (hi_chunk, Png.mk [hi_chunk])
  ∧ Png.remove_first_chunk hi_png "ruSt" = Err (ChunkNotFound "ruSt").
Proof. by vm_compute. Qed.

End png_examples.
