(* ===== verification/Decoder.v ===== *)
(** * Decoder: the chunk loop of the container as a transition system

    The container decoder repeats one action, decoding a chunk from the
    front of what is left of the buffer, until the buffer is exhausted or
    a chunk fails.  This file gives the loop as a machine: a state is the
    rest of the buffer with the chunks decoded so far, or the result the
    loop has halted with; [next] is one iteration and [step] the same as
    a relation.  The theorems are about its runs: a step never changes
    the answer the loop of [Png.v] gives for the state, every step
    shortens the buffer, so every run halts, and it halts with what
    [Png.decode_chunks] returns. *)

From Equations Require Import Equations.
From Stdlib Require Import ZArith List Lia.
From Stdlib Require Import Strings.Byte Strings.String.
From stdpp Require Import base tactics option list relations.
From S2P Require Import Prelude.
From S2P Require Import Bytes.
From S2P Require Import Crc32.
From S2P Require Import ChunkType.
From S2P Require Import Chunk.
From S2P Require Import Container.
From S2P Require Import Png.

Module Decoder.

(** The loop is decoding, or has halted with its result. *)
Inductive state : Type :=
  | Running (rest : list byte) (acc : list Chunk.t)
  | Halted (result : outcome (list Chunk.t)).

#[global] Instance state_eq_dec : EqDecision state.
Proof. solve_decision. Defined.

(** One iteration: stop at the end of the buffer, else decode a chunk
    and go on behind it, or halt with its failure. *)
Definition next (s : state) : option state :=
  match s with
  | Halted _ => None
  | Running [] acc => Some (Halted (Ok acc))
  | Running rest acc =>
      match Chunk.try_from rest with
      | Ok chunk =>
          Some (Running (drop (12 + length (Chunk.data chunk)) rest)
                        (acc ++ [chunk]))
      | Err e => Some (Halted (Err e))
      | Panic p => Some (Halted (Panic p))
      end
  end.

(** [fuel] iterations, or as many as the machine makes. *)
Fixpoint run (fuel : nat) (s : state) : state :=
  match fuel with
  | O => s
  | S fuel => match next s with Some s' => run fuel s' | None => s end
  end.

Inductive step : state → state → Prop :=
  | step_end acc : step (Running [] acc) (Halted (Ok acc))
  | step_chunk rest acc chunk :
      rest ≠ [] → Chunk.try_from rest = Ok chunk →
      step (Running rest acc)
           (Running (drop (12 + length (Chunk.data chunk)) rest)
                    (acc ++ [chunk]))
  | step_err rest acc e :
      rest ≠ [] → Chunk.try_from rest = Err e →
      step (Running rest acc) (Halted (Err e))
  | step_panic rest acc p :
      rest ≠ [] → Chunk.try_from rest = Panic p →
      step (Running rest acc) (Halted (Panic p)).

Definition halted (s : state) : Prop :=
  match s with Halted _ => True | Running _ _ => False end.

#[global] Instance halted_dec s : Decision (halted s).
Proof. destruct s; apply _. Defined.

(** What the loop of [Png.v] answers from a state. *)
Definition answer (s : state) : outcome (list Chunk.t) :=
  match s with
  | Running rest acc => cs ← decode_loop rest; Ok (acc ++ cs)
  | Halted result => result
  end.

(** What bounds the iterations left. *)
Definition size (s : state) : nat :=
  match s with
  | Running rest _ => S (length rest)
  | Halted _ => 0
  end.

(** On every run from [s], [P] comes to hold. *)
Inductive eventually (P : state → Prop) (s : state) : Prop :=
  | eventually_now : P s → eventually P s
  | eventually_later :
      red step s → (∀ s', step s s' → eventually P s') → eventually P s.

End Decoder.

Section machine.
Import Decoder.
Implicit Types (s : state) (rest bytes : list byte) (acc cs : list Chunk.t)
  (P Q : state → Prop).

(** ** The relation is the function *)

Lemma step_next s s' : step s s' ↔ next s = Some s'.
Proof.
  split.
  - intros [acc|[|b rest] acc c Hne Hc|[|b rest] acc e Hne Hc
           |[|b rest] acc p Hne Hc]; try done; cbn [next]; by rewrite Hc.
  - destruct s as [[|b rest] acc|r]; cbn [next];
      [by intros <-%(inj Some); constructor| |done].
    destruct (Chunk.try_from (b :: rest)) eqn:Hc; intros <-%(inj Some);
      by constructor.
Qed.

Lemma step_deterministic s s1 s2 : step s s1 → step s s2 → s1 = s2.
Proof. rewrite !step_next. congruence. Qed.

#[global] Instance step_dec s s' : Decision (step s s').
Proof.
  refine (cast_if (decide (next s = Some s'))); by rewrite step_next.
Defined.

(** A state that has not halted makes a step: the loop is never stuck. *)
Lemma step_progress s : ¬ halted s → red step s.
Proof.
  destruct s as [rest acc|r]; [intros _|by intros []].
  destruct (next (Running rest acc)) as [s'|] eqn:Hs'.
  - exists s'. by apply step_next.
  - destruct rest; [done|]. cbn [next] in Hs'.
    by destruct (Chunk.try_from _).
Qed.

Lemma halted_nf s : halted s ↔ nf step s.
Proof.
  split.
  - destruct s; [done|]. intros _ [s' Hs']. inversion Hs'.
  - intros Hnf. destruct (decide (halted s)); [done|].
    by destruct Hnf; apply step_progress.
Qed.

(** ** Steps keep the answer and shorten the buffer *)

Lemma answer_end acc : answer (Running [] acc) = Ok acc.
Proof. cbn [answer]. simp decode_loop. cbn. by rewrite app_nil_r. Qed.

Lemma step_answer s s' : step s s' → answer s' = answer s.
Proof.
  intros [acc|rest acc c Hne Hc|rest acc e Hne Hc|rest acc p Hne Hc];
    [by rewrite answer_end|cbn [answer]; rewrite (decode_loop_step rest),
      Hc by done; cbn [mbind outcome_bind]..]; [|done..].
  unfold Chunk.data. destruct (decode_loop _); [|done..].
  cbn [mbind outcome_bind]. by rewrite <- app_assoc.
Qed.

Lemma step_size s s' : step s s' → (size s' < size s)%nat.
Proof.
  intros [acc|rest acc c Hne Hc|rest acc e Hne Hc|rest acc p Hne Hc];
    cbn [size]; [lia| |lia..].
  apply try_from_Ok_frame in Hc as [_ Hc]. apply (f_equal length) in Hc.
  rewrite length_app, as_bytes_length in Hc. unfold Chunk.data. lia.
Qed.

Lemma rtc_step_answer s s' : rtc step s s' → answer s' = answer s.
Proof.
  induction 1 as [|s s1 s2 Hs _ IH]; [done|].
  by rewrite IH, (step_answer s s1).
Qed.

(** ** Every run halts *)

Lemma eventually_weaken P Q s :
  (∀ s', P s' → Q s') → eventually P s → eventually Q s.
Proof.
  intros HPQ.
  induction 1; [apply eventually_now|apply eventually_later]; auto.
Qed.

(** No run is infinite. *)
Lemma step_sn s : sn step s.
Proof.
  remember (size s) as n eqn:Hn. revert s Hn.
  induction n as [n IH] using lt_wf_ind. intros s ->.
  constructor. intros s' Hs'%step_size. by eapply IH.
Qed.

(** From any state the machine halts, with the answer of the state. *)
Lemma eventually_answer s : eventually (λ s', s' = Halted (answer s)) s.
Proof.
  induction (step_sn s) as [s _ IH].
  destruct (decide (halted s)) as [Hs|Hs].
  { apply eventually_now. by destruct s. }
  apply eventually_later; [by apply step_progress|]. intros s' Hs'.
  rewrite <- (step_answer s s') by done. by apply IH.
Qed.

(** The run function reaches the state the relation reaches. *)
Lemma run_rtc fuel s : rtc step s (run fuel s).
Proof.
  revert s. induction fuel as [|fuel IH]; intros s; [done|]. cbn [run].
  destruct (next s) as [s'|] eqn:Hs'; [|done].
  eapply rtc_l; [by apply step_next|apply IH].
Qed.

Lemma run_halted fuel s : halted s → run fuel s = s.
Proof. destruct s; [done|]. by destruct fuel. Qed.

(** Fuel of the size of the state is enough to halt. *)
Lemma run_size fuel s :
  (size s ≤ fuel)%nat → run fuel s = Halted (answer s).
Proof.
  revert s. induction fuel as [|fuel IH]; intros s Hfuel.
  { destruct s; [cbn in Hfuel; lia|done]. }
  destruct (decide (halted s)) as [Hs|Hs]; [by destruct s|].
  destruct (step_progress s Hs) as [s' Hs']. cbn [run].
  rewrite (proj1 (step_next s s') Hs'), <- (step_answer s s') by done.
  apply IH. apply step_size in Hs'. lia.
Qed.

(** The answer, by the loop on fuel that [Png.try_from] runs. *)
Lemma answer_decode_chunks bytes acc :
  answer (Running bytes acc) =
  cs ← Png.decode_chunks (length bytes) bytes; Ok (acc ++ cs).
Proof. cbn [answer]. by rewrite decode_chunks_loop by lia. Qed.

(** The halted states a run can reach: only the answer. *)
Lemma rtc_step_halted s result :
  rtc step s (Halted result) ↔ result = answer s.
Proof.
  split; [by intros <-%rtc_step_answer|]. intros ->.
  rewrite <- (run_size (size s) s) by done. apply run_rtc.
Qed.

(** C15: the chunk loop always halts, and with the right result.  From
    every state of the loop, with any rest of the buffer and any chunks
    decoded so far, every run makes a step for as long as it has not
    halted, no run is infinite, and the state a run halts in holds the
    chunks decoded so far followed by what [Png.decode_chunks] returns
    for the rest, or its failure. *)
Theorem decoder_halts bytes acc :
  eventually
    (λ s, s = Halted (cs ← Png.decode_chunks (length bytes) bytes;
                      Ok (acc ++ cs)))
    (Running bytes acc)
  ∧ sn step (Running bytes acc).
Proof.
  split; [|apply step_sn]. rewrite <- answer_decode_chunks.
  apply eventually_answer.
Qed.

(** [Png.try_from] is the signature check and a run of the machine, for
    as many iterations as the buffer has bytes. *)
Lemma png_try_from_run bytes :
  take 8 bytes = Png.STANDARD_HEADER →
  run (length bytes) (Running (drop 8 bytes) [])
  = Halted (Png.chunks <$> Png.try_from bytes).
Proof.
  intros Hsig. pose proof (f_equal length Hsig) as Hlen.
  rewrite length_take in Hlen.
  change (length Png.STANDARD_HEADER) with 8%nat in Hlen.
  rewrite run_size by (cbn [size]; rewrite length_drop; lia).
  rewrite answer_decode_chunks. unfold Png.try_from.
  rewrite decide_True by done.
  rewrite (decode_chunks_fuel _ (length bytes)) by (rewrite ?length_drop; lia).
  by destruct (Png.decode_chunks _ _).
Qed.

End machine.

(** ** A run *)

Section runs.
Import Decoder.

(** The encoding of two chunks is decoded in three steps. *)
Example run_two_chunks :
  run 3 (Running (Chunk.as_bytes hi_chunk ++ Chunk.as_bytes hi_chunk) [])
  = Halted (Ok [hi_chunk; hi_chunk]).
Proof. by vm_compute. Qed.

(** A buffer cut inside its second chunk halts with the failure of that
    chunk, after the first was decoded. *)
Example run_truncated :
  run 2 (Running (Chunk.as_bytes hi_chunk
                  ++ take 9 (Chunk.as_bytes hi_chunk)) [])
  = Halted (Panic (SliceEndOutOfRange 10 9)).
Proof. by vm_compute. Qed.

End runs.
