(* ===== verification/Cli.v ===== *)
(** * Cli: the command line of [args.rs] and the dispatch of [main.rs]

    [main] reads a file, decodes it as a container, applies one of the four
    commands and writes the file or prints.  The file system and the
    standard output are the state of a small state-and-error monad [io];
    their operations are the three the sources call ([fs::read],
    [fs::write], [println!]).  A read fails on a path that holds no file, a
    write fails on a path that is locked (read-only), and both leave the
    world as it was.

    The container is used through the contract [Container.t]: [main] and
    its theorems are stated for every implementation of it, and hold for
    [Png.t] by the instance of [Png.v]. *)

From Stdlib Require Import ZArith List Lia.
From Stdlib Require Import Strings.Byte Strings.String.
From stdpp Require Import base tactics option list gmap strings.
From S2P Require Import Prelude.
From S2P Require Import Bytes.
From S2P Require Import Crc32.
From S2P Require Import Utf8.
From S2P Require Import ChunkType.
From S2P Require Import Chunk.
From S2P Require Import Container.
From S2P Require Import Png.

Module Args.

(** [pub enum Commands]; a [PathBuf] is the text of the path. *)
Inductive Commands : Type :=
| Encode (file : string) (chunk_type : string) (message : string)
    (output_file : option string)
| Decode (file : string) (chunk_type : string)
| Remove (file : string) (chunk_type : string)
| Print (file : string).

(** [pub struct PngMe] *)
Record PngMe : Type := mk { command : Commands }.

End Args.

Module Main.
Import Args.

(** What [main] reads and changes: the files by path, the paths that
    cannot be written, and the lines printed so far. *)
Record world : Type := mk_world {
  files : gmap string (list byte);
  locked : gset string;
  stdout : list string;
}.

(** A computation that may fail or panic, and may change the world. *)
Definition io (A : Type) : Type := world → outcome A * world.

#[global] Instance io_ret : MRet io := λ A a w, (Ok a, w).

#[global] Instance io_bind : MBind io := λ A B f m w,
  match m w with
  | (Ok a, w') => f a w'
  | (Err e, w') => (Err e, w')
  | (Panic p, w') => (Panic p, w')
  end.

(** The operator [?] on a [Result] computed without the world. *)
Definition lift {A} (m : outcome A) : io A := λ w, (m, w).

(** [fs::read(path)?] *)
Definition fs_read (path : string) : io (list byte) := λ w,
  match files w !! path with
  | Some bytes => (Ok bytes, w)
  | None => (Err (Io path), w)
  end.

(** [fs::write(path, bytes)?] *)
Definition fs_write (path : string) (bytes : list byte) : io unit := λ w,
  if decide (path ∈ locked w) then (Err (Io path), w)
  else (Ok (), mk_world (<[path := bytes]> (files w)) (locked w) (stdout w)).

(** [println!] of one line. *)
Definition println (line : string) : io unit := λ w,
  (Ok (), mk_world (files w) (locked w) (stdout w ++ [line])).

Section main.
Context {P : Type} `{!Container.t P}.

(** [fn main() -> Result<()>], from the parsed arguments on.  [Png::…]
    and the methods called on [png] are the operations of the contract. *)
Definition main (pngme : PngMe) : io unit :=
  match command pngme with
  | Encode file chunk_type message output_file =>
      chunk_type ← lift (ChunkType.from_str chunk_type);
      bytes ← fs_read file;
      png ← lift (Container.try_from bytes);
      let chunk := Chunk.new chunk_type (Utf8.as_bytes message) in
      let png := Container.append_chunk png chunk in
      match output_file with
      | Some op_file => fs_write op_file (Container.as_bytes png)
      | None => fs_write file (Container.as_bytes png)
      end
  | Decode file chunk_type =>
      bytes ← fs_read file;
      png ← lift (Container.try_from bytes);
      match Container.chunk_by_type png chunk_type with
      | Some chunk =>
          text ← lift (Chunk.data_as_string chunk);
          println ("Decoded Message: " ++ text)
      | None => mret ()
      end
  | Remove file chunk_type =>
      bytes ← fs_read file;
      png ← lift (Container.try_from bytes);
      '(_, png) ← lift (Container.remove_first_chunk png chunk_type);
      fs_write file (Container.as_bytes png)
  | Print file =>
      bytes ← fs_read file;
      png ← lift (Container.try_from bytes);
      text ← lift (Container.fmt png);
      println text
  end.

End main.

End Main.

(** ** Stepping through an [io] computation *)

Section io_steps.
Import Main.
Context {A B : Type}.
Implicit Types (m : outcome A) (f : A → io B) (w : world).

Lemma bind_lift_Ok m a f w : m = Ok a → (lift m ≫= f) w = f a w.
Proof. by intros ->. Qed.

Lemma bind_lift_Err m e f w : m = Err e → (lift m ≫= f) w = (Err e, w).
Proof. by intros ->. Qed.

Lemma bind_lift_Panic m pn f w :
  m = Panic pn → (lift m ≫= f) w = (Panic pn, w).
Proof. by intros ->. Qed.

Lemma bind_fs_read_Some path bytes (g : list byte → io B) w :
  files w !! path = Some bytes → (fs_read path ≫= g) w = g bytes w.
Proof. intros Hf. unfold mbind, io_bind, fs_read. by rewrite Hf. Qed.

Lemma bind_fs_read_None path (g : list byte → io B) w :
  files w !! path = None → (fs_read path ≫= g) w = (Err (Io path), w).
Proof. intros Hf. unfold mbind, io_bind, fs_read. by rewrite Hf. Qed.

(** The laws of the monad, at every world. *)
Lemma io_bind_ret_l (a : A) f w : (mret a ≫= f) w = f a w.
Proof. done. Qed.

Lemma io_bind_ret_r (m : io A) w : (m ≫= mret) w = m w.
Proof. unfold mbind, io_bind. by destruct (m w) as [[] ?]. Qed.

Lemma io_bind_assoc {C} (m : io A) f (g : B → io C) w :
  ((m ≫= f) ≫= g) w = (m ≫= λ a, f a ≫= g) w.
Proof. unfold mbind, io_bind. by destruct (m w) as [[] ?]. Qed.

End io_steps.

(** ** What a computation may do to the world *)

Section effects.
Import Main.
Implicit Types (w : world).

(** The world is left as it was. *)
Definition readonly {A} (m : io A) : Prop := ∀ w, (m w).2 = w.

(** A failure leaves the world as it was. *)
Definition atomic {A} (m : io A) : Prop :=
  ∀ w, is_Ok (m w).1 = false → (m w).2 = w.

(** The files are left as they were. *)
Definition keeps_files {A} (m : io A) : Prop :=
  ∀ w, files (m w).2 = files w.

Lemma readonly_lift {A} (m : outcome A) : readonly (lift m).
Proof. done. Qed.

Lemma readonly_fs_read path : readonly (fs_read path).
Proof. intros w. unfold fs_read. by destruct (files w !! path). Qed.

Lemma readonly_ret {A} (a : A) : readonly (mret a).
Proof. done. Qed.

Lemma readonly_bind {A B} (m : io A) (f : A → io B) :
  readonly m → (∀ a, readonly (f a)) → readonly (m ≫= f).
Proof.
  intros Hm Hf w. specialize (Hm w). unfold mbind, io_bind.
  destruct (m w) as [[a| |] w']; simpl in *; subst; [apply Hf|done..].
Qed.

Lemma readonly_atomic {A} (m : io A) : readonly m → atomic m.
Proof. intros Hm w _. apply Hm. Qed.

Lemma readonly_keeps_files {A} (m : io A) : readonly m → keeps_files m.
Proof. intros Hm w. by rewrite Hm. Qed.

Lemma atomic_bind {A B} (m : io A) (f : A → io B) :
  readonly m → (∀ a, atomic (f a)) → atomic (m ≫= f).
Proof.
  intros Hm Hf w. specialize (Hm w). unfold mbind, io_bind.
  destruct (m w) as [[a| |] w']; simpl in *; subst; [apply Hf|done..].
Qed.

Lemma atomic_fs_write path bytes : atomic (fs_write path bytes).
Proof. intros w. unfold fs_write. by case_decide. Qed.

Lemma bind_fs_write_Ok {B} path bytes (g : unit → io B) w :
  path ∉ locked w →
  (fs_write path bytes ≫= g) w
  = g () (mk_world (<[path := bytes]> (files w)) (locked w) (stdout w)).
Proof. intros. unfold mbind, io_bind, fs_write. by rewrite decide_False. Qed.

Lemma fs_write_Ok path bytes w :
  path ∉ locked w →
  fs_write path bytes w
  = (Ok (), mk_world (<[path := bytes]> (files w)) (locked w) (stdout w)).
Proof. intros. unfold fs_write. by rewrite decide_False. Qed.

Lemma fs_write_Err path bytes w :
  path ∈ locked w → fs_write path bytes w = (Err (Io path), w).
Proof. intros. unfold fs_write. by rewrite decide_True. Qed.

Lemma atomic_println line : atomic (println line).
Proof. by intros w. Qed.

Lemma keeps_files_bind {A B} (m : io A) (f : A → io B) :
  keeps_files m → (∀ a, keeps_files (f a)) → keeps_files (m ≫= f).
Proof.
  intros Hm Hf w. specialize (Hm w). unfold mbind, io_bind.
  destruct (m w) as [[a| |] w']; simpl in *; [by rewrite Hf|done..].
Qed.

Lemma keeps_files_println line : keeps_files (println line).
Proof. done. Qed.

End effects.

Create HintDb io discriminated.
#[export] Hint Resolve readonly_lift readonly_fs_read readonly_ret
  readonly_atomic readonly_keeps_files atomic_fs_write atomic_println
  keeps_files_println : io.

(** Splits a bind whose first computation is read-only, and the matches
    of [main]; the leaves are closed by the hints. *)
Ltac io_effects :=
  repeat first
    [ apply atomic_bind; [by auto with io|intros ?]
    | apply keeps_files_bind; [by auto with io|intros ?]
    | apply readonly_bind; [by auto with io|intros ?]
    | case_match ];
  auto with io.

(** ** Each command, on a file that decodes *)

Section commands.
Import Args Main.
Context {P : Type} `{!Container.t P}.
Implicit Types (w : world) (file ty message text : string)
  (bytes : list byte) (png : P) (c : Chunk.t) (ct : ChunkType.t).

(** A chunk type as the commands expect it: four ASCII letters. *)
Definition tag ty : Prop :=
  alphabetic (Utf8.as_bytes ty) ∧ length (Utf8.as_bytes ty) = 4%nat.

#[global] Instance tag_dec ty : Decision (tag ty).
Proof. unfold tag. apply _. Defined.

Lemma tag_from_str ty :
  tag ty → ∃ ct, ChunkType.from_str ty = Ok ct ∧ ChunkType.fmt ct = Some ty.
Proof.
  intros [Hty Hlen].
  destruct (from_str_loop_init ty _ Hty) as (ct & Hct & _); [lia|].
  exists ct. split; [done|]. by apply fmt_from_str.
Qed.

Lemma main_encode_Ok w file ty message out bytes png ct :
  files w !! file = Some bytes → Container.try_from bytes = Ok png →
  ChunkType.from_str ty = Ok ct → default file out ∉ locked w →
  main (mk (Encode file ty message out)) w =
  (Ok (),
   mk_world
     (<[default file out :=
          Container.as_bytes
            (Container.append_chunk png
               (Chunk.new ct (Utf8.as_bytes message)))]>
        (files w))
     (locked w) (stdout w)).
Proof.
  intros Hfile Hpng Hct Hout. unfold main. cbn [command].
  rewrite (bind_lift_Ok _ ct), (bind_fs_read_Some _ bytes) by done.
  rewrite (bind_lift_Ok _ png) by done. by destruct out; apply fs_write_Ok.
Qed.

Lemma main_decode_Ok w file ty bytes png c text :
  files w !! file = Some bytes → Container.try_from bytes = Ok png →
  Container.chunk_by_type png ty = Some c →
  Chunk.data_as_string c = Ok text →
  main (mk (Decode file ty)) w =
  (Ok (), mk_world (files w) (locked w)
            (stdout w ++ [("Decoded Message: " ++ text)%string])).
Proof.
  intros Hfile Hpng Hc Htext. unfold main. cbn [command].
  rewrite (bind_fs_read_Some _ bytes), (bind_lift_Ok _ png) by done.
  rewrite Hc. by rewrite (bind_lift_Ok _ text).
Qed.

Lemma main_remove_Ok w file ty bytes png c png' :
  files w !! file = Some bytes → Container.try_from bytes = Ok png →
  Container.remove_first_chunk png ty = Ok (c, png') → file ∉ locked w →
  main (mk (Remove file ty)) w =
  (Ok (), mk_world (<[file := Container.as_bytes png']> (files w))
            (locked w) (stdout w)).
Proof.
  intros Hfile Hpng Hrem Hout. unfold main. cbn [command].
  rewrite (bind_fs_read_Some _ bytes), (bind_lift_Ok _ png) by done.
  rewrite (bind_lift_Ok _ (c, png')) by done. by apply fs_write_Ok.
Qed.

(** The text of a chunk built from well-formed UTF-8. *)
Lemma data_as_string_new ct message :
  well_formed (Utf8.as_bytes message) →
  Chunk.data_as_string (Chunk.new ct (Utf8.as_bytes message)) = Ok message.
Proof.
  intros Hm%validation_complete.
  unfold Chunk.data_as_string, Chunk.new, Utf8.from_utf8. cbn [Chunk.data_].
  rewrite Hm. f_equal. apply string_of_list_byte_of_string.
Qed.

End commands.

(** ** What the commands promise *)

Section main_theorems.
Import Args Main.
Context {P : Type} `{!Container.t P}.
Implicit Types (w : world) (file ty message : string)
  (bytes : list byte) (png : P).

(** [encode] then [decode] of the file written, on a file without a chunk
    of the type. *)
Lemma main_encode_then_decode w file ty message out bytes png :
  files w !! file = Some bytes → Container.try_from bytes = Ok png →
  Container.chunk_by_type png ty = None → tag ty →
  default file out ∉ locked w →
  well_formed (Utf8.as_bytes message) →
  Z.of_nat (length (Utf8.as_bytes message)) < U32.modulus →
  ∃ w1, main (mk (Encode file ty message out)) w = (Ok (), w1)
    ∧ main (mk (Decode (default file out) ty)) w1
      = (Ok (), mk_world (files w1) (locked w)
                  (stdout w ++ [("Decoded Message: " ++ message)%string])).
Proof.
  intros Hfile Hpng Hnone (ct & Hct & Hfmt)%tag_from_str Hw Hmsg Hlen.
  set (c := Chunk.new ct (Utf8.as_bytes message)).
  destruct (append_decodes bytes png c) as (p' & Hp' & Hchunks);
    [done|by apply valid_new|].
  eexists. split; [by eapply main_encode_Ok|].
  erewrite main_decode_Ok; cbn [files default].
  - done.
  - apply lookup_insert_eq.
  - done.
  - eapply chunk_by_type_last; [done| |done]. by apply has_type_new.
  - by apply data_as_string_new.
Qed.

(** C9: hiding a message and reading it back.  On a file that decodes
    and holds no chunk of the given type, [encode] with a type of four
    letters and a message that is UTF-8 and has fewer than 2^32 bytes,
    written in place or to a writable output file, succeeds, and [decode]
    of that type on the file written prints the message and changes
    nothing else.  This holds for every container that meets the
    contract. *)
Theorem main_encode_decode w file ty message out bytes png :
  files w !! file = Some bytes → Container.try_from bytes = Ok png →
  Container.chunk_by_type png ty = None → tag ty →
  default file out ∉ locked w →
  well_formed (Utf8.as_bytes message) →
  Z.of_nat (length (Utf8.as_bytes message)) < U32.modulus →
  ∃ w1, main (mk (Encode file ty message out)) w = (Ok (), w1)
    ∧ main (mk (Decode (default file out) ty)) w1
      = (Ok (), mk_world (files w1) (locked w)
                  (stdout w ++ [("Decoded Message: " ++ message)%string])).
Proof. apply main_encode_then_decode. Qed.

(** C10: [remove] undoes [encode].  On a file that decodes and holds no
    chunk of the given type, [encode], in place or to a writable output
    file, followed by [remove] of the same type on the file written,
    leaves in that file the original bytes and changes nothing else: after
    an [encode] in place the world is exactly as it was. *)
Theorem main_encode_remove w file ty message out bytes png :
  files w !! file = Some bytes → Container.try_from bytes = Ok png →
  Container.chunk_by_type png ty = None → tag ty →
  default file out ∉ locked w →
  Z.of_nat (length (Utf8.as_bytes message)) < U32.modulus →
  let restored :=
    mk_world (<[default file out := bytes]> (files w)) (locked w) (stdout w) in
  ∃ w1, main (mk (Encode file ty message out)) w = (Ok (), w1)
    ∧ main (mk (Remove (default file out) ty)) w1 = (Ok (), restored)
    ∧ (out = None → restored = w).
Proof.
  intros Hfile Hpng Hnone (ct & Hct & Hfmt)%tag_from_str Hw Hlen.
  set (c := Chunk.new ct (Utf8.as_bytes message)).
  destruct (append_decodes bytes png c) as (p' & Hp' & Hchunks);
    [done|by apply valid_new|].
  destruct (remove_first_chunk_last png p' c ty) as (p'' & Hrem & Hchunks'');
    [done|by apply has_type_new|done|].
  eexists. split_and!; [by eapply main_encode_Ok| |].
  - erewrite main_remove_Ok; cbn [files locked stdout];
      [|apply lookup_insert_eq|done..].
    rewrite Hchunks'', (try_from_as_bytes_decoded bytes) by done.
    by rewrite insert_insert_eq.
  - intros ->. cbn [default]. rewrite insert_id by done. by destruct w.
Qed.

(** A command that fails, with an error or a panic, leaves the files and
    the output as they were: every read and every check comes before the
    one write or print of the command, and a write that fails writes
    nothing. *)
Lemma main_atomic pngme : atomic (main pngme).
Proof. destruct pngme as [[]]; unfold main; cbn [command]; io_effects. Qed.

(** C34: [encode] does not replace a message.  On a file that decodes
    and already holds a chunk of the given type, [encode] of a new
    message, in place or to a writable output file, succeeds, and [decode]
    of that type on the file written still prints the text of the old
    chunk: the search returns the first
    chunk of a type and the new one is appended after it. *)
Theorem main_encode_shadowed w file ty message out bytes png c0 text0 :
  files w !! file = Some bytes → Container.try_from bytes = Ok png →
  Container.chunk_by_type png ty = Some c0 →
  Chunk.data_as_string c0 = Ok text0 → tag ty →
  default file out ∉ locked w →
  Z.of_nat (length (Utf8.as_bytes message)) < U32.modulus →
  ∃ w1, main (mk (Encode file ty message out)) w = (Ok (), w1)
    ∧ main (mk (Decode (default file out) ty)) w1
      = (Ok (), mk_world (files w1) (locked w)
                  (stdout w ++ [("Decoded Message: " ++ text0)%string])).
Proof.
  intros Hfile Hpng Hc0 Htext (ct & Hct & Hfmt)%tag_from_str Hw Hlen.
  set (c := Chunk.new ct (Utf8.as_bytes message)).
  destruct (append_decodes bytes png c) as (p' & Hp' & Hchunks);
    [done|by apply valid_new|].
  eexists. split; [by eapply main_encode_Ok|].
  erewrite main_decode_Ok; cbn [files default];
    [done|apply lookup_insert_eq|done| |done].
  by eapply chunk_by_type_first.
Qed.

(** [decode] and [print] never change a file, whatever they return. *)
Lemma main_keeps_files file ty :
  keeps_files (main (mk (Decode file ty)))
  ∧ keeps_files (main (mk (Print file))).
Proof. split; unfold main; cbn [command]; io_effects. Qed.

(** C33: [encode] with a type that starts with five ASCII letters panics
    before any file is read: the type is parsed first, and parsing writes
    its fifth letter past the end of the four-byte array. *)
Theorem main_encode_long_type w file ty message out pre post :
  Utf8.as_bytes ty = pre ++ post → alphabetic pre → length pre = 5%nat →
  main (mk (Encode file ty message out)) w = (Panic (IndexOutOfBounds 4 4), w).
Proof.
  intros Hty Hpre Hlen. unfold main. cbn [command].
  apply bind_lift_Panic. unfold ChunkType.from_str. rewrite Hty.
  apply from_str_loop_Panic; [done|lia..].
Qed.

(** C32: a command on a path that holds no file fails with the error of
    the read and changes nothing; for [encode] this is so when the type
    parses. *)
Theorem main_missing_file w file ty message out :
  files w !! file = None →
  main (mk (Decode file ty)) w = (Err (Io file), w)
  ∧ main (mk (Remove file ty)) w = (Err (Io file), w)
  ∧ main (mk (Print file)) w = (Err (Io file), w)
  ∧ (is_Ok (ChunkType.from_str ty) = true →
     main (mk (Encode file ty message out)) w = (Err (Io file), w)).
Proof.
  intros Hfile. unfold main. cbn [command].
  repeat split; try by apply bind_fs_read_None.
  destruct (ChunkType.from_str ty) as [ct| |] eqn:Hct; [intros _|done..].
  rewrite (bind_lift_Ok _ ct) by done. by apply bind_fs_read_None.
Qed.

(** [encode] to a path that cannot be written fails with the error of
    the write, after all the work, and changes nothing. *)
Lemma main_encode_locked w file ty message out bytes png ct :
  files w !! file = Some bytes → Container.try_from bytes = Ok png →
  ChunkType.from_str ty = Ok ct → default file out ∈ locked w →
  main (mk (Encode file ty message out)) w = (Err (Io (default file out)), w).
Proof.
  intros Hfile Hpng Hct Hout. unfold main. cbn [command].
  rewrite (bind_lift_Ok _ ct), (bind_fs_read_Some _ bytes) by done.
  rewrite (bind_lift_Ok _ png) by done. by destruct out; apply fs_write_Err.
Qed.

End main_theorems.

(** ** Witnesses and examples, with the container of [Png.v] *)

Section cli_examples.
Import Args Main.
Local Open Scope string_scope.

(** A world with one file, an empty container, and one locked path. *)
Definition w0 : world :=
  mk_world {[ "a.png" := Png.STANDARD_HEADER ]} {[ "ro.png" ]} [].

(** A world whose file already holds a message of type ["RuSt"]. *)
Definition w_hi : world :=
  mk_world {[ "a.png" := Png.as_bytes (Png.mk [hi_chunk]) ]} ∅ [].

Lemma w0_file : files w0 !! "a.png" = Some Png.STANDARD_HEADER.
Proof. apply lookup_singleton_eq. Qed.

Lemma w0_writable : "a.png" ∉ locked w0.
Proof. cbn [w0 locked]. by intros ?%elem_of_singleton. Qed.

Lemma hi_well_formed : well_formed (Utf8.as_bytes "hi").
Proof. by apply validation_sound. Qed.

Lemma main_encode_decode_witness :
  ∃ w1, main (mk (Encode "a.png" "RuSt" "hi" None)) w0 = (Ok (), w1)
    ∧ main (mk (Decode "a.png" "RuSt")) w1
      = (Ok (), mk_world (files w1) (locked w0)
                  (stdout w0 ++ ["Decoded Message: hi"])%list).
Proof.
  apply (main_encode_decode w0 "a.png" "RuSt" "hi" None
           Png.STANDARD_HEADER (Png.mk []));
    [apply w0_file|done..|by_decide|apply w0_writable|apply hi_well_formed|done].
Defined.

Lemma main_encode_shadowed_witness :
  ∃ w1, main (mk (Encode "a.png" "RuSt" "ho" None)) w_hi = (Ok (), w1)
    ∧ main (mk (Decode "a.png" "RuSt")) w1
      = (Ok (), mk_world (files w1) (locked w_hi)
                  (stdout w_hi ++ ["Decoded Message: hi"])%list).
Proof.
  apply (main_encode_shadowed w_hi "a.png" "RuSt" "ho" None
           (Png.as_bytes (Png.mk [hi_chunk])) (Png.mk [hi_chunk]) hi_chunk "hi");
    [apply lookup_singleton_eq|by vm_compute..|by_decide| |done].
  cbn [w_hi locked]. apply not_elem_of_empty.
Defined.

Lemma main_encode_remove_witness :
  ∃ w1, main (mk (Encode "a.png" "RuSt" "hi" None)) w0 = (Ok (), w1)
    ∧ main (mk (Remove "a.png" "RuSt")) w1 = (Ok (), w0).
Proof.
  destruct (main_encode_remove w0 "a.png" "RuSt" "hi" None
              Png.STANDARD_HEADER (Png.mk [])) as (w1 & Hw1 & Hw2 & Hw0);
    [apply w0_file|done..|by_decide|apply w0_writable|done|].
  exists w1. split; [done|]. cbn [default] in *. rewrite Hw2.
  by rewrite (Hw0 eq_refl).
Defined.

Lemma main_encode_long_type_witness :
  main (P := Png.t) (mk (Encode "a.png" "RuSty" "hi" None)) w0
  = (Panic (IndexOutOfBounds 4 4), w0).
Proof.
  apply (main_encode_long_type w0 "a.png" "RuSty" "hi" None
           (Utf8.as_bytes "RuSty") []); [done|by_decide|done].
Defined.

Lemma main_missing_file_witness :
  main (P := Png.t) (mk (Decode "b.png" "RuSt")) w0 = (Err (Io "b.png"), w0)
  ∧ main (P := Png.t) (mk (Remove "b.png" "RuSt")) w0 = (Err (Io "b.png"), w0)
  ∧ main (P := Png.t) (mk (Print "b.png")) w0 = (Err (Io "b.png"), w0)
  ∧ (is_Ok (ChunkType.from_str "RuSt") = true →
     main (P := Png.t) (mk (Encode "b.png" "RuSt" "hi" None)) w0
     = (Err (Io "b.png"), w0)).
Proof. apply (main_missing_file w0 "b.png" "RuSt" "hi" None). done. Defined.

(** A type of fewer than four letters is accepted by [encode], and the
    chunk it writes has a type that no text of the command line names:
    [decode] of the same type prints nothing. *)
Example encode_short_type_not_found :
  ∃ w1, main (P := Png.t) (mk (Encode "a.png" "ab" "hi" None)) w0 = (Ok (), w1)
    ∧ main (P := Png.t) (mk (Decode "a.png" "ab")) w1 = (Ok (), w1).
Proof.
  eexists. split.
  - by eapply main_encode_Ok; [apply w0_file|..|apply w0_writable].
  - unfold main. cbn [command files].
    erewrite bind_fs_read_Some by apply lookup_insert_eq.
    erewrite bind_lift_Ok; [|by vm_compute]. by vm_compute.
Qed.

(** Writing the result to a locked path fails and keeps every file. *)
Example encode_to_locked_path :
  main (P := Png.t) (mk (Encode "a.png" "RuSt" "hi" (Some "ro.png"))) w0
  = (Err (Io "ro.png"), w0).
Proof.
  eapply main_encode_locked; [apply w0_file|done..|].
  cbn [w0 locked default]. by rewrite elem_of_singleton.
Qed.

End cli_examples.
