(* ===== verification/Session.v ===== *)
(** * Session: runs of commands, and what they keep true

    A session is a sequence of runs of the program on the same files.  One
    run is a step of a transition relation on worlds; the theorems are
    invariants of the worlds a session reaches, proved by induction on the
    sequence of steps from a summary of what one run can do to the world:
    nothing, one write of the encoding of valid chunks, or one printed
    line.  The second part gives the summary as a function of the file
    the command reads, and shows which runs can be made in either order
    and what runs on other files cannot undo. *)

From Stdlib Require Import ZArith List Lia.
From Stdlib Require Import Strings.Byte Strings.String.
From stdpp Require Import base tactics option list relations gmap strings.
From S2P Require Import Prelude.
From S2P Require Import Bytes.
From S2P Require Import Crc32.
From S2P Require Import Utf8.
From S2P Require Import ChunkType.
From S2P Require Import Chunk.
From S2P Require Import Container.
From S2P Require Import Png.
From S2P Require Import Cli.

Section session.
Import Args Main.
Context {P : Type} `{!Container.t P}.
Implicit Types (w : world) (pngme : PngMe) (path : string)
  (bytes : list byte) (p : P).

(** A command whose message fits the length field of a chunk; a message
    given on a command line is far shorter. *)
Definition small pngme : Prop :=
  match command pngme with
  | Encode _ _ message _ =>
      Z.of_nat (length (Utf8.as_bytes message)) < U32.modulus
  | _ => True
  end.

#[global] Instance small_dec pngme : Decision (small pngme).
Proof. unfold small. destruct (command pngme); apply _. Defined.

(** One run of the program, whatever it returns. *)
Inductive step : world → world → Prop :=
  | step_main pngme w : small pngme → step w (main pngme w).2.

(** What one run does to the world. *)
Inductive effect w : world → Prop :=
  | effect_none : effect w w
  | effect_write path p :
      Forall (valid crc32) (Container.chunks p) → path ∉ locked w →
      effect w (mk_world (<[path := Container.as_bytes p]> (files w))
                         (locked w) (stdout w))
  | effect_print line :
      effect w (mk_world (files w) (locked w) (stdout w ++ [line])).

(** Every file is as it was in [w0], or decodes. *)
Definition files_ok (w0 w : world) : Prop :=
  ∀ path bytes,
    files w !! path = Some bytes →
    files w0 !! path = Some bytes ∨ is_Ok (Container.try_from bytes) = true.

Lemma effect_fs_write path p w :
  Forall (valid crc32) (Container.chunks p) →
  effect w (fs_write path (Container.as_bytes p) w).2.
Proof.
  intros Hp. unfold fs_write. case_decide; [constructor|].
  by apply effect_write.
Qed.

Lemma effect_println line w : effect w (println line w).2.
Proof. apply effect_print. Qed.

(** The summary: a run does nothing, writes one encoding of valid
    chunks, or prints one line. *)
Lemma main_effect pngme w : small pngme → effect w (main pngme w).2.
Proof.
  destruct pngme as [[file ty message out|file ty|file ty|file]];
    unfold small, main; cbn [command]; intros Hsmall;
    unfold mbind, io_bind, lift, fs_read.
  - destruct (ChunkType.from_str ty) as [ct| |]; [|constructor..].
    destruct (files w !! file) as [bytes|]; [|constructor].
    destruct (Container.try_from bytes) as [png| |] eqn:Hpng; [|constructor..].
    apply Container.try_from_Ok in Hpng as [_ Hpng].
    destruct out; apply effect_fs_write;
      rewrite Container.chunks_append_chunk;
      (apply Forall_app; split; [done|]); by repeat constructor; apply valid_new.
  - destruct (files w !! file) as [bytes|]; [|constructor].
    destruct (Container.try_from bytes) as [png| |]; [|constructor..].
    destruct (Container.chunk_by_type png ty) as [c|]; [|constructor].
    destruct (Chunk.data_as_string c); [apply effect_println|constructor..].
  - destruct (files w !! file) as [bytes|]; [|constructor].
    destruct (Container.try_from bytes) as [png| |] eqn:Hpng; [|constructor..].
    apply Container.try_from_Ok in Hpng as [_ Hpng].
    destruct (Container.remove_first_chunk png ty) as [[c png']| |] eqn:Hrem;
      [|constructor..].
    apply effect_fs_write. by eapply remove_first_chunk_valid.
  - destruct (files w !! file) as [bytes|]; [|constructor].
    destruct (Container.try_from bytes) as [png| |]; [|constructor..].
    destruct (Container.fmt png); [apply effect_println|constructor..].
Qed.

(** What the three effects keep. *)
Lemma effect_files_ok w0 w w' : files_ok w0 w → effect w w' → files_ok w0 w'.
Proof.
  intros Hw [|path p Hp _|line]; [done| |done].
  intros path' bytes. cbn [files].
  destruct (decide (path = path')) as [<-|Hne].
  - rewrite lookup_insert_eq. intros [= <-]. right.
    by destruct (Container.try_from_as_bytes_valid p Hp) as (p' & -> & _).
  - rewrite lookup_insert_ne by done. apply Hw.
Qed.

Lemma effect_locked w w' : effect w w' → locked w' = locked w.
Proof. by intros []. Qed.

Lemma effect_stdout w w' : effect w w' → stdout w `prefix_of` stdout w'.
Proof.
  intros [|path p _ _|line]; cbn [stdout]; [by exists []; rewrite app_nil_r..|].
  by exists [line].
Qed.

Lemma effect_locked_files w w' path :
  effect w w' → path ∈ locked w → files w' !! path = files w !! path.
Proof.
  intros [|path' p _ Hpath|line] Hin; [done| |done]. cbn [files].
  apply lookup_insert_ne. by intros ->.
Qed.

(** The invariant of a session that started in [w0]. *)
Definition session_inv (w0 w : world) : Prop :=
  files_ok w0 w
  ∧ locked w = locked w0
  ∧ stdout w0 `prefix_of` stdout w
  ∧ ∀ path, path ∈ locked w0 → files w !! path = files w0 !! path.

Lemma session_inv_init w0 : session_inv w0 w0.
Proof. split; [|done]. intros path bytes ?. by left. Qed.

Lemma session_inv_step w0 w w' :
  session_inv w0 w → step w w' → session_inv w0 w'.
Proof.
  intros Hinv Hstep. destruct Hstep as [pngme w Hsmall].
  destruct Hinv as (Hfiles & Hlocked & Hout & Hro).
  pose proof (main_effect pngme w Hsmall) as Heff.
  split; [by apply (effect_files_ok w0 w)|]. split; [|split].
  - by rewrite (effect_locked _ _ Heff).
  - etrans; [done|]. by apply effect_stdout.
  - intros path Hpath. rewrite <- Hro by done.
    apply effect_locked_files; [done|]. by rewrite Hlocked.
Qed.

Lemma session_inv_rtc w0 w : rtc step w0 w → session_inv w0 w.
Proof.
  intros Hrun. refine (rtc_ind_r (session_inv w0) w0 _ _ w Hrun).
  - apply session_inv_init.
  - intros y z _ Hstep Hy. by eapply session_inv_step.
Qed.

(** C12: whatever commands a session runs, with whatever results, every
    file is either as it was when the session started or a container
    that decodes; the locked paths stay locked and keep their content;
    and the output only grows.  The program never leaves behind a file
    it cannot read. *)
Theorem session_invariant w0 w : rtc step w0 w → session_inv w0 w.
Proof. apply session_inv_rtc. Qed.

(** In a session on files that all decode, all files decode at any
    time. *)
Lemma session_all_decode w0 w :
  (∀ path bytes, files w0 !! path = Some bytes →
                 is_Ok (Container.try_from bytes) = true) →
  rtc step w0 w →
  ∀ path bytes, files w !! path = Some bytes →
                is_Ok (Container.try_from bytes) = true.
Proof.
  intros Hw0 (Hfiles & _)%session_inv_rtc path bytes Hpath.
  destruct (Hfiles path bytes Hpath); eauto.
Qed.

End session.

(** ** Runs that do not interfere

    A run reads one file and then does at most one thing to the world: it
    writes one file or prints one line.  Two runs of which neither writes
    the file the other reads or writes can be made in either order: the
    results and the final world are the same. *)

Section independence.
Import Args Main.
Context {P : Type} `{!Container.t P}.
Implicit Types (w : world) (pngme : PngMe) (path : string)
  (bytes : list byte).

(** The file a command reads. *)
Definition input pngme : string :=
  match command pngme with
  | Encode file _ _ _ | Decode file _ | Remove file _ | Print file => file
  end.

(** The file a command writes, if it writes. *)
Definition output pngme : option string :=
  match command pngme with
  | Encode file _ _ output_file => Some (default file output_file)
  | Remove file _ => Some file
  | Decode _ _ | Print _ => None
  end.

(** What a run does to the world. *)
Inductive action : Type :=
  | Skip
  | Write (path : string) (bytes : list byte)
  | Say (line : string).

Definition perform (a : action) w : world :=
  match a with
  | Skip => w
  | Write path bytes =>
      mk_world (<[path := bytes]> (files w)) (locked w) (stdout w)
  | Say line => mk_world (files w) (locked w) (stdout w ++ [line])
  end.

(** The actions open to a command. *)
Definition acts pngme (a : action) : Prop :=
  match a with
  | Skip => True
  | Write path _ => output pngme = Some path
  | Say _ => output pngme = None
  end.

(** Neither command writes what the other reads or writes. *)
Definition independent (c1 c2 : PngMe) : Prop :=
  output c1 ≠ output c2
  ∧ output c1 ≠ Some (input c2) ∧ output c2 ≠ Some (input c1).

#[global] Instance independent_dec c1 c2 : Decision (independent c1 c2).
Proof. unfold independent. apply _. Defined.

(** A computation that does [a] and returns [r] in every world that
    agrees with [w] on the file at [path] and on the locks. *)
Definition does (m : io unit) path w (r : outcome unit) (a : action) : Prop :=
  ∀ w', files w' !! path = files w !! path → locked w' = locked w →
        m w' = (r, perform a w').

Lemma does_fs_write path path' bytes w :
  ∃ r a, (a = Skip ∨ a = Write path bytes)
         ∧ does (fs_write path bytes) path' w r a.
Proof.
  destruct (decide (path ∈ locked w)) as [Hin|Hin].
  - exists (Err (Io path)), Skip. split; [by left|]. intros w' _ Hl.
    cbn [perform]. apply fs_write_Err. by rewrite Hl.
  - exists (Ok ()), (Write path bytes). split; [by right|]. intros w' _ Hl.
    cbn [perform]. apply fs_write_Ok. by rewrite Hl.
Qed.

Lemma does_println line path w : does (println line) path w (Ok ()) (Say line).
Proof. by intros w' _ _. Qed.

Lemma does_fail (m : io unit) path w r :
  (∀ w', files w' !! path = files w !! path → m w' = (r, w')) →
  does m path w r Skip.
Proof. intros Hm w' Hf _. by apply Hm. Qed.

(** A read or a check before the action: when it fails nothing is done. *)
Lemma does_read path (g : list byte → io unit) w (Q : action → Prop) :
  Q Skip → (∀ bytes, ∃ r a, Q a ∧ does (g bytes) path w r a) →
  ∃ r a, Q a ∧ does (fs_read path ≫= g) path w r a.
Proof.
  intros HQ Hg. destruct (files w !! path) as [bytes|] eqn:Hpath.
  - destruct (Hg bytes) as (r & a & Ha & Hdoes). exists r, a.
    split; [done|]. intros w' Hf Hl.
    rewrite (bind_fs_read_Some _ bytes) by (by rewrite Hf). by apply Hdoes.
  - exists (Err (Io path)), Skip. split; [done|]. intros w' Hf _.
    cbn [perform]. apply bind_fs_read_None. by rewrite Hf.
Qed.

Lemma does_lift {A} (m : outcome A) (g : A → io unit) path w
    (Q : action → Prop) :
  Q Skip → (∀ x, ∃ r a, Q a ∧ does (g x) path w r a) →
  ∃ r a, Q a ∧ does (lift m ≫= g) path w r a.
Proof.
  intros HQ Hg. destruct m as [x|e|pn]; [apply Hg|..].
  - by exists (Err e), Skip.
  - by exists (Panic pn), Skip.
Qed.

Lemma does_write pngme path path' bytes w :
  output pngme = Some path →
  ∃ r a, acts pngme a ∧ does (fs_write path bytes) path' w r a.
Proof.
  intros Hout.
  destruct (does_fs_write path path' bytes w) as (r & a & Ha & Hdoes).
  exists r, a. split; [|done]. by destruct Ha as [->| ->].
Qed.

Lemma does_say pngme line path w :
  output pngme = None →
  ∃ r a, acts pngme a ∧ does (println line) path w r a.
Proof.
  intros Hout. exists (Ok ()), (Say line). by split; [|apply does_println].
Qed.

(** Passes a read or a check, naming what it returns. *)
Tactic Notation "does_step" "as" simple_intropattern(x) :=
  first [apply does_lift|apply does_read]; [done|intros x].

(** A run is one action, chosen from the file the command reads and the
    locks. *)
Lemma main_does pngme w :
  ∃ r a, acts pngme a ∧ does (main pngme) (input pngme) w r a.
Proof.
  destruct pngme as [[file ty message out|file ty|file ty|file]];
    unfold main; cbn [command input].
  - does_step as ct. does_step as bytes. does_step as png.
    destruct out; by apply does_write.
  - does_step as bytes. does_step as png.
    destruct (Container.chunk_by_type png ty); [|by exists (Ok ()), Skip].
    does_step as text. by apply does_say.
  - does_step as bytes. does_step as png. does_step as [c png'].
    by apply does_write.
  - does_step as bytes. does_step as png. does_step as text.
    by apply does_say.
Qed.

(** ** Actions commute *)

Lemma perform_locked a w : locked (perform a w) = locked w.
Proof. by destruct a. Qed.

Lemma perform_files a w path :
  (∀ bytes, a ≠ Write path bytes) →
  files (perform a w) !! path = files w !! path.
Proof.
  destruct a as [|path' bytes|line]; [done| |done]. intros Hne.
  apply lookup_insert_ne. intros ->. by apply (Hne bytes).
Qed.

(** Two writes to different files, or a write and a print, in either
    order. *)
Definition compatible (a b : action) : Prop :=
  match a, b with
  | Write path _, Write path' _ => path ≠ path'
  | Say _, Say _ => False
  | _, _ => True
  end.

Lemma perform_commute a b w :
  compatible a b → perform a (perform b w) = perform b (perform a w).
Proof.
  destruct a as [|path bytes|line], b as [|path' bytes'|line'];
    cbn [compatible perform files locked stdout]; try done.
  intros Hne. f_equal. by apply insert_insert_ne.
Qed.

Lemma acts_files pngme a w path :
  acts pngme a → output pngme ≠ Some path →
  files (perform a w) !! path = files w !! path.
Proof.
  intros Ha Hout. apply perform_files. intros bytes ->. by apply Hout.
Qed.

Lemma acts_compatible c1 c2 a b :
  acts c1 a → acts c2 b → output c1 ≠ output c2 → compatible a b.
Proof.
  destruct a, b; cbn [acts compatible]; try done; intros H1 H2 Hne.
  - intros ->. apply Hne. by rewrite H1, H2.
  - apply Hne. by rewrite H1, H2.
Qed.

(** Two independent runs, in both orders. *)
Lemma main_independent c1 c2 w :
  independent c1 c2 →
  ∃ r1 r2 w',
    main c2 (main c1 w).2 = (r2, w') ∧ main c1 (main c2 w).2 = (r1, w')
    ∧ (main c1 w).1 = r1 ∧ (main c2 w).1 = r2.
Proof.
  intros (Hout & Hout1 & Hout2).
  destruct (main_does c1 w) as (r1 & a1 & Ha1 & Hc1).
  destruct (main_does c2 w) as (r2 & a2 & Ha2 & Hc2).
  exists r1, r2, (perform a2 (perform a1 w)).
  rewrite (Hc1 w), (Hc2 w) by done. cbn [fst snd].
  rewrite (Hc2 (perform a1 w)), (Hc1 (perform a2 w))
    by (by apply perform_locked || by eapply acts_files).
  split_and!; [done| |done..].
  f_equal. symmetry. apply perform_commute. by eapply acts_compatible.
Qed.

(** C13: runs that do not interfere commute.  When neither of two
    commands writes the file the other reads or writes, running them in
    either order from any world gives each command the result it has when
    run alone, and ends in the same world: the same files, locks and
    output.  This holds whether the runs succeed, fail or panic, for
    every container that meets the contract. *)
Theorem main_commute c1 c2 w :
  independent c1 c2 →
  (main c2 (main c1 w).2).2 = (main c1 (main c2 w).2).2
  ∧ (main c2 (main c1 w).2).1 = (main c2 w).1
  ∧ (main c1 (main c2 w).2).1 = (main c1 w).1.
Proof.
  intros (r1 & r2 & w' & -> & -> & <- & <-)%(main_independent c1 c2 w). done.
Qed.

(** ** What other runs cannot undo *)

(** A run of a command that does not write [path]. *)
Inductive step_avoiding path : world → world → Prop :=
  | step_avoid pngme w :
      output pngme ≠ Some path → step_avoiding path w (main pngme w).2.

Lemma step_avoiding_keeps path w w' :
  step_avoiding path w w' →
  files w' !! path = files w !! path ∧ locked w' = locked w.
Proof.
  intros [pngme w0 Hout].
  destruct (main_does pngme w0) as (r & a & Ha & Hdoes).
  rewrite (Hdoes w0) by done. cbn [snd].
  split; [by eapply acts_files|apply perform_locked].
Qed.

Lemma rtc_step_avoiding_keeps path w w' :
  rtc (step_avoiding path) w w' →
  files w' !! path = files w !! path ∧ locked w' = locked w.
Proof.
  induction 1 as [|w1 w2 w3 [H1 H2]%step_avoiding_keeps _ [IH1 IH2]]; [done|].
  by rewrite IH1, IH2.
Qed.

(** Runs that do not write a file change nothing for a command that
    reads it: it returns the same and does the same. *)
Lemma main_after_others pngme w w' :
  rtc (step_avoiding (input pngme)) w w' →
  ∃ a, acts pngme a
       ∧ main pngme w = ((main pngme w).1, perform a w)
       ∧ main pngme w' = ((main pngme w).1, perform a w').
Proof.
  intros [Hfiles Hlocked]%rtc_step_avoiding_keeps.
  destruct (main_does pngme w) as (r & a & Ha & Hdoes). exists a.
  by rewrite (Hdoes w), (Hdoes w') by done.
Qed.

(** The action that printed a line. *)
Lemma perform_Say a w line :
  perform a w = mk_world (files w) (locked w) (stdout w ++ [line]) →
  a = Say line ∨ ∃ path bytes, a = Write path bytes.
Proof.
  destruct a as [|path bytes|line']; [|by right; eauto|].
  - intros Hw%(f_equal (length ∘ stdout)). cbn in Hw.
    rewrite length_app in Hw. cbn in Hw. lia.
  - intros Hw%(f_equal stdout). cbn in Hw.
    apply app_inv_head in Hw as [= ->]. by left.
Qed.

(** A message that [decode] prints is printed after any runs that do not
    write the file: nothing but a write to the file hides it again. *)
Lemma decode_persists file ty line w w' :
  main (mk (Decode file ty)) w
  = (Ok (), mk_world (files w) (locked w) (stdout w ++ [line])) →
  rtc (step_avoiding file) w w' →
  main (mk (Decode file ty)) w'
  = (Ok (), mk_world (files w') (locked w') (stdout w' ++ [line])).
Proof.
  intros Hdec Hrun.
  destruct (main_after_others (mk (Decode file ty)) w w' Hrun)
    as (a & Ha & Hw & ->).
  rewrite Hdec in *. cbn [fst] in *. injection Hw as Hw.
  by destruct (perform_Say a w line) as [->|(path & bytes & ->)].
Qed.


End independence.

(** ** A session with the container of [Png.v] *)

Section session_examples.
Import Args Main.
Local Open Scope string_scope.

Lemma session_invariant_witness :
  session_inv (P := Png.t) w0
    (main (P := Png.t) (mk (Encode "a.png" "RuSt" "hi" None)) w0).2.
Proof.
  apply (session_invariant (P := Png.t) w0). apply rtc_once.
  apply step_main. by compute.
Defined.

(** Two runs: the message is hidden, then read. *)
Example session_encode_decode :
  ∃ w, rtc (step (P := Png.t)) w0 w ∧ stdout w = ["Decoded Message: hi"].
Proof.
  destruct (main_encode_then_decode (P := Png.t) w0 "a.png" "RuSt" "hi"
              None Png.STANDARD_HEADER (Png.mk [])) as (w1 & Hw1 & Hw2);
    [apply w0_file|done..|by_decide|apply w0_writable|apply hi_well_formed|done|].
  eexists. split.
  - eapply rtc_l; [|apply rtc_once].
    + by apply (step_main (mk (Encode "a.png" "RuSt" "hi" None))).
    + by apply (step_main (mk (Decode "a.png" "RuSt"))).
  - cbn [default] in Hw2. rewrite Hw1. cbn [snd]. by rewrite Hw2.
Qed.

Lemma main_commute_witness :
  let c1 := mk (Encode "a.png" "RuSt" "hi" (Some "b.png")) in
  let c2 := mk (Print "a.png") in
  (main (P := Png.t) c2 (main (P := Png.t) c1 w0).2).2
  = (main (P := Png.t) c1 (main (P := Png.t) c2 w0).2).2
  ∧ (main (P := Png.t) c2 (main (P := Png.t) c1 w0).2).1
    = (main (P := Png.t) c2 w0).1
  ∧ (main (P := Png.t) c1 (main (P := Png.t) c2 w0).2).1
    = (main (P := Png.t) c1 w0).1.
Proof. apply (main_commute (P := Png.t)). by_decide. Defined.

(** Runs on the same file do not commute: reading the message before it
    is hidden prints nothing. *)
Example encode_decode_order :
  let c1 := mk (Encode "a.png" "RuSt" "hi" None) in
  let c2 := mk (Decode "a.png" "RuSt") in
  stdout (main (P := Png.t) c2 (main (P := Png.t) c1 w0).2).2
  ≠ stdout (main (P := Png.t) c1 (main (P := Png.t) c2 w0).2).2.
Proof. by vm_compute. Qed.

End session_examples.
