(* ===== verification/Store.v ===== *)
(** * Store: the commands on chunk sequences, and [main] as their
      implementation on bytes

    The specification describes the four commands by what they do to the
    chunk sequence of a container.  [Store.run] is that description made
    a program: its state holds, for every path, the chunk sequence the
    file at the path decodes to, or the failure of its decoding; encode
    appends a chunk, remove takes the first chunk of a type out, decode
    and print find and render.  No byte is encoded or decoded in it.

    [view] takes a world of files to that state, and the theorems show
    that [main] implements [Store.run] under it: a run of [main] on the
    bytes returns what the run on the chunk sequences returns and leaves
    the world whose view is the state that run leaves.  The same then
    holds for every sequence of runs. *)

From Stdlib Require Import ZArith List Lia.
From Stdlib Require Import Strings.Byte Strings.String.
From stdpp Require Import base tactics option list relations gmap strings.
From S2P Require Import Prelude.
From S2P Require Import Bytes.
From S2P Require Import Crc32.
From S2P Require Import Utf8.
From S2P Require Import ChunkType.
From S2P Require Import Chunk.
From S2P Require Import Container.
From S2P Require Import Png.
From S2P Require Import Cli.
From S2P Require Import Session.

Module Store.
Import Args.

(** Every file as the decoder sees it, the paths that cannot be written,
    and the lines printed. *)
Record t : Type := mk {
  images : gmap string (outcome (list Chunk.t));
  readonly : gset string;
  printed : list string;
}.

(** The chunk sequence at a path. *)
Definition read (path : string) (s : t) : outcome (list Chunk.t) :=
  match images s !! path with
  | Some image => image
  | None => Err (Io path)
  end.

Definition write (path : string) (cs : list Chunk.t) (s : t)
  : outcome unit * t :=
  if decide (path ∈ readonly s) then (Err (Io path), s)
  else (Ok (), mk (<[path := Ok cs]> (images s)) (readonly s) (printed s)).

Definition print (line : string) (s : t) : outcome unit * t :=
  (Ok (), mk (images s) (readonly s) (printed s ++ [line])).

(** Goes on with what was computed, or stops with its failure. *)
Definition after {A} (m : outcome A) (k : A → t → outcome unit * t) (s : t)
  : outcome unit * t :=
  match m with
  | Ok a => k a s
  | Err e => (Err e, s)
  | Panic p => (Panic p, s)
  end.

Section run.
Context (render : list Chunk.t → outcome string).

(** The four commands, as section 6 of the specification words them. *)
Definition run (pngme : PngMe) (s : t) : outcome unit * t :=
  match command pngme with
  | Encode file chunk_type message output_file =>
      after (ChunkType.from_str chunk_type) (λ chunk_type,
      after (read file s) (λ cs,
        write (default file output_file)
              (cs ++ [Chunk.new chunk_type (Utf8.as_bytes message)]))) s
  | Decode file chunk_type =>
      after (read file s) (λ cs s,
        match List.find (has_type chunk_type) cs with
        | Some chunk =>
            after (Chunk.data_as_string chunk)
                  (λ text, print ("Decoded Message: " ++ text)) s
        | None => (Ok (), s)
        end) s
  | Remove file chunk_type =>
      after (read file s) (λ cs s,
        match remove_first (has_type chunk_type) cs with
        | Some (_, cs) => write file cs s
        | None => (Err (ChunkNotFound chunk_type), s)
        end) s
  | Print file =>
      after (read file s) (λ cs, after (render cs) print) s
  end.

(** One run, of a command whose message fits a chunk. *)
Inductive step : t → t → Prop :=
  | step_run pngme s : small pngme → step s (run pngme s).2.

End run.

End Store.

(** ** The view of a world *)

Section refinement.
Import Args Main.
Context {P : Type} `{!Container.t P}.
Implicit Types (w : world) (pngme : PngMe) (path : string)
  (bytes : list byte) (p : P) (cs : list Chunk.t).

(** A file as the decoder sees it. *)
Definition image bytes : outcome (list Chunk.t) :=
  Container.chunks <$> Container.try_from bytes.

Definition view w : Store.t :=
  Store.mk (image <$> files w) (locked w) (stdout w).

Lemma image_Ok bytes p :
  Container.try_from bytes = Ok p → image bytes = Ok (Container.chunks p).
Proof. unfold image. by intros ->. Qed.

Lemma image_as_bytes p :
  Forall (valid crc32) (Container.chunks p) →
  image (Container.as_bytes p) = Ok (Container.chunks p).
Proof.
  intros Hp.
  destruct (Container.try_from_as_bytes_valid p Hp) as (p' & Hp' & <-).
  by apply image_Ok.
Qed.

Lemma view_read path w :
  Store.read path (view w) =
  match files w !! path with
  | Some bytes => image bytes
  | None => Err (Io path)
  end.
Proof.
  unfold Store.read, view. cbn [Store.images]. rewrite lookup_fmap.
  by destruct (files w !! path).
Qed.

(** A write of the encoding of valid chunks is a write of the chunks. *)
Lemma view_fs_write path p w :
  Forall (valid crc32) (Container.chunks p) →
  Store.write path (Container.chunks p) (view w) =
  ((fs_write path (Container.as_bytes p) w).1,
   view (fs_write path (Container.as_bytes p) w).2).
Proof.
  intros Hp. unfold Store.write, fs_write, view. cbn [Store.readonly].
  case_decide; [done|]. cbn [fst snd files locked stdout Store.images].
  by rewrite fmap_insert, image_as_bytes.
Qed.

Lemma view_println line w :
  Store.print line (view w) = ((println line w).1, view (println line w).2).
Proof. done. Qed.

(** Reading and decoding a file is reading its image. *)
Lemma view_read_decode path w (g : P → io unit)
    (k : list Chunk.t → Store.t → outcome unit * Store.t) :
  let m := fs_read path ≫= λ bytes, lift (Container.try_from bytes) ≫= g in
  (∀ p bytes,
     files w !! path = Some bytes → Container.try_from bytes = Ok p →
     k (Container.chunks p) (view w) = ((g p w).1, view (g p w).2)) →
  Store.after (Store.read path (view w)) k (view w)
  = ((m w).1, view (m w).2).
Proof.
  intros m Hk. rewrite view_read.
  unfold m, mbind, io_bind, lift, fs_read, image.
  destruct (files w !! path) as [bytes|] eqn:Hpath; [|done].
  destruct (Container.try_from bytes) as [p| |] eqn:Hp; [|done..].
  by apply (Hk p bytes).
Qed.

(** A run of [main], and the command on the view of the world. *)
Lemma main_view pngme w :
  small pngme →
  Store.run Container.render pngme (view w)
  = ((main pngme w).1, view (main pngme w).2).
Proof.
  destruct pngme as [[file ty message out|file ty|file ty|file]];
    unfold small, main, Store.run; cbn [command]; intros Hsmall.
  - unfold mbind at 1, io_bind at 1, lift at 1, Store.after at 1.
    destruct (ChunkType.from_str ty) as [ct| |]; [|done..].
    apply view_read_decode. intros p bytes _ [_ Hp]%Container.try_from_Ok.
    rewrite <- Container.chunks_append_chunk.
    destruct out; apply view_fs_write; rewrite Container.chunks_append_chunk;
      (apply Forall_app; split; [done|]); by repeat constructor; apply valid_new.
  - apply view_read_decode. intros p bytes _ _.
    rewrite Container.chunk_by_type_find.
    destruct (find _ _) as [c|]; [|done].
    unfold mbind, io_bind, lift, Store.after.
    by destruct (Chunk.data_as_string c).
  - apply view_read_decode. intros p bytes _ [_ Hp]%Container.try_from_Ok.
    unfold mbind, io_bind, lift.
    destruct (remove_first _ _) as [[c l]|] eqn:Hl.
    + destruct (Container.remove_first_chunk_Some p ty c l Hl)
        as (p' & Hrem & <-).
      rewrite Hrem. apply view_fs_write. by eapply remove_first_chunk_valid.
    + by rewrite Container.remove_first_chunk_None.
  - apply view_read_decode. intros p bytes _ _.
    rewrite <- Container.fmt_render. unfold mbind, io_bind, lift, Store.after.
    by destruct (Container.fmt p).
Qed.

(** C8: [main] implements the commands of the specification.  For a
    command whose message fits a chunk, running [main] on a world of
    files returns what the command on chunk sequences returns on the view
    of the world, and leaves the world whose view is the state that
    command leaves: encoding and decoding bytes, done on every run, shows
    in no result.  This holds on every world, whether the run succeeds,
    fails or panics, and for every container that meets the contract. *)
Theorem main_refines pngme w :
  small pngme →
  Store.run Container.render pngme (view w)
  = ((main pngme w).1, view (main pngme w).2).
Proof. apply main_view. Qed.

(** ** Sessions *)

(** A run of [main] is a run on chunk sequences, under the view. *)
Lemma step_refines w w' :
  step w w' → Store.step Container.render (view w) (view w').
Proof.
  intros [pngme w0 Hsmall].
  replace (view (main pngme w0).2)
    with (Store.run Container.render pngme (view w0)).2
    by (by rewrite main_view). by constructor.
Qed.

(** So is a session. *)
Lemma session_refines w w' :
  rtc step w w' → rtc (Store.step Container.render) (view w) (view w').
Proof.
  induction 1 as [|w1 w2 w3 Hstep _ IH]; [done|].
  eapply rtc_l; [by apply step_refines|done].
Qed.

End refinement.

(** ** Runs with the container of [Png.v] *)

Section store_examples.
Import Args Main.
Local Open Scope string_scope.

Lemma main_refines_witness :
  let pngme := Args.mk (Encode "a.png" "RuSt" "hi" (Some "b.png")) in
  Store.run (Container.render (t := png_container)) pngme (view (P := Png.t) w0)
  = ((main (P := Png.t) pngme w0).1, view (P := Png.t) (main pngme w0).2).
Proof. apply (main_refines (P := Png.t)). by compute. Defined.

(** The command on chunk sequences, run: the new file holds one chunk. *)
Example run_encode :
  Store.images
    (Store.run (Container.render (t := png_container))
       (Args.mk (Encode "a.png" "RuSt" "hi" (Some "b.png")))
       (Store.mk {[ "a.png" := Ok [] ]} ∅ [])).2
  = {[ "a.png" := Ok []; "b.png" := Ok [hi_chunk] ]}.
Proof. by vm_compute. Qed.

End store_examples.
