(* ===== verification/Process.v ===== *)
(** * Process: the program as it is started, from its arguments to its
      exit status

    [main] begins with [PngMe::parse()], generated by clap's derive macros
    from the structures of [args.rs], and ends with the exit status the
    standard library derives from the [Result] it returns.  This file
    models both ends.

    The arguments are those after the program name, as byte strings.
    The model covers the command lines made of plain tokens: no argument
    begins with a hyphen (which clap may read as an option) and the
    first is not [help] (the subcommand clap adds).  On those clap does
    what the structures say: the first argument names the variant of
    [Commands], in lower case, and the others are its fields in their
    order, the last of [Encode] being optional.  A [PathBuf] field takes
    any value but the empty one, a [String] field any value that is
    UTF-8.  Anything else is a usage error, which prints to the standard
    error and exits with status 2.  On other command lines
    [Process.parse] gives no answer.

    The exit status is 0 when [main] returns [Ok], 1 when it returns an
    error and 101 when it panics.  What the process writes to the
    standard error is not modelled.

    A process is at most one run of [main], so what [Session.v] shows of
    sequences of runs holds of the program started any number of times
    ([launch], [launch_invariant]). *)

From Stdlib Require Import ZArith List Lia.
From Stdlib Require Import Strings.Byte Strings.String Strings.Ascii.
From stdpp Require Import base tactics option list relations gmap strings.
From S2P Require Import Prelude.
From S2P Require Import Bytes.
From S2P Require Import Crc32.
From S2P Require Import Utf8.
From S2P Require Import ChunkType.
From S2P Require Import Chunk.
From S2P Require Import Container.
From S2P Require Import Png.
From S2P Require Import Cli.
From S2P Require Import Session.

Local Open Scope string_scope.

Module Process.
Import Args Main.

(** What [PngMe::parse()] does: it returns the structure, or reports a
    usage error and exits. *)
Inductive parsed : Type :=
  | Run (pngme : PngMe)
  | Usage.

(** An argument that begins with a hyphen: clap may read it as an
    option. *)
Definition option_like (arg : string) : bool :=
  match arg with
  | String a _ => Ascii.eqb a "-"
  | EmptyString => false
  end.

(** The value of a [PathBuf] field: clap refuses the empty value. *)
Definition path_buf (value : string) : option string :=
  if decide (value = EmptyString) then None else Some value.

(** The value of a [String] field: clap refuses a value that is not
    UTF-8. *)
Definition text (value : string) : option string :=
  Utf8.from_utf8 (Utf8.as_bytes value).

(** [#[derive(Subcommand)]]: the variant named by [name], from the
    values of its fields, or nothing on a usage error. *)
Definition subcommand (name : string) (values : list string)
  : option Commands :=
  if decide (name = "encode") then
    match values with
    | [file; chunk_type; message] =>
        file ← path_buf file;
        chunk_type ← text chunk_type;
        message ← text message;
        Some (Encode file chunk_type message None)
    | [file; chunk_type; message; output_file] =>
        file ← path_buf file;
        chunk_type ← text chunk_type;
        message ← text message;
        output_file ← path_buf output_file;
        Some (Encode file chunk_type message (Some output_file))
    | _ => None
    end
  else if decide (name = "decode") then
    match values with
    | [file; chunk_type] =>
        file ← path_buf file;
        chunk_type ← text chunk_type;
        Some (Decode file chunk_type)
    | _ => None
    end
  else if decide (name = "remove") then
    match values with
    | [file; chunk_type] =>
        file ← path_buf file;
        chunk_type ← text chunk_type;
        Some (Remove file chunk_type)
    | _ => None
    end
  else if decide (name = "print") then
    match values with
    | [file] => file ← path_buf file; Some (Print file)
    | _ => None
    end
  else None.

(** [PngMe::parse()], on the arguments after the program name. *)
Definition parse (args : list string) : option parsed :=
  if existsb option_like args then None
  else
    match args with
    | [] => Some Usage
    | name :: values =>
        if decide (name = "help") then None
        else
          match subcommand name values with
          | Some command => Some (Run (mk command))
          | None => Some Usage
          end
    end.

(** The command line of a command. *)
Definition command_line (pngme : PngMe) : list string :=
  match command pngme with
  | Encode file chunk_type message output_file =>
      ["encode"; file; chunk_type; message] ++ option_list output_file
  | Decode file chunk_type => ["decode"; file; chunk_type]
  | Remove file chunk_type => ["remove"; file; chunk_type]
  | Print file => ["print"; file]
  end.

(** The exit status of [fn main() -> Result<()>]. *)
Definition status (r : outcome unit) : Z :=
  match r with
  | Ok _ => 0
  | Err _ => 1
  | Panic _ => 101
  end.

(** The exit status of a usage error. *)
Definition USAGE : Z := 2.

Section run.
Context {P : Type} `{!Container.t P}.

(** The process: its exit status and the world it leaves. *)
Definition run (args : list string) (w : world) : option (Z * world) :=
  match parse args with
  | Some (Run pngme) => Some (status (main pngme w).1, (main pngme w).2)
  | Some Usage => Some (USAGE, w)
  | None => None
  end.

End run.

End Process.

(** ** Command lines and commands *)

Section parsing.
Import Args Process.
Implicit Types (args values : list string) (name arg : string)
  (pngme : PngMe).

(** No argument is read as an option. *)
Definition plain args : Prop := Forall (λ arg, option_like arg = false) args.

#[global] Instance plain_dec args : Decision (plain args).
Proof. unfold plain. apply _. Defined.

Lemma existsb_option_like args :
  existsb option_like args = false ↔ plain args.
Proof.
  unfold plain. induction args as [|arg args IH]; [done|]. cbn [existsb].
  rewrite Forall_cons, <- IH. apply orb_false_iff.
Qed.

(** A text that is UTF-8. *)
Definition unicode (s : string) : Prop := well_formed (Utf8.as_bytes s).

#[global] Instance unicode_dec s : Decision (unicode s).
Proof.
  refine (cast_if (decide (Utf8.run_utf8_validation (Utf8.as_bytes s) = true)));
    unfold unicode; [by apply validation_sound|by intros ?%validation_complete].
Defined.

(** The commands the value parsers let through: no path is empty and
    every text is UTF-8. *)
Definition accepted pngme : Prop :=
  match command pngme with
  | Encode file chunk_type message output_file =>
      file ≠ EmptyString ∧ unicode chunk_type ∧ unicode message
      ∧ output_file ≠ Some EmptyString
  | Decode file chunk_type | Remove file chunk_type =>
      file ≠ EmptyString ∧ unicode chunk_type
  | Print file => file ≠ EmptyString
  end.

#[global] Instance accepted_dec pngme : Decision (accepted pngme).
Proof. unfold accepted. destruct (command pngme); apply _. Defined.

(** The arguments that denote a command: its command line, when the
    value parsers let the command through. *)
Definition denotes args pngme : Prop :=
  args = command_line pngme ∧ accepted pngme.

#[global] Instance denotes_dec args pngme : Decision (denotes args pngme).
Proof. unfold denotes. apply _. Defined.

Lemma path_buf_Some value path :
  path_buf value = Some path ↔ path = value ∧ value ≠ EmptyString.
Proof. unfold path_buf. case_decide; naive_solver. Qed.

Lemma text_Some value s : text value = Some s ↔ s = value ∧ unicode value.
Proof.
  unfold text, unicode. rewrite from_utf8_Some.
  unfold Utf8.as_bytes. rewrite string_of_list_byte_of_string. split.
  - intros [?%validation_sound ->]. done.
  - intros [-> ?%validation_complete]. done.
Qed.

(** The value parsers, inverted in a hypothesis. *)
Ltac parsed_values :=
  repeat match goal with
    | H : path_buf _ = Some _ |- _ => apply path_buf_Some in H as [-> ?]
    | H : text _ = Some _ |- _ => apply text_Some in H as [-> ?]
    | H : _ ≫= _ = Some _ |- _ =>
        apply bind_Some in H as (? & ? & H)
    end.

Lemma subcommand_denotes name values (c : Commands) :
  subcommand name values = Some c → denotes (name :: values) (mk c).
Proof.
  unfold subcommand, denotes, accepted.
  repeat case_decide; subst; [..|done];
    destruct values as [|? [|? [|? [|? [|]]]]]; try done;
    intros Hcommand; parsed_values; injection Hcommand as <-;
    cbn [command command_line option_list app]; naive_solver.
Qed.

Lemma path_buf_id value : value ≠ EmptyString → path_buf value = Some value.
Proof. intros. by apply path_buf_Some. Qed.

Lemma text_id value : unicode value → text value = Some value.
Proof. intros. by apply text_Some. Qed.

Lemma denotes_subcommand pngme :
  accepted pngme →
  ∃ name values,
    command_line pngme = name :: values ∧ name ≠ "help"
    ∧ subcommand name values = Some (command pngme).
Proof.
  destruct pngme as [[file ty message out|file ty|file ty|file]];
    unfold accepted; cbn [command command_line app]; intros Hacc;
    destruct_and?; eexists _, _; split_and!; try done; unfold subcommand;
    [destruct out as [out|]|..]; simpl (option_list _);
    rewrite ?path_buf_id, ?text_id by naive_solver;
    repeat case_decide; done.
Qed.

(** A command has one command line, and a command line one command. *)
Lemma command_line_inj pngme pngme' :
  command_line pngme = command_line pngme' → pngme = pngme'.
Proof.
  destruct pngme as [[file ty message [out|]|file ty|file ty|file]],
    pngme' as [[file' ty' message' [out'|]|file' ty'|file' ty'|file']];
    cbn [command_line command option_list app]; intros Heq; by simplify_eq.
Qed.

Lemma denotes_inj args pngme pngme' :
  denotes args pngme → denotes args pngme' → pngme = pngme'.
Proof. intros [-> _] [? _]. by apply command_line_inj. Qed.

Lemma denotes_head args pngme : denotes args pngme → head args ≠ Some "help".
Proof. intros [-> _]. by destruct pngme as [[]]. Qed.

(** The parser on plain command lines. *)
Lemma parse_plain args :
  plain args →
  parse args =
  match args with
  | [] => Some Usage
  | name :: values =>
      if decide (name = "help") then None
      else
        match subcommand name values with
        | Some command => Some (Run (mk command))
        | None => Some Usage
        end
  end.
Proof. intros Hargs%existsb_option_like. unfold parse. by rewrite Hargs. Qed.

Lemma parse_Some_plain args r : parse args = Some r → plain args.
Proof.
  unfold parse. destruct (existsb option_like args) eqn:Hargs; [done|].
  intros _. by apply existsb_option_like.
Qed.

(** The commands the parser returns, by their command lines. *)
Lemma parse_Run args pngme :
  parse args = Some (Run pngme) ↔ denotes args pngme ∧ plain args.
Proof.
  split.
  - intros Hparse. pose proof (parse_Some_plain _ _ Hparse) as Hargs.
    split; [|done]. rewrite parse_plain in Hparse by done.
    destruct args as [|name values]; [done|]. case_decide; [done|].
    destruct (subcommand name values) as [c|] eqn:Hc; [|done].
    injection Hparse as <-. by apply subcommand_denotes.
  - intros [[-> Hacc] Hargs]. rewrite parse_plain by done.
    destruct (denotes_subcommand pngme Hacc)
      as (name & values & -> & Hname & ->).
    rewrite decide_False by done. by destruct pngme.
Qed.

(** The command lines the model does not answer on. *)
Lemma parse_None args :
  parse args = None ↔ ¬ plain args ∨ head args = Some "help".
Proof.
  unfold parse. destruct (existsb option_like args) eqn:Hargs.
  - split; [|done]. intros _. left. intros ?%existsb_option_like. congruence.
  - apply existsb_option_like in Hargs.
    destruct args as [|name values]; [naive_solver|]. cbn [head].
    case_decide; [naive_solver|].
    destruct (subcommand name values); naive_solver.
Qed.

(** The usage errors: every other command line. *)
Lemma parse_Usage args :
  parse args = Some Usage ↔
  plain args ∧ head args ≠ Some "help" ∧ ∀ pngme, ¬ denotes args pngme.
Proof.
  split.
  - intros Hparse. pose proof (parse_Some_plain _ _ Hparse) as Hargs.
    split; [done|]. split.
    + intros Hhelp. by rewrite (proj2 (parse_None args)) in Hparse by auto.
    + intros pngme Hpngme.
      by rewrite (proj2 (parse_Run args pngme)) in Hparse.
  - intros (Hargs & Hhelp & Hnone).
    destruct (parse args) as [[pngme|]|] eqn:Hparse; [|done|].
    + apply parse_Run in Hparse as [Hpngme _]. by destruct (Hnone pngme).
    + apply parse_None in Hparse as [|]; done.
Qed.

(** C28: the command lines of the program.  On arguments of which none
    begins with a hyphen and the first is not [help], the parser returns
    a command exactly on the command line of that command (the name of
    the variant in lower case, then the fields in their order, the
    output file of [encode] last and only when there is one) when no
    path of it is empty and its texts are UTF-8; every other such command
    line is a usage error; and the parser of the model answers on no
    other arguments. *)
Theorem parse_command_line args :
  (∀ pngme, parse args = Some (Run pngme) ↔ denotes args pngme ∧ plain args)
  ∧ (parse args = Some Usage ↔
     plain args ∧ head args ≠ Some "help" ∧ ∀ pngme, ¬ denotes args pngme)
  ∧ (parse args = None ↔ ¬ plain args ∨ head args = Some "help").
Proof.
  split; [intros; apply parse_Run|]. split; [apply parse_Usage|].
  apply parse_None.
Qed.

End parsing.

(** ** The exit status *)

Section process.
Import Args Main Process.
Context {P : Type} `{!Container.t P}.
Implicit Types (args : list string) (pngme : PngMe) (w : world)
  (code : Z) (file ty message : string).

(** The status names the outcome of [main]. *)
Lemma status_cases (r : outcome unit) :
  (status r = 0 ↔ r = Ok ())
  ∧ (status r = 1 ↔ ∃ e, r = Err e)
  ∧ (status r = 101 ↔ ∃ p, r = Panic p)
  ∧ status r ≠ USAGE.
Proof. destruct r as [[]| |]; cbn [status]; unfold USAGE; naive_solver. Qed.

(** The process on arguments that denote a command. *)
Lemma run_denotes args pngme w :
  denotes args pngme → plain args →
  run args w = Some (status (main pngme w).1, (main pngme w).2).
Proof. intros. unfold run. by rewrite (proj2 (parse_Run args pngme)). Qed.

(** A process that exits was given a usage error or a command. *)
Lemma run_Some args w code w' :
  run args w = Some (code, w') →
  (code = USAGE ∧ w' = w ∧ ∀ pngme, ¬ denotes args pngme)
  ∨ ∃ pngme, denotes args pngme
             ∧ code = status (main pngme w).1 ∧ w' = (main pngme w).2.
Proof.
  unfold run. destruct (parse args) as [[pngme|]|] eqn:Hparse; [| |done].
  - apply parse_Run in Hparse as [Hpngme _]. intros [= <- <-].
    right. by exists pngme.
  - apply parse_Usage in Hparse as (_ & _ & Hnone). intros [= <- <-].
    by left.
Qed.

(** What the command of a command line does is what any command of that
    command line does. *)
Lemma denotes_main args pngme w (Q : outcome unit * world → Prop) :
  denotes args pngme →
  Q (main pngme w) ↔ ∃ pngme', denotes args pngme' ∧ Q (main pngme' w).
Proof.
  intros Hp. split; [by exists pngme|]. intros (pngme' & Hp' & HQ).
  by rewrite (denotes_inj _ _ _ Hp Hp').
Qed.

(** A run of [main] that fails changes nothing. *)
Lemma status_main pngme w :
  status (main pngme w).1 ≠ 0 → (main pngme w).2 = w.
Proof.
  intros Hcode. apply main_atomic. by destruct (main pngme w).1 as [[]| |].
Qed.

(** C22: the exit status tells what happened.  A process that exits does
    so with status 0 exactly when its arguments denote a command on
    which [main] returns [Ok], with 1 exactly when [main] returns an
    error, with 101 exactly when [main] panics, and with 2 exactly when
    the arguments denote no command; the world it leaves is the one
    [main] leaves, and with any status but 0 every file and the output
    are as they were before the process was started. *)
Theorem run_status args w code w' :
  run args w = Some (code, w') →
  (code = 0 ↔ ∃ pngme, denotes args pngme ∧ main pngme w = (Ok (), w'))
  ∧ (code = 1 ↔
     ∃ pngme, denotes args pngme ∧ ∃ e, main pngme w = (Err e, w'))
  ∧ (code = 101 ↔
     ∃ pngme, denotes args pngme ∧ ∃ p, main pngme w = (Panic p, w'))
  ∧ (code = USAGE ↔ ∀ pngme, ¬ denotes args pngme)
  ∧ (code ≠ 0 → w' = w).
Proof.
  intros [(-> & -> & Hnone)|(pngme & Hp & -> & ->)]%run_Some.
  { unfold USAGE. naive_solver. }
  destruct (status_cases (main pngme w).1) as (H0 & H1 & H101 & H2).
  rewrite <- !(denotes_main args pngme w (λ x, x = (_, _))),
    <- !(denotes_main args pngme w (λ x, ∃ y, x = (_ y, _))) by done.
  rewrite H0, H1, H101. pose proof (status_main pngme w).
  destruct (main pngme w) as [r w']. cbn [fst snd] in *. naive_solver.
Qed.

(** A chunk type of four letters is a plain argument, and UTF-8. *)
Lemma tag_plain ty : tag ty → option_like ty = false.
Proof.
  intros [Hty _]. destruct ty as [|a ty]; [done|]. cbn [option_like].
  destruct (Ascii.eqb_spec a "-") as [->|]; [|done].
  by apply Forall_cons in Hty as [Hty _].
Qed.

Lemma tag_unicode ty : tag ty → unicode ty.
Proof.
  intros [Hty _]. by apply validation_sound, validation_ascii, alphabetic_ascii.
Qed.

(** Hiding a message and reading it back, from the command line. *)
Lemma run_encode_decode w file ty message bytes png :
  plain [file; message] → file ≠ EmptyString →
  files w !! file = Some bytes → Container.try_from bytes = Ok png →
  Container.chunk_by_type png ty = None → tag ty → file ∉ locked w →
  well_formed (Utf8.as_bytes message) →
  Z.of_nat (length (Utf8.as_bytes message)) < U32.modulus →
  ∃ w1, run ["encode"; file; ty; message] w = Some (0, w1)
    ∧ run ["decode"; file; ty] w1
      = Some (0, mk_world (files w1) (locked w)
                   (stdout w ++ ["Decoded Message: " ++ message])).
Proof.
  intros [Hfile [Hmessage _]%Forall_cons]%Forall_cons ???? Hty ???.
  pose proof (tag_plain ty Hty). pose proof (tag_unicode ty Hty).
  destruct (main_encode_then_decode w file ty message None bytes png)
    as (w1 & Hw1 & Hw2); [done..|]. exists w1. cbn [default] in Hw2.
  rewrite (run_denotes _ (mk (Encode file ty message None)))
    by (by repeat constructor).
  rewrite (run_denotes _ (mk (Decode file ty))) by (by repeat constructor).
  by rewrite Hw1, Hw2.
Qed.

End process.

(** ** Sessions of processes *)

Section launches.
Import Args Main Process.
Context {P : Type} `{!Container.t P}.
Implicit Types (w : world) (args : list string) (pngme : PngMe).

(** Every argument fits a chunk. *)
Definition short args : Prop :=
  Forall (λ arg, Z.of_nat (length (Utf8.as_bytes arg)) < U32.modulus) args.

#[global] Instance short_dec args : Decision (short args).
Proof. unfold short. apply _. Defined.

(** One start of the program, with short arguments, that exits. *)
Inductive launch : world → world → Prop :=
  | launch_run args w code w' :
      short args → run args w = Some (code, w') → launch w w'.

Lemma command_line_small pngme : short (command_line pngme) → small pngme.
Proof.
  destruct pngme as [[file ty message out|file ty|file ty|file]];
    unfold small; cbn [command command_line]; [|done..].
  intros Hargs. do 3 apply Forall_cons in Hargs as [_ Hargs].
  by apply Forall_cons in Hargs as [? _].
Qed.

(** A process is at most one run of [main]. *)
Lemma launch_step w w' : launch w w' → w' = w ∨ step w w'.
Proof.
  intros [args w0 code w1 Hshort
    [(_ & -> & _)|(pngme & [-> _] & _ & ->)]%run_Some]; [by left|].
  right. constructor. by apply command_line_small.
Qed.

Lemma launch_rtc_step w w' : rtc launch w w' → rtc step w w'.
Proof.
  induction 1 as [|w1 w2 w3 [->|Hstep]%launch_step _ IH]; [done..|].
  by eapply rtc_l.
Qed.

(** Whatever the program is started with, any number of times, it leaves
    the files as they were or as containers that decode. *)
Lemma launch_invariant w0 w : rtc launch w0 w → session_inv w0 w.
Proof. intros Hrun%launch_rtc_step. by apply session_inv_rtc. Qed.

End launches.

(** ** Processes, with the container of [Png.v] *)

Section process_examples.
Import Args Main Process.

Lemma run_status_witness :
  ∃ pngme, denotes ["decode"; "b.png"; "RuSt"] pngme
           ∧ ∃ e, main (P := Png.t) pngme w0 = (Err e, w0).
Proof.
  by apply (run_status (P := Png.t) ["decode"; "b.png"; "RuSt"] w0 1 w0).
Defined.

(** Command lines that miss an argument, have none, or give an empty
    path. *)
Example run_usage :
  run (P := Png.t) ["encode"; "a.png"; "RuSt"] w0 = Some (USAGE, w0)
  ∧ run (P := Png.t) [] w0 = Some (USAGE, w0)
  ∧ run (P := Png.t) ["print"; EmptyString] w0 = Some (USAGE, w0).
Proof. done. Qed.

(** A message that is not UTF-8 is a usage error; a path may be any
    bytes. *)
Example run_not_unicode :
  let bad := String "255"%char EmptyString in
  run (P := Png.t) ["encode"; "a.png"; "RuSt"; bad] w0 = Some (USAGE, w0)
  ∧ run (P := Png.t) ["print"; bad] w0 = Some (1, w0).
Proof. by vm_compute. Qed.

(** A chunk type of five letters crashes the process. *)
Example run_long_type :
  run (P := Png.t) ["encode"; "a.png"; "RuSty"; "hi"] w0 = Some (101, w0).
Proof. by vm_compute. Qed.

(** Options and the help subcommand are outside the model. *)
Example parse_outside : parse ["--help"] = None ∧ parse ["help"] = None.
Proof. done. Qed.

End process_examples.
